(** * CommonClientDataSocket: the local key/value data broker

    A shallow embedding of [WebSocketDataServer], of its three storage
    adapters and of [WebSocketDataClient], followed by the properties of the
    broker that the design document states and by further properties of the
    adapters, the broker and the client.

    Layout:
    - [Js]: the fragment of JavaScript values the broker handles: JSON
      documents, string conversion, truthiness, property reads, the
      enumeration order of own properties;
    - [Adapters]: [BrowserStorageAdapter], [ReactNativeStorageAdapter],
      [NodeJSStorageAdapter];
    - [Server]: sockets, the handlers, [handleMessage], [notifySubscribers];
    - [Client]: the pending-request table and the close handler;
    - [Library]: the listeners, the subscriptions and the public methods of
      the client;
    - the theorems, one section per property. *)

From Stdlib Require Import ZArith QArith Lia Ascii.
From stdpp Require Import base option list strings gmap pretty.

Set Warnings "-register-all".
Local Open Scope Z_scope.

(** ** JavaScript values *)

Module Js.

(** Built-in objects a property read can reach through the prototype chain. *)
Inductive Builtin : Type :=
| ObjectPrototype
| ArrayPrototype
| StringPrototype
| NumberPrototype
| BooleanPrototype
| FunctionPrototype
| BuiltinFunction (name : string).

(** A value as the broker sees it: what [JSON.parse] yields, [undefined], and
    the built-ins above.  A number is an integer, or a number that is not one
    and is then given by its decimal form, the string [String(n)]; an object
    is the list of its own properties in enumeration order; one [ascii]
    stands for one code unit of a string. *)
Inductive Value : Type :=
| VUndefined
| VNull
| VBool (b : bool)
| VNum (n : Z)
| VFraction (decimal : string)
| VStr (s : string)
| VArr (elems : list Value)
| VObj (props : list (string * Value))
| VBuiltin (b : Builtin).

(** Exceptions: [new Error(message)] of the source, and the two kinds the
    engine raises by itself. *)
Inductive Exn : Type :=
| Error (message : string)
| TypeError (message : string)
| SyntaxError (message : string).

Definition message_of (e : Exn) : string :=
  match e with
  | Error m | TypeError m | SyntaxError m => m
  end.

(** *** Own properties *)

Fixpoint own_get (k : string) (ps : list (string * Value)) : option Value :=
  match ps with
  | [] => None
  | (k', v) :: r => if String.eqb k k' then Some v else own_get k r
  end.

Definition own_has (k : string) (ps : list (string * Value)) : bool :=
  match own_get k ps with Some _ => true | None => false end.

Fixpoint own_delete (k : string) (ps : list (string * Value)) : list (string * Value) :=
  match ps with
  | [] => []
  | (k', v) :: r => if String.eqb k k' then own_delete k r else (k', v) :: own_delete k r
  end.

Definition digit_of (c : ascii) : option N :=
  let n := Ascii.N_of_ascii c in
  if ((48 <=? n) && (n <=? 57))%N then Some (n - 48)%N else None.

Fixpoint digits_value (s : string) (acc : N) : option N :=
  match s with
  | EmptyString => Some acc
  | String c r =>
      match digit_of c with
      | Some d => digits_value r (10 * acc + d)%N
      | None => None
      end
  end.

(** An array index is the canonical decimal form of an integer below
    2^32 - 1; such keys are enumerated first, in ascending order. *)
Definition array_index (k : string) : option N :=
  match k with
  | EmptyString => None
  | String "0" EmptyString => Some 0%N
  | String "0" _ => None
  | _ =>
      match digits_value k 0 with
      | Some n => if (n <? 4294967295)%N then Some n else None
      | None => None
      end
  end.

Fixpoint own_replace (k : string) (v : Value) (ps : list (string * Value))
  : list (string * Value) :=
  match ps with
  | [] => []
  | (k', v') :: r =>
      if String.eqb k k' then (k, v) :: r else (k', v') :: own_replace k v r
  end.

Fixpoint insert_index (i : N) (k : string) (v : Value) (ps : list (string * Value))
  : list (string * Value) :=
  match ps with
  | [] => [(k, v)]
  | (k', v') :: r =>
      match array_index k' with
      | Some j => if (j <? i)%N then (k', v') :: insert_index i k v r
                  else (k, v) :: ps
      | None => (k, v) :: ps
      end
  end.

(** [o[k] = v] on own data properties: an existing property keeps its place,
    a new one is enumerated after the older string keys, or among the array
    indices when [k] is one. *)
Definition own_set (k : string) (v : Value) (ps : list (string * Value))
  : list (string * Value) :=
  if own_has k ps then own_replace k v ps
  else match array_index k with
       | Some i => insert_index i k v ps
       | None => ps ++ [(k, v)]
       end.

(** *** Conversions *)

Definition builtin_to_string (b : Builtin) : string :=
  match b with
  | ObjectPrototype => "[object Object]"
  | ArrayPrototype => ""
  | StringPrototype => ""
  | NumberPrototype => "0"
  | BooleanPrototype => "false"
  | FunctionPrototype => "function () { [native code] }"
  | BuiltinFunction n => "function " +:+ n +:+ "() { [native code] }"
  end.

Definition cannot_convert : Exn :=
  TypeError "Cannot convert object to primitive value".

(** *** Numbers as strings

    [Number::toString] on an integer.  A Number is a binary floating-point
    number of 53 significant bits: up to 2^53 every integer is one and its
    digits are written out.  Beyond, the digits are the fewest that still
    name the Number among its neighbours, followed by zeros; from 21 digits
    on the form is exponential. *)

(** Whether the integer [v] is read as the Number [n]: [n] is the Number
    nearest to [v], a tie going to the Number with the even significand. *)
Definition reads_as (n v : Z) : bool :=
  let ulp := 2 ^ (Z.log2 n - 52) in
  let even := Z.even (n / ulp) in
  let below := if n =? 2 ^ Z.log2 n then ulp / 2 else ulp in
  if v <? n then (2 * (n - v) <? below) || (even && (2 * (n - v) =? below))
  else (2 * (v - n) <? ulp) || (even && (2 * (v - n) =? ulp)).

(** The integer of [k] significant digits, or of more when [k] do not
    suffice, that is read as [n] and is nearest to it; [e] is the number of
    digits of [n]. *)
Fixpoint shortest_decimal (fuel : nat) (k : Z) (n e : Z) : option Z :=
  match fuel with
  | O => None
  | S fuel =>
      let scale := 10 ^ (e - k) in
      let s := n / scale in
      let lo := s * scale in
      let hi := lo + scale in
      if reads_as n hi
         && (negb (reads_as n lo) || (hi - n <? n - lo)
             || ((hi - n =? n - lo) && Z.odd s))
      then Some hi
      else if reads_as n lo then Some lo
      else shortest_decimal fuel (k + 1) n e
  end.

Fixpoint strip_zeros (digits : string) : string :=
  match digits with
  | EmptyString => EmptyString
  | String c r =>
      let r' := strip_zeros r in
      if String.eqb r' "" && Ascii.eqb c "0" then EmptyString else String c r'
  end.

(** [d.ddde+x] for an integer [v] of more than 21 digits *)
Definition exponential (v : Z) : string :=
  let exponent := pretty (Z.of_nat (String.length (pretty v)) - 1) in
  match strip_zeros (pretty v) with
  | String d EmptyString => String d "e+" +:+ exponent
  | String d rest => String d "." +:+ rest +:+ "e+" +:+ exponent
  | EmptyString => pretty v
  end.

Definition number_to_string (n : Z) : string :=
  let m := Z.abs n in
  if m <? 2 ^ 53 then pretty n
  else
    let e := Z.of_nat (String.length (pretty m)) in
    let v := default m (shortest_decimal 17 1 m e) in
    let text := if (String.length (pretty v) <=? 21)%nat then pretty v
                else exponential v in
    if n <? 0 then "-" +:+ text else text.

(** [String(v)], the conversion a template literal [`${v}`] and a property
    key [o[v]] apply.  An object decoded from JSON that has an own [toString]
    property has no callable conversion method left: the engine raises. *)
Fixpoint to_string (v : Value) : Exn + string :=
  match v with
  | VUndefined => inr "undefined"
  | VNull => inr "null"
  | VBool true => inr "true"
  | VBool false => inr "false"
  | VNum n => inr (number_to_string n)
  | VFraction d => inr d
  | VStr s => inr s
  | VArr l =>
      (fix join (l : list Value) : Exn + string :=
         match l with
         | [] => inr ""
         | x :: r =>
             let head :=
               match x with
               | VUndefined | VNull => inr ""
               | _ => to_string x
               end in
             match head, r with
             | inl e, _ => inl e
             | inr s, [] => inr s
             | inr s, _ =>
                 match join r with
                 | inl e => inl e
                 | inr t => inr (s +:+ "," +:+ t)
                 end
             end
         end) l
  | VObj ps => if own_has "toString" ps then inl cannot_convert
               else inr "[object Object]"
  | VBuiltin b => inr (builtin_to_string b)
  end.

(** Truthiness, as [||], [?:] and [if] test it. *)
Definition truthy (v : Value) : bool :=
  match v with
  | VUndefined | VNull => false
  | VBool b => b
  | VNum n => negb (n =? 0)
  | VFraction _ => true
  | VStr s => negb (String.eqb s "")
  | VArr _ | VObj _ | VBuiltin _ => true
  end.

(** [a || b] *)
Definition or_else (a b : Value) : Value := if truthy a then a else b.

Definition builtin_eqb (a b : Builtin) : bool :=
  match a, b with
  | ObjectPrototype, ObjectPrototype
  | ArrayPrototype, ArrayPrototype
  | StringPrototype, StringPrototype
  | NumberPrototype, NumberPrototype
  | BooleanPrototype, BooleanPrototype
  | FunctionPrototype, FunctionPrototype => true
  | BuiltinFunction n, BuiltinFunction m => String.eqb n m
  | _, _ => false
  end.

(** [a === b] between a value read from the stores and a value decoded from
    the current frame.  Primitives compare by value; two objects or arrays
    are equal only when they are the same object, which a freshly decoded
    document never is. *)
Definition strict_equals (a b : Value) : bool :=
  match a, b with
  | VUndefined, VUndefined => true
  | VNull, VNull => true
  | VBool x, VBool y => Bool.eqb x y
  | VNum x, VNum y => x =? y
  | VFraction x, VFraction y => String.eqb x y
  | VStr x, VStr y => String.eqb x y
  | VBuiltin x, VBuiltin y => builtin_eqb x y
  | _, _ => false
  end.

(** Key equality of a [Map] (SameValueZero), with the same reading of object
    identity. *)
Definition same_value_zero (a b : Value) : bool := strict_equals a b.

(** *** Property reads *)

Definition prototype_of (v : Value) : Builtin :=
  match v with
  | VArr _ => ArrayPrototype
  | VStr _ => StringPrototype
  | VNum _ | VFraction _ => NumberPrototype
  | VBool _ => BooleanPrototype
  | VBuiltin (BuiltinFunction _) => FunctionPrototype
  | _ => ObjectPrototype
  end.

Definition constructor_name (p : Builtin) : string :=
  match p with
  | ArrayPrototype => "Array"
  | StringPrototype => "String"
  | NumberPrototype => "Number"
  | BooleanPrototype => "Boolean"
  | FunctionPrototype => "Function"
  | _ => "Object"
  end.

(** The properties every object inherits from [Object.prototype]. *)
Definition object_prototype_names : list string :=
  [ "constructor"; "hasOwnProperty"; "isPrototypeOf"; "propertyIsEnumerable";
    "toLocaleString"; "toString"; "valueOf"; "__defineGetter__";
    "__defineSetter__"; "__lookupGetter__"; "__lookupSetter__" ].

(** A read of [k] that found no own property, on an object whose prototype
    is the built-in [p].  The [__proto__] accessor answers the prototype; the
    other names answer the built-in function.  Members that [Array.prototype],
    [String.prototype] and the like add to this list are left out: the
    broker compares what it reads with decoded documents only, and no
    function equals one. *)
Definition inherited (p : Builtin) (k : string) : Value :=
  if String.eqb k "__proto__" then VBuiltin p
  else if String.eqb k "constructor" then VBuiltin (BuiltinFunction (constructor_name p))
  else if existsb (String.eqb k) object_prototype_names then VBuiltin (BuiltinFunction k)
  else VUndefined.

Definition chars (s : string) : list Value :=
  map (fun c => VStr (String c EmptyString)) (String.list_ascii_of_string s).

Definition elements_get (l : list Value) (k : string) (p : Builtin) : Value :=
  if String.eqb k "length" then VNum (Z.of_nat (length l))
  else match array_index k with
       | Some i => match l !! N.to_nat i with
                   | Some x => x
                   | None => inherited p k
                   end
       | None => inherited p k
       end.

Definition cannot_read (what k : string) : Exn :=
  TypeError ("Cannot read properties of " +:+ what +:+ " (reading '" +:+ k +:+ "')").

(** [v[k]] and [v.k]. *)
Definition get_member (v : Value) (k : string) : Exn + Value :=
  match v with
  | VUndefined => inl (cannot_read "undefined" k)
  | VNull => inl (cannot_read "null" k)
  | VObj ps => inr (match own_get k ps with
                    | Some x => x
                    | None => inherited ObjectPrototype k
                    end)
  | VArr l => inr (elements_get l k ArrayPrototype)
  | VStr s => inr (elements_get (chars s) k StringPrototype)
  | _ => inr (inherited (prototype_of v) k)
  end.

(** The own enumerable string-keyed properties, in enumeration order. *)
Definition own_enumerable (v : Value) : list (string * Value) :=
  match v with
  | VObj ps => ps
  | VArr l => imap (fun i x => (pretty i, x)) l
  | VStr s => imap (fun i x => (pretty i, x)) (chars s)
  | _ => []
  end.

(** [Object.entries(v)] *)
Definition Object_entries (v : Value) : Exn + list (string * Value) :=
  match v with
  | VUndefined | VNull => inl (TypeError "Cannot convert undefined or null to object")
  | _ => inr (own_enumerable v)
  end.

(** The object literal [{ key, ...value }]. *)
Definition key_spread (key value : Value) : Value :=
  VObj (fold_left (fun acc kv => own_set kv.1 kv.2 acc) (own_enumerable value)
                  [("key", key)]).

(** *** JSON text

    A JSON text is represented by the document it encodes.  [json_image v] is
    the document of [JSON.stringify(v)], [None] when that call answers
    [undefined]: properties holding [undefined] or a function are left out,
    such array elements become [null]. *)
Fixpoint json_image (v : Value) : option Value :=
  match v with
  | VUndefined => None
  | VBuiltin (BuiltinFunction _) | VBuiltin FunctionPrototype => None
  | VBuiltin ObjectPrototype => Some (VObj [])
  | VBuiltin ArrayPrototype => Some (VArr [])
  | VBuiltin StringPrototype => Some (VStr "")
  | VBuiltin NumberPrototype => Some (VNum 0)
  | VBuiltin BooleanPrototype => Some (VBool false)
  | VArr l =>
      Some (VArr ((fix elems (l : list Value) : list Value :=
                     match l with
                     | [] => []
                     | x :: r => default VNull (json_image x) :: elems r
                     end) l))
  | VObj ps =>
      Some (VObj ((fix props (ps : list (string * Value)) : list (string * Value) :=
                     match ps with
                     | [] => []
                     | (k, x) :: r =>
                         match json_image x with
                         | Some y => (k, y) :: props r
                         | None => props r
                         end
                     end) ps))
  | _ => Some v
  end.

(** A text handed to [JSON.parse]: the text of a document, or a text that
    is not JSON. *)
Inductive Text : Type :=
| Json (doc : Value)
| NotJson.

Definition JSON_parse (t : Text) : Exn + Value :=
  match t with
  | Json doc => inr doc
  | NotJson => inl (SyntaxError "Unexpected token in JSON at position 0")
  end.

(** Nesting depth of a document. *)
Fixpoint depth (v : Value) : nat :=
  match v with
  | VArr l =>
      S ((fix elems (l : list Value) : nat :=
            match l with
            | [] => O
            | x :: r => Nat.max (depth x) (elems r)
            end) l)
  | VObj ps =>
      S ((fix props (ps : list (string * Value)) : nat :=
            match ps with
            | [] => O
            | (_, x) :: r => Nat.max (depth x) (props r)
            end) ps)
  | _ => O
  end.

End Js.

(** ** Storage adapters *)

Module Adapters.
Import Js.

Definition bind_exn {A B : Type} (m : Exn + A) (k : A -> Exn + B) : Exn + B :=
  match m with
  | inl e => inl e
  | inr a => k a
  end.

Notation "'let!' x ':=' m 'in' k" := (bind_exn m (fun x => k))
  (at level 10, x pattern, k at level 200).

(** *** [Map] objects: entries in insertion order *)

Section JsMap.
Context {K V : Type} (eqb : K -> K -> bool).

Fixpoint map_get (k : K) (m : list (K * V)) : option V :=
  match m with
  | [] => None
  | (k', v) :: r => if eqb k k' then Some v else map_get k r
  end.

Definition map_has (k : K) (m : list (K * V)) : bool :=
  match map_get k m with Some _ => true | None => false end.

Fixpoint map_replace (k : K) (v : V) (m : list (K * V)) : list (K * V) :=
  match m with
  | [] => []
  | (k', v') :: r =>
      if eqb k k' then (k', v) :: r else (k', v') :: map_replace k v r
  end.

Definition map_set (k : K) (v : V) (m : list (K * V)) : list (K * V) :=
  if map_has k m then map_replace k v m else m ++ [(k, v)].

Fixpoint map_delete (k : K) (m : list (K * V)) : list (K * V) :=
  match m with
  | [] => []
  | (k', v') :: r => if eqb k k' then map_delete k r else (k', v') :: map_delete k r
  end.
End JsMap.

(** *** The predicate of [query]

    [Object.entries(query).every(([queryKey, queryValue]) =>
       value[queryKey] === queryValue)], the test the three adapters share. *)
Fixpoint every_field (value : Value) (fields : list (string * Value)) : Exn + bool :=
  match fields with
  | [] => inr true
  | (queryKey, queryValue) :: rest =>
      let! x := get_member value queryKey in
      if strict_equals x queryValue then every_field value rest else inr false
  end.

Definition matches (value query : Value) : Exn + bool :=
  let! fields := Object_entries query in
  every_field value fields.

(** *** Plain objects used as dictionaries

    [collectionData] of the browser adapter starts as the literal [{}].  It
    has own properties and a prototype: an assignment to [__proto__] reaches
    the accessor of [Object.prototype] and replaces the prototype instead of
    creating a property. *)
Record Dict : Type := mkDict { own : list (string * Value); proto : Value }.

Definition empty_object : Dict := mkDict [] (VBuiltin ObjectPrototype).

Definition is_object (v : Value) : bool :=
  match v with
  | VArr _ | VObj _ | VBuiltin _ => true
  | _ => false
  end.

(** [d[k]] *)
Definition dict_get (d : Dict) (k : string) : Value :=
  match own_get k (own d) with
  | Some v => v
  | None =>
      match proto d with
      | VBuiltin p => inherited p k
      | VObj ps =>
          if String.eqb k "__proto__" then
            match own_get k ps with Some v => v | None => proto d end
          else match get_member (proto d) k with inr v => v | inl _ => VUndefined end
      | VArr _ =>
          if String.eqb k "__proto__" then proto d
          else match get_member (proto d) k with inr v => v | inl _ => VUndefined end
      | _ => VUndefined
      end
  end.

(** Whether a write to [__proto__] finds the accessor of [Object.prototype]
    on the chain before any data property of that name. *)
Definition proto_accessor_reachable (d : Dict) : bool :=
  match proto d with
  | VBuiltin _ | VArr _ => true
  | VObj ps => negb (own_has "__proto__" ps)
  | _ => false
  end.

(** [d[k] = v] *)
Definition dict_set (d : Dict) (k : string) (v : Value) : Dict :=
  if own_has k (own d) then mkDict (own_set k v (own d)) (proto d)
  else if String.eqb k "__proto__" && proto_accessor_reachable d then
    if is_object v || strict_equals v VNull then mkDict (own d) v else d
  else mkDict (own_set k v (own d)) (proto d).

(** [delete d[k]] *)
Definition dict_delete (d : Dict) (k : string) : Dict :=
  mkDict (own_delete k (own d)) (proto d).

(** *** BrowserStorageAdapter *)

Module BrowserStorageAdapter.

Record state : Type := mk {
  localStorage : list (Value * Dict);
  indexedDB : list (Value * Dict)
}.

Definition new : state := mk [] [].

(** [options.useIndexedDB ? this.indexedDB : this.localStorage] *)
Definition use_indexedDB (options : Value) : Exn + bool :=
  let! flag := get_member options "useIndexedDB" in
  inr (truthy flag).

Definition storage (idb : bool) (a : state) : list (Value * Dict) :=
  if idb then indexedDB a else localStorage a.

Definition with_storage (idb : bool) (m : list (Value * Dict)) (a : state) : state :=
  if idb then mk (localStorage a) m else mk m (indexedDB a).

(** [storage.get(collection) || {}] *)
Definition collection_data (collection : Value) (m : list (Value * Dict)) : Dict :=
  match map_get same_value_zero collection m with
  | Some d => d
  | None => empty_object
  end.

Definition get (collection key options : Value) (a : state) : Exn + Value :=
  let! idb := use_indexedDB options in
  let collectionData := collection_data collection (storage idb a) in
  let! k := to_string key in
  inr (or_else (dict_get collectionData k) VNull).

Definition set (collection key value options : Value) (now : Z) (a : state)
  : (Exn + Value) * state :=
  match use_indexedDB options with
  | inl e => (inl e, a)
  | inr idb =>
      let m := storage idb a in
      let m1 := if map_has same_value_zero collection m then m
                else m ++ [(collection, empty_object)] in
      let collectionData :=
        match map_get same_value_zero collection m with
        | Some d => d
        | None => empty_object
        end in
      match to_string key with
      | inl e => (inl e, with_storage idb m1 a)
      | inr k =>
          let d := dict_set collectionData k value in
          let m2 := if map_has same_value_zero collection m
                    then map_replace same_value_zero collection d m
                    else m ++ [(collection, d)] in
          (inr (VObj [("success", VBool true); ("key", key); ("timestamp", VNum now)]),
           with_storage idb m2 a)
      end
  end.

Definition delete (collection key options : Value) (a : state)
  : (Exn + Value) * state :=
  match use_indexedDB options with
  | inl e => (inl e, a)
  | inr idb =>
      let m := storage idb a in
      match to_string key with
      | inl e => (inl e, a)
      | inr k =>
          let m' :=
            match map_get same_value_zero collection m with
            | Some d => map_replace same_value_zero collection (dict_delete d k) m
            | None => m
            end in
          (inr (VObj [("success", VBool true); ("deleted", key)]),
           with_storage idb m' a)
      end
  end.

(** [Object.entries(collectionData).filter(...)] *)
Fixpoint filter_entries (query : Value) (entries : list (string * Value))
  : Exn + list (string * Value) :=
  match entries with
  | [] => inr []
  | (key, value) :: rest =>
      let! keep := matches value query in
      let! kept := filter_entries query rest in
      inr (if keep then (key, value) :: kept else kept)
  end.

Definition record_of (entry : string * Value) : Value :=
  key_spread (VStr entry.1) entry.2.

Definition query (collection query options : Value) (a : state) : Exn + Value :=
  let! idb := use_indexedDB options in
  let collectionData := collection_data collection (storage idb a) in
  let! results := filter_entries query (own collectionData) in
  inr (VArr (map record_of results)).

End BrowserStorageAdapter.

(** *** Strings *)

(** [s.startsWith(prefix)] *)
Definition starts_with (prefix s : string) : bool := String.prefix prefix s.

(** [s.replace(pattern, '')]: the first occurrence is removed. *)
Fixpoint remove_first (pattern s : string) : string :=
  if String.prefix pattern s
  then String.substring (String.length pattern)
                        (String.length s - String.length pattern) s
  else match s with
       | EmptyString => EmptyString
       | String c r => String c (remove_first pattern r)
       end.

Definition dquote : string := String (Ascii.ascii_of_nat 34) EmptyString.

(** *** ReactNativeStorageAdapter

    The simulated AsyncStorage maps a string key to what [JSON.stringify]
    answered: a JSON text, or [undefined] ([None]). *)
Module ReactNativeStorageAdapter.

Record state : Type := mk { storage : list (string * option Value) }.

Definition new : state := mk [].

(** [`${collection}:${key}`] *)
Definition full_key (collection key : Value) : Exn + string :=
  let! c := to_string collection in
  let! k := to_string key in
  inr (c +:+ ":" +:+ k).

(** [JSON.parse(value)] on a stored item *)
Definition parse (value : option Value) : Exn + Value :=
  match value with
  | Some doc => inr doc
  | None => inl (SyntaxError "Unexpected token u in JSON at position 0")
  end.

Definition get (collection key options : Value) (a : state) : Exn + Value :=
  let! fullKey := full_key collection key in
  match map_get String.eqb fullKey (storage a) with
  | Some (Some doc) => inr doc
  | _ => inr VNull
  end.

Definition set (collection key value options : Value) (now : Z) (a : state)
  : (Exn + Value) * state :=
  match full_key collection key with
  | inl e => (inl e, a)
  | inr fullKey =>
      (inr (VObj [("success", VBool true); ("key", VStr fullKey);
                  ("timestamp", VNum now)]),
       mk (map_set String.eqb fullKey (json_image value) (storage a)))
  end.

Definition delete (collection key options : Value) (a : state)
  : (Exn + Value) * state :=
  match full_key collection key with
  | inl e => (inl e, a)
  | inr fullKey =>
      (inr (VObj [("success", VBool true); ("deleted", VStr fullKey)]),
       mk (map_delete String.eqb fullKey (storage a)))
  end.

(** The body of [this.storage.forEach((value, key) => ...)] *)
Fixpoint for_each (prefix : string) (query : Value)
    (items : list (string * option Value)) (results : list Value)
  : Exn + list Value :=
  match items with
  | [] => inr results
  | (key, value) :: rest =>
      if starts_with prefix key then
        let! parsedValue := parse value in
        let! keep := matches parsedValue query in
        for_each prefix query rest
          (if keep
           then results ++ [key_spread (VStr (remove_first prefix key)) parsedValue]
           else results)
      else for_each prefix query rest results
  end.

Definition query (collection query options : Value) (a : state) : Exn + Value :=
  let! c := to_string collection in
  let prefix := c +:+ ":" in
  let! results := for_each prefix query (storage a) [] in
  inr (VArr results).

End ReactNativeStorageAdapter.

(** *** Paths

    [path.join] of Node.js on a POSIX system: the arguments are joined with
    a separator and the result is normalised, segment by segment. *)

(** The segments of a path: what lies between the separators. *)
Fixpoint split_path (path : string) : list string :=
  match path with
  | EmptyString => [EmptyString]
  | String c r =>
      if Ascii.eqb c "/" then EmptyString :: split_path r
      else match split_path r with
           | segment :: segments => String c segment :: segments
           | [] => [String c EmptyString]
           end
  end.

(** [normalizeString]: empty segments and [.] go, [..] takes the segment
    before it away; [kept] holds the segments that stay, the last one
    first. *)
Fixpoint normalize_segments (allowAboveRoot : bool) (kept segments : list string)
  : list string :=
  match segments with
  | [] => rev kept
  | segment :: rest =>
      if String.eqb segment "" || String.eqb segment "."
      then normalize_segments allowAboveRoot kept rest
      else if String.eqb segment ".." then
        match kept with
        | last :: before =>
            if String.eqb last ".."
            then normalize_segments allowAboveRoot
                   (if allowAboveRoot then ".." :: kept else kept) rest
            else normalize_segments allowAboveRoot before rest
        | [] =>
            normalize_segments allowAboveRoot
              (if allowAboveRoot then [".."] else []) rest
        end
      else normalize_segments allowAboveRoot (segment :: kept) rest
  end.

(** [path.normalize(path)] *)
Definition normalize (path : string) : string :=
  if String.eqb path "" then "."
  else
    let isAbsolute := String.prefix "/" path in
    let trailingSeparator :=
      match last (split_path path) with
      | Some segment => String.eqb segment ""
      | None => false
      end in
    let normalized :=
      String.concat "/" (normalize_segments (negb isAbsolute) [] (split_path path)) in
    if String.eqb normalized ""
    then (if isAbsolute then "/" else if trailingSeparator then "./" else ".")
    else
      let normalized :=
        if trailingSeparator then normalized +:+ "/" else normalized in
      if isAbsolute then "/" +:+ normalized else normalized.

(** [path.join(a, b)] *)
Definition path_join (a b : string) : string :=
  if String.eqb a "" then (if String.eqb b "" then "." else normalize b)
  else if String.eqb b "" then normalize a
  else normalize (a +:+ "/" +:+ b).

Fixpoint strip_segments (dir path : list string) : option (list string) :=
  match dir, path with
  | [], _ => Some path
  | d :: dir, s :: path => if String.eqb d s then strip_segments dir path else None
  | _ :: _, [] => None
  end.

(** The name [readdirSync(dir)] lists the file at [path] under, when the
    file lies in [dir] itself. *)
Definition entry_name (dir path : string) : option string :=
  match strip_segments (split_path dir) (split_path path) with
  | Some [name] => if String.eqb name "" then None else Some name
  | _ => None
  end.

Fixpoint insert_by (before : string -> string -> bool) (x : string)
    (l : list string) : list string :=
  match l with
  | [] => [x]
  | y :: r => if before x y then x :: l else y :: insert_by before x r
  end.

(** The names in the order [before] gives them. *)
Definition sort_by (before : string -> string -> bool) (l : list string)
  : list string :=
  foldr (insert_by before) [] l.

(** *** NodeJSStorageAdapter

    The adapter keeps one file per entry in its data directory.  The file
    system is what the adapter finds: [files] are its regular files with
    their contents, each under its normalised path, the one path that leads
    to it (there are no links); [refuses] tells which
    calls of [fs] the file system answers with an error, and with which
    message (a name that is too long, a directory that is missing, a file
    that may not be written); [lists_before] is the order in which
    [readdirSync] lists the names of a directory.  Paths are those of a POSIX
    system that tells upper case from lower case.  [readdirSync] lists
    directories too: the adapter passes over them, as it passes over every
    file it cannot read, and they are left out here.  The adapter's console
    output is left out. *)
Module NodeJSStorageAdapter.

(** The calls of [fs] the adapter makes. *)
Inductive Call : Type := Exists | Read | Write | Unlink | Readdir.

Record state : Type := mk {
  dataDir : string;
  files : list (string * Text);
  refuses : Call -> string -> option string;
  lists_before : string -> string -> bool
}.

(** The adapter on an empty data directory [dir], which is
    [path.join(__dirname, 'data')], of a file system that refuses nothing. *)
Definition new (dir : string) : state :=
  mk dir [] (fun _ _ => None) (fun _ _ => false).

Definition with_files (l : list (string * Text)) (a : state) : state :=
  mk (dataDir a) l (refuses a) (lists_before a).

(** [`${collection}_${key}.json`] *)
Definition file_name (collection key : Value) : Exn + string :=
  let! c := to_string collection in
  let! k := to_string key in
  inr (c +:+ "_" +:+ k +:+ ".json").

Definition getFilePath (a : state) (collection key : Value) : Exn + string :=
  let! name := file_name collection key in
  inr (path_join (dataDir a) name).

(** [fs.existsSync(path)]: [false] too when the file system refuses the
    path. *)
Definition existsSync (path : string) (a : state) : bool :=
  match refuses a Exists path with
  | Some _ => false
  | None => map_has String.eqb path (files a)
  end.

Definition no_such_file (path : string) : string :=
  "ENOENT: no such file or directory, open '" +:+ path +:+ "'".

(** [fs.readFileSync(path, 'utf8')] *)
Definition readFileSync (path : string) (a : state) : Exn + Text :=
  match refuses a Read path with
  | Some message => inl (Error message)
  | None =>
      match map_get String.eqb path (files a) with
      | Some text => inr text
      | None => inl (Error (no_such_file path))
      end
  end.

Definition invalid_data : string :=
  "The " +:+ dquote +:+ "data" +:+ dquote +:+
  " argument must be of type string or an instance of Buffer, TypedArray, or DataView. Received undefined".

(** [fs.writeFileSync(path, JSON.stringify(value, null, 2))]; [data] is the
    document of the text, [None] when [JSON.stringify] answered
    [undefined]. *)
Definition writeFileSync (path : string) (data : option Value) (a : state)
  : Exn + state :=
  match data with
  | None => inl (TypeError invalid_data)
  | Some doc =>
      match refuses a Write path with
      | Some message => inl (Error message)
      | None => inr (with_files (map_set String.eqb path (Json doc) (files a)) a)
      end
  end.

(** [fs.unlinkSync(path)] *)
Definition unlinkSync (path : string) (a : state) : Exn + state :=
  match refuses a Unlink path with
  | Some message => inl (Error message)
  | None =>
      if map_has String.eqb path (files a)
      then inr (with_files (map_delete String.eqb path (files a)) a)
      else inl (Error (no_such_file path))
  end.

(** [fs.readdirSync(this.dataDir)] *)
Definition readdirSync (a : state) : Exn + list string :=
  match refuses a Readdir (dataDir a) with
  | Some message => inl (Error message)
  | None =>
      inr (sort_by (lists_before a)
             (omap (fun f => entry_name (dataDir a) f.1) (files a)))
  end.

Definition get (collection key options : Value) (a : state) : Exn + Value :=
  match getFilePath a collection key with
  | inl _ => inr VNull
  | inr filePath =>
      if existsSync filePath a then
        match readFileSync filePath a with
        | inr (Json doc) => inr doc
        | inr NotJson => inr VNull
        | inl _ => inr VNull
        end
      else inr VNull
  end.

Definition set (collection key value options : Value) (now : Z) (a : state)
  : (Exn + Value) * state :=
  match getFilePath a collection key with
  | inl e => (inl (Error ("Failed to save data: " +:+ message_of e)), a)
  | inr filePath =>
      match writeFileSync filePath (json_image value) a with
      | inl e => (inl (Error ("Failed to save data: " +:+ message_of e)), a)
      | inr a' =>
          (inr (VObj [("success", VBool true); ("key", key);
                      ("filePath", VStr filePath);
                      ("timestamp", VNum now)]),
           a')
      end
  end.

Definition delete (collection key options : Value) (a : state)
  : (Exn + Value) * state :=
  match getFilePath a collection key with
  | inl e => (inl (Error ("Failed to delete data: " +:+ message_of e)), a)
  | inr filePath =>
      let deleted := VObj [("success", VBool true); ("deleted", key)] in
      if existsSync filePath a then
        match unlinkSync filePath a with
        | inl e => (inl (Error ("Failed to delete data: " +:+ message_of e)), a)
        | inr a' => (inr deleted, a')
        end
      else (inr deleted, a)
  end.

(** [files.filter(f => f.startsWith(`${collection}_`))] *)
Fixpoint collection_files (collection : Value) (listing : list string)
  : Exn + list string :=
  match listing with
  | [] => inr []
  | f :: rest =>
      let! p := to_string collection in
      let! kept := collection_files collection rest in
      inr (if starts_with (p +:+ "_") f then f :: kept else kept)
  end.

(** One turn of [for (const file of collectionFiles)]: what the [try]
    block pushes, nothing when it throws. *)
Definition visit (a : state) (prefix : string) (query : Value) (file : string)
  : list Value :=
  match readFileSync (path_join (dataDir a) file) a with
  | inr (Json data) =>
      match matches data query with
      | inr true =>
          [key_spread (VStr (remove_first ".json" (remove_first prefix file))) data]
      | _ => []
      end
  | _ => []
  end.

Definition query (collection query options : Value) (a : state) : Exn + Value :=
  let! listing := readdirSync a in
  let! collectionFiles := collection_files collection listing in
  match collectionFiles with
  | [] => inr (VArr [])
  | _ =>
      match to_string collection with
      | inl _ => inr (VArr [])
      | inr c => inr (VArr (concat (map (visit a (c +:+ "_") query) collectionFiles)))
      end
  end.

End NodeJSStorageAdapter.

(** *** The adapter interface

    [StorageAdapter] of the source: four methods.  [get] and [query] leave
    the store as it is. *)
Class StorageAdapter (S : Type) : Type := {
  adapter_get : Value -> Value -> Value -> S -> (Exn + Value) * S;
  adapter_set : Value -> Value -> Value -> Value -> Z -> S -> (Exn + Value) * S;
  adapter_delete : Value -> Value -> Value -> S -> (Exn + Value) * S;
  adapter_query : Value -> Value -> Value -> S -> (Exn + Value) * S
}.

#[export] Instance browser_adapter : StorageAdapter BrowserStorageAdapter.state := {
  adapter_get c k o a := (BrowserStorageAdapter.get c k o a, a);
  adapter_set := BrowserStorageAdapter.set;
  adapter_delete := BrowserStorageAdapter.delete;
  adapter_query c q o a := (BrowserStorageAdapter.query c q o a, a)
}.

#[export] Instance react_native_adapter : StorageAdapter ReactNativeStorageAdapter.state := {
  adapter_get c k o a := (ReactNativeStorageAdapter.get c k o a, a);
  adapter_set := ReactNativeStorageAdapter.set;
  adapter_delete := ReactNativeStorageAdapter.delete;
  adapter_query c q o a := (ReactNativeStorageAdapter.query c q o a, a)
}.

#[export] Instance nodejs_adapter : StorageAdapter NodeJSStorageAdapter.state := {
  adapter_get c k o a := (NodeJSStorageAdapter.get c k o a, a);
  adapter_set := NodeJSStorageAdapter.set;
  adapter_delete := NodeJSStorageAdapter.delete;
  adapter_query c q o a := (NodeJSStorageAdapter.query c q o a, a)
}.

End Adapters.

(** ** The broker: WebSocketDataServer *)

Module Server.
Import Js Adapters.

Inductive ReadyState : Type := CONNECTING | OPEN | CLOSING | CLOSED.

Definition ReadyState_eqb (a b : ReadyState) : bool :=
  match a, b with
  | CONNECTING, CONNECTING | OPEN, OPEN | CLOSING, CLOSING | CLOSED, CLOSED => true
  | _, _ => false
  end.

(** The fields the server keeps on a [ws] object, and the one of the
    library it reads. *)
Record Socket : Type := mkSocket {
  platform : string;
  clientId : string;
  subscriptions : gset string;
  isAlive : bool;
  readyState : ReadyState
}.

Inductive LogEntry : Type :=
| console_log (text : string)
| console_error (text : string) (e : Exn).

Inductive AdapterRef : Type := ABrowser | AReactNative | ANodeJS.

(** The server with the objects it shares: sockets are referred to by
    address, [activeConnections] is the [Set] in insertion order, [sent]
    lists the frames handed to [ws.send], oldest first, each as the document
    its text encodes. *)
Record World : Type := mkWorld {
  browser : BrowserStorageAdapter.state;
  reactNative : ReactNativeStorageAdapter.state;
  nodejs : NodeJSStorageAdapter.state;
  activeConnections : list nat;
  sockets : gmap nat Socket;
  sent : list (nat * Value);
  console : list LogEntry;
  clock : Z
}.

Definition with_browser (a : BrowserStorageAdapter.state) (w : World) : World :=
  mkWorld a (reactNative w) (nodejs w) (activeConnections w) (sockets w)
          (sent w) (console w) (clock w).
Definition with_reactNative (a : ReactNativeStorageAdapter.state) (w : World) : World :=
  mkWorld (browser w) a (nodejs w) (activeConnections w) (sockets w)
          (sent w) (console w) (clock w).
Definition with_nodejs (a : NodeJSStorageAdapter.state) (w : World) : World :=
  mkWorld (browser w) (reactNative w) a (activeConnections w) (sockets w)
          (sent w) (console w) (clock w).
Definition with_activeConnections (l : list nat) (w : World) : World :=
  mkWorld (browser w) (reactNative w) (nodejs w) l (sockets w)
          (sent w) (console w) (clock w).
Definition with_sockets (m : gmap nat Socket) (w : World) : World :=
  mkWorld (browser w) (reactNative w) (nodejs w) (activeConnections w) m
          (sent w) (console w) (clock w).
Definition with_sent (l : list (nat * Value)) (w : World) : World :=
  mkWorld (browser w) (reactNative w) (nodejs w) (activeConnections w) (sockets w)
          l (console w) (clock w).
Definition with_console (l : list LogEntry) (w : World) : World :=
  mkWorld (browser w) (reactNative w) (nodejs w) (activeConnections w) (sockets w)
          (sent w) l (clock w).

(** *** Computations

    A method of the server runs on the world and returns, throws, or (for
    the recursion of [BATCH] only) exhausts the unfolding budget.  What it
    changed before throwing stays changed.  An [async] method that throws is
    a rejected promise; [await] rethrows it. *)
Inductive Outcome (A : Type) : Type :=
| Returned (a : A)
| Thrown (e : Exn)
| OutOfFuel.
Arguments Returned {A} a.
Arguments Thrown {A} e.
Arguments OutOfFuel {A}.

Definition M (A : Type) : Type := World -> Outcome A * World.

Definition ret {A : Type} (a : A) : M A := fun w => (Returned a, w).
Definition throw {A : Type} (e : Exn) : M A := fun w => (Thrown e, w).
Definition bind {A B : Type} (m : M A) (k : A -> M B) : M B :=
  fun w => match m w with
           | (Returned a, w') => k a w'
           | (Thrown e, w') => (Thrown e, w')
           | (OutOfFuel, w') => (OutOfFuel, w')
           end.
Definition lift {A : Type} (r : Exn + A) : M A :=
  match r with
  | inl e => throw e
  | inr a => ret a
  end.

(** [try { body } catch (error) { handler }] *)
Definition try_catch {A : Type} (body : M A) (handler : Exn -> M A) : M A :=
  fun w => match body w with
           | (Thrown e, w') => handler e w'
           | r => r
           end.

Notation "'do' x <- m ; k" := (bind m (fun x => k))
  (at level 10, x pattern, m at level 100, k at level 200).
Notation "'run' m ; k" := (bind m (fun _ => k))
  (at level 10, m at level 100, k at level 200).

Definition gets {A : Type} (f : World -> A) : M A := fun w => (Returned (f w), w).
Definition modify (f : World -> World) : M unit := fun w => (Returned tt, f w).

(** [Date.now()]: the clock of the world, which the handling of one frame
    does not advance. *)
Definition Date_now : M Z := gets clock.

Definition log (entry : LogEntry) : M unit :=
  modify (fun w => with_console (console w ++ [entry]) w).

(** A read of a field of the object [ws] refers to.  The references the
    server holds always refer to a socket; the other branch is there for the
    addresses that refer to nothing. *)
Definition socket (ws : nat) : M Socket :=
  fun w => match sockets w !! ws with
           | Some s => (Returned s, w)
           | None => (Thrown (TypeError "no such socket"), w)
           end.

Definition update_socket (ws : nat) (f : Socket -> Socket) : M unit :=
  modify (fun w => with_sockets (alter f ws (sockets w)) w).

(** *** Platforms *)

Fixpoint includes (needle hay : string) : bool :=
  String.prefix needle hay ||
  match hay with
  | EmptyString => false
  | String _ r => includes needle r
  end.

Fixpoint header (name : string) (headers : list (string * string)) : option string :=
  match headers with
  | [] => None
  | (n, v) :: r => if String.eqb name n then Some v else header name r
  end.

Definition detectPlatform (userAgent : string) (headers : list (string * string))
  : string :=
  let hint := default "" (header "x-platform" headers) in
  if negb (String.eqb hint "") then hint
  else if includes "React Native" userAgent then "react-native"
  else if includes "Mozilla" userAgent || includes "Chrome" userAgent then "browser"
  else "nodejs".

Definition strings (l : list string) : Value := VArr (map VStr l).

(** The object literal of [getPlatformCapabilities]. *)
Definition capabilities : Value :=
  VObj [ ("browser", strings ["localStorage"; "indexedDB"; "sessionStorage"]);
         ("react-native", strings ["asyncStorage"; "sqlite"; "secureStorage"]);
         ("nodejs", strings ["filesystem"; "sqlite"; "memory"]) ].

(** [capabilities[platform] || ['memory']] *)
Definition getPlatformCapabilities (platform : string) : Value :=
  match get_member capabilities platform with
  | inr v => or_else v (strings ["memory"])
  | inl _ => strings ["memory"]
  end.

(** [this.storageAdapters.get(platform)] after [initializeStorageAdapters] *)
Definition storageAdapters_get (platform : string) : option AdapterRef :=
  if String.eqb platform "browser" then Some ABrowser
  else if String.eqb platform "react-native" then Some AReactNative
  else if String.eqb platform "nodejs" then Some ANodeJS
  else None.

(** *** Sending *)

Definition sendMessage (ws : nat) (message : Value) : M unit :=
  do s <- socket ws;
  if ReadyState_eqb (readyState s) OPEN then
    match json_image message with
    | Some doc => modify (fun w => with_sent (sent w ++ [(ws, doc)]) w)
    | None => ret tt
    end
  else ret tt.

(** *** Reading a request *)

(** [v.k] once [v] is known not to be [null] or [undefined] *)
Definition prop (v : Value) (k : string) : Value :=
  match get_member v k with
  | inr x => x
  | inl _ => VUndefined
  end.

(** The check a destructuring pattern [const { first, ... } = v] makes
    before it reads the fields. *)
Definition destructure (name : string) (v : Value) (first : string) : M unit :=
  match v with
  | VUndefined =>
      throw (TypeError ("Cannot destructure property '" +:+ first +:+ "' of '"
                        +:+ name +:+ "' as it is undefined."))
  | VNull =>
      throw (TypeError ("Cannot destructure property '" +:+ first +:+ "' of '"
                        +:+ name +:+ "' as it is null."))
  | _ => ret tt
  end.

(** [options = {}] in a pattern *)
Definition or_default (v d : Value) : Value :=
  match v with
  | VUndefined => d
  | _ => v
  end.

(** [`${collection}:${pattern}`] *)
Definition subscriptionKey_of (collection pattern : Value) : Exn + string :=
  let! c := to_string collection in
  let! p := to_string pattern in
  inr (c +:+ ":" +:+ p).

(** *** Storage calls *)

Definition outcome_of {A : Type} (r : Exn + A) : Outcome A :=
  match r with
  | inl e => Thrown e
  | inr a => Returned a
  end.

(** [await storageAdapter.method(...)]; the adapter of an unknown platform
    is [undefined]. *)
Definition call_adapter (storageAdapter : option AdapterRef) (method : string)
    (f : forall S : Type, StorageAdapter S -> S -> (Exn + Value) * S) : M Value :=
  fun w =>
    match storageAdapter with
    | None => (Thrown (cannot_read "undefined" method), w)
    | Some ABrowser =>
        let r := f _ browser_adapter (browser w) in
        (outcome_of r.1, with_browser r.2 w)
    | Some AReactNative =>
        let r := f _ react_native_adapter (reactNative w) in
        (outcome_of r.1, with_reactNative r.2 w)
    | Some ANodeJS =>
        let r := f _ nodejs_adapter (nodejs w) in
        (outcome_of r.1, with_nodejs r.2 w)
    end.

(** *** Fan-out *)

Fixpoint forEach {A : Type} (l : list A) (f : A -> M unit) : M unit :=
  match l with
  | [] => ret tt
  | x :: r => run f x; forEach r f
  end.

Definition has (key : string) (set : gset string) : bool := bool_decide (key ∈ set).

Definition subscription_update (collection key : Value) (operation : string)
    (value : Value) (now : Z) : Value :=
  VObj [ ("type", VStr "SUBSCRIPTION_UPDATE");
         ("collection", collection);
         ("key", key);
         ("operation", VStr operation);
         ("value", value);
         ("timestamp", VNum now) ].

(** The callback of [this.activeConnections.forEach] in [notifySubscribers]. *)
Definition notify_one (subscriptionKey wildcardKey : string)
    (collection key : Value) (operation : string) (value : Value)
    (originClientId : string) (ws : nat) : M unit :=
  do s <- socket ws;
  if String.eqb (clientId s) originClientId then ret tt
  else if has subscriptionKey (subscriptions s) || has wildcardKey (subscriptions s)
  then do now <- Date_now;
       sendMessage ws (subscription_update collection key operation value now)
  else ret tt.

Definition notifySubscribers (collection key : Value) (operation : string)
    (value : Value) (originClientId : string) : M unit :=
  do subscriptionKey <- lift (subscriptionKey_of collection key);
  do wildcardKey <- lift (subscriptionKey_of collection (VStr "*"));
  do connections <- gets activeConnections;
  forEach connections
    (notify_one subscriptionKey wildcardKey collection key operation value
                originClientId).

(** *** Handlers *)

Inductive Opcode : Type :=
| GET | SET | DELETE | QUERY | BATCH | PING | SUBSCRIBE | UNSUBSCRIBE.

(** [this.messageHandlers] after [setupMessageHandlers] *)
Definition messageHandlers : list (string * Opcode) :=
  [ ("GET", GET); ("SET", SET); ("DELETE", DELETE); ("QUERY", QUERY);
    ("BATCH", BATCH); ("PING", PING); ("SUBSCRIBE", SUBSCRIBE);
    ("UNSUBSCRIBE", UNSUBSCRIBE) ].

(** [this.messageHandlers.get(type)]: only a string is a key of the map. *)
Definition messageHandlers_get (type : Value) : option Opcode :=
  match type with
  | VStr t => map_get String.eqb t messageHandlers
  | _ => None
  end.

Definition handleGet (payload : Value) (storageAdapter : option AdapterRef)
    (ws : nat) : M Value :=
  run destructure "payload" payload "collection";
  let collection := prop payload "collection" in
  let key := prop payload "key" in
  let options := or_default (prop payload "options") (VObj []) in
  call_adapter storageAdapter "get"
    (fun S _ => adapter_get collection key options).

Definition handleSet (payload : Value) (storageAdapter : option AdapterRef)
    (ws : nat) : M Value :=
  run destructure "payload" payload "collection";
  let collection := prop payload "collection" in
  let key := prop payload "key" in
  let value := prop payload "value" in
  let options := or_default (prop payload "options") (VObj []) in
  do now <- Date_now;
  do result <- call_adapter storageAdapter "set"
                 (fun S _ => adapter_set collection key value options now);
  do s <- socket ws;
  run notifySubscribers collection key "SET" value (clientId s);
  ret result.

Definition handleDelete (payload : Value) (storageAdapter : option AdapterRef)
    (ws : nat) : M Value :=
  run destructure "payload" payload "collection";
  let collection := prop payload "collection" in
  let key := prop payload "key" in
  let options := or_default (prop payload "options") (VObj []) in
  do result <- call_adapter storageAdapter "delete"
                 (fun S _ => adapter_delete collection key options);
  do s <- socket ws;
  run notifySubscribers collection key "DELETE" VNull (clientId s);
  ret result.

Definition handleQuery (payload : Value) (storageAdapter : option AdapterRef)
    (ws : nat) : M Value :=
  run destructure "payload" payload "collection";
  let collection := prop payload "collection" in
  let query := prop payload "query" in
  let options := or_default (prop payload "options") (VObj []) in
  call_adapter storageAdapter "query"
    (fun S _ => adapter_query collection query options).

Definition handlePing (payload : Value) (storageAdapter : option AdapterRef)
    (ws : nat) : M Value :=
  do now <- Date_now;
  ret (VObj [("pong", VBool true); ("timestamp", VNum now)]).

Definition handleSubscribe (payload : Value) (storageAdapter : option AdapterRef)
    (ws : nat) : M Value :=
  run destructure "payload" payload "collection";
  do subscriptionKey <-
    lift (subscriptionKey_of (prop payload "collection") (prop payload "pattern"));
  run update_socket ws (fun s =>
        mkSocket (platform s) (clientId s) ({[subscriptionKey]} ∪ subscriptions s)
                 (isAlive s) (readyState s));
  do s <- socket ws;
  run log (console_log ("Client " +:+ clientId s +:+ " subscribed to: "
                        +:+ subscriptionKey));
  ret (VObj [("subscribed", VStr subscriptionKey)]).

Definition handleUnsubscribe (payload : Value) (storageAdapter : option AdapterRef)
    (ws : nat) : M Value :=
  run destructure "payload" payload "collection";
  do subscriptionKey <-
    lift (subscriptionKey_of (prop payload "collection") (prop payload "pattern"));
  run update_socket ws (fun s =>
        mkSocket (platform s) (clientId s) (subscriptions s ∖ {[subscriptionKey]})
                 (isAlive s) (readyState s));
  do s <- socket ws;
  run log (console_log ("Client " +:+ clientId s +:+ " unsubscribed from: "
                        +:+ subscriptionKey));
  ret (VObj [("unsubscribed", VStr subscriptionKey)]).

(** What [for (const operation of operations)] iterates over. *)
Definition iterate (operations : Value) : Exn + list Value :=
  match operations with
  | VArr l => inr l
  | VStr s => inr (chars s)
  | _ => inl (TypeError "operations is not iterable")
  end.

Fixpoint for_of (operations : list Value) (body : Value -> list Value -> M (list Value))
    (results : list Value) : M (list Value) :=
  match operations with
  | [] => ret results
  | operation :: rest =>
      do results' <- body operation results;
      for_of rest body results'
  end.

(** The body of the loop of [handleBatch], with [invoke] standing for the
    handler the map answers: an operation whose type has no handler is
    passed over, the result of any other is pushed. *)
Definition batch_operation
    (invoke : Opcode -> Value -> option AdapterRef -> nat -> M Value)
    (storageAdapter : option AdapterRef) (ws : nat)
    (operation : Value) (results : list Value) : M (list Value) :=
  do type <- lift (get_member operation "type");
  match messageHandlers_get type with
  | Some handler =>
      do result <- invoke handler (prop operation "payload") storageAdapter ws;
      ret (results ++ [VObj [ ("operation", prop operation "id");
                              ("result", result) ]])
  | None => ret results
  end.

Definition handleBatch
    (invoke : Opcode -> Value -> option AdapterRef -> nat -> M Value)
    (payload : Value) (storageAdapter : option AdapterRef) (ws : nat) : M Value :=
  run destructure "payload" payload "operations";
  do operations <- lift (iterate (prop payload "operations"));
  do results <- for_of operations (batch_operation invoke storageAdapter ws) [];
  ret (VArr results).

(** The handler bound to an opcode.  [BATCH] calls back into the table; the
    first argument bounds the nesting of batches that is unfolded. *)
Fixpoint handler (fuel : nat) (op : Opcode) (payload : Value)
    (storageAdapter : option AdapterRef) (ws : nat) : M Value :=
  match op with
  | GET => handleGet payload storageAdapter ws
  | SET => handleSet payload storageAdapter ws
  | DELETE => handleDelete payload storageAdapter ws
  | QUERY => handleQuery payload storageAdapter ws
  | PING => handlePing payload storageAdapter ws
  | SUBSCRIBE => handleSubscribe payload storageAdapter ws
  | UNSUBSCRIBE => handleUnsubscribe payload storageAdapter ws
  | BATCH =>
      match fuel with
      | O => fun w => (OutOfFuel, w)
      | S n => handleBatch (handler n) payload storageAdapter ws
      end
  end.

(** *** handleMessage *)

Definition response (type : string) (requestId result : Value) (now : Z) : Value :=
  VObj [ ("type", VStr (type +:+ "_RESPONSE"));
         ("requestId", requestId);
         ("success", VBool true);
         ("data", result);
         ("timestamp", VNum now) ].

Definition error_envelope (requestId : Value) (message : string) (now : Z) : Value :=
  VObj [ ("type", VStr "ERROR");
         ("requestId", requestId);
         ("success", VBool false);
         ("error", VStr message);
         ("timestamp", VNum now) ].

Definition frame_depth (data : Text) : nat :=
  match data with
  | Json doc => depth doc
  | NotJson => O
  end.

(** [handleMessage(ws, data)]: one handling, run to its end.  The result is
    the fate of the promise the [async] method returns: fulfilled, or
    rejected with what escaped.  The listener of [message] does not wait for
    that promise, so the handlings of frames that arrive together take turns
    at their [await]s; what is stated of [handleMessage] is stated of the
    frames one handling sends and of the changes it makes, not of the order
    in which the frames of several handlings leave the broker. *)
Definition handleMessage (ws : nat) (data : Text) : M unit :=
  try_catch
    (do message <- lift (JSON_parse data);
     run destructure "message" message "type";
     let type := prop message "type" in
     let requestId := prop message "requestId" in
     let payload := prop message "payload" in
     do t <- lift (to_string type);
     do s <- socket ws;
     run log (console_log ("Received " +:+ t +:+ " from " +:+ platform s
                           +:+ " client: " +:+ clientId s));
     match messageHandlers_get type with
     | None => throw (Error ("Unknown message type: " +:+ t))
     | Some h =>
         let storageAdapter := storageAdapters_get (platform s) in
         do result <- handler (frame_depth data) h payload storageAdapter ws;
         do now <- Date_now;
         sendMessage ws (response t requestId result now)
     end)
    (fun error =>
       run log (console_error "Error handling message:" error);
       do again <- lift (JSON_parse data);
       do requestId <- lift (get_member again "requestId");
       do now <- Date_now;
       sendMessage ws (error_envelope requestId (message_of error) now)).

(** *** Connections *)

Fixpoint set_add (x : nat) (l : list nat) : list nat :=
  match l with
  | [] => [x]
  | y :: r => if Nat.eqb x y then l else y :: set_add x r
  end.

Definition set_delete (x : nat) (l : list nat) : list nat :=
  filter (fun y => y ≠ x) l.

(** The body of [this.server.on('connection', ...)]: [ws] is the address of
    the new socket, [remoteAddress] and [headers] are those of the upgrade
    request, [id] is what [generateClientId] answered. *)
Definition connection (ws : nat) (remoteAddress : string)
    (headers : list (string * string)) (id : string) : M unit :=
  run log (console_log ("New client connected from " +:+ remoteAddress));
  let userAgent := default "" (header "user-agent" headers) in
  let platform := detectPlatform userAgent headers in
  run modify (fun w =>
        with_sockets (<[ws := mkSocket platform id ∅ true OPEN]> (sockets w)) w);
  run modify (fun w => with_activeConnections (set_add ws (activeConnections w)) w);
  sendMessage ws
    (VObj [ ("type", VStr "CONNECTION_ESTABLISHED");
            ("clientId", VStr id);
            ("platform", VStr platform);
            ("capabilities", getPlatformCapabilities platform) ]).

(** [ws.on('pong', ...)] *)
Definition pong (ws : nat) : M unit :=
  update_socket ws (fun s =>
    mkSocket (platform s) (clientId s) (subscriptions s) true (readyState s)).

(** One turn of the keep-alive interval, over [this.server.clients], which
    holds the sockets of [activeConnections]: [ws.terminate()] leaves the
    socket closing until its [close] event; the control frame of [ws.ping()]
    is not among the frames of [sent]. *)
Definition keep_alive (ws : nat) : M unit :=
  do s <- socket ws;
  if negb (isAlive s) then
    run log (console_log ("Terminating dead connection: " +:+ clientId s));
    update_socket ws (fun s =>
      mkSocket (platform s) (clientId s) (subscriptions s) (isAlive s) CLOSING)
  else
    update_socket ws (fun s =>
      mkSocket (platform s) (clientId s) (subscriptions s) false (readyState s)).

Definition keep_alive_sweep : M unit :=
  do clients <- gets activeConnections;
  forEach clients keep_alive.

(** The [close] event of a socket, and [handleDisconnect]. *)
Definition handleDisconnect (ws : nat) : M unit :=
  do s <- socket ws;
  run log (console_log ("Client disconnected: " +:+ clientId s));
  modify (fun w => with_activeConnections (set_delete ws (activeConnections w)) w).

Definition close (ws : nat) : M unit :=
  run update_socket ws (fun s =>
        mkSocket (platform s) (clientId s) (subscriptions s) (isAlive s) CLOSED);
  handleDisconnect ws.

Definition new (dir : string) (now : Z) : World :=
  mkWorld BrowserStorageAdapter.new ReactNativeStorageAdapter.new
          (NodeJSStorageAdapter.new dir) [] ∅ [] [] now.

End Server.

(** ** The client: WebSocketDataClient *)

Module Client.
Import Js.

(** How the promise of a request ended. *)
Inductive Settlement : Type :=
| Resolved (data : Value)
| Rejected (e : Exn).

(** What [setTimeout] armed, with the delay in milliseconds: the timeout of
    a request, or the next connection attempt. *)
Inductive Timer : Type :=
| RequestTimer (requestId : nat) (delay : Z)
| ReconnectTimer (delay : Q).

Inductive Event : Type :=
| connected
| ready (message : Value)
| disconnected (code : Z) (reason : string)
| error (e : Exn)
| maxReconnectAttemptsReached.

(** The fields of the client; its console output is left out.
    [pendingRequests] holds the request ids
    whose [{ resolve, reject }] pair is in the table; [ws] is the state of
    the current transport, [None] for [null]; [outbox] lists the frames
    handed to [ws.send], [settled] the calls of [resolve] and [reject],
    [emitted] the events, [timers] the armed timers, each oldest first. *)
Record t : Type := mk {
  reconnectInterval : Z;
  maxReconnectAttempts : nat;
  ws : option Server.ReadyState;
  isConnected : bool;
  reconnectAttempts : nat;
  pendingRequests : gset nat;
  requestId : nat;
  clientId : Value;
  timers : list Timer;
  outbox : list Value;
  settled : list (nat * Settlement);
  emitted : list Event;
  clock : Z
}.

(** The constructor with the default options. *)
Definition new (now : Z) : t :=
  mk 5000 10 None false 0 ∅ 0 VUndefined [] [] [] [] now.

Definition emit (e : Event) (c : t) : t :=
  mk (reconnectInterval c) (maxReconnectAttempts c) (ws c) (isConnected c)
     (reconnectAttempts c) (pendingRequests c) (requestId c) (clientId c)
     (timers c) (outbox c) (settled c) (emitted c ++ [e]) (clock c).

Definition settle (id : nat) (r : Settlement) (c : t) : t :=
  mk (reconnectInterval c) (maxReconnectAttempts c) (ws c) (isConnected c)
     (reconnectAttempts c) (pendingRequests c) (requestId c) (clientId c)
     (timers c) (outbox c) (settled c ++ [(id, r)]) (emitted c) (clock c).

Definition with_pending (p : gset nat) (c : t) : t :=
  mk (reconnectInterval c) (maxReconnectAttempts c) (ws c) (isConnected c)
     (reconnectAttempts c) p (requestId c) (clientId c)
     (timers c) (outbox c) (settled c) (emitted c) (clock c).

Definition arm (tm : Timer) (c : t) : t :=
  mk (reconnectInterval c) (maxReconnectAttempts c) (ws c) (isConnected c)
     (reconnectAttempts c) (pendingRequests c) (requestId c) (clientId c)
     (timers c ++ [tm]) (outbox c) (settled c) (emitted c) (clock c).

(** [connect()]: a new transport, not yet open. *)
Definition connect (c : t) : t :=
  mk (reconnectInterval c) (maxReconnectAttempts c) (Some Server.CONNECTING)
     (isConnected c) (reconnectAttempts c) (pendingRequests c) (requestId c)
     (clientId c) (timers c) (outbox c) (settled c) (emitted c) (clock c).

(** [this.ws.onopen] *)
Definition onopen (c : t) : t :=
  emit connected
    (mk (reconnectInterval c) (maxReconnectAttempts c) (Some Server.OPEN) true 0
        (pendingRequests c) (requestId c) (clientId c) (timers c) (outbox c)
        (settled c) (emitted c) (clock c)).

(** [reconnectInterval * Math.pow(1.5, reconnectAttempts - 1)] *)
Definition reconnect_delay (interval : Z) (attempts : nat) : Q :=
  Qmult (inject_Z interval) (Qpower (3 # 2) (Z.of_nat (attempts - 1))).

Definition attemptReconnect (c : t) : t :=
  if (maxReconnectAttempts c <=? reconnectAttempts c)%nat
  then emit maxReconnectAttemptsReached c
  else
    let attempts := S (reconnectAttempts c) in
    arm (ReconnectTimer (reconnect_delay (reconnectInterval c) attempts))
      (mk (reconnectInterval c) (maxReconnectAttempts c) (ws c) (isConnected c)
          attempts (pendingRequests c) (requestId c) (clientId c) (timers c)
          (outbox c) (settled c) (emitted c) (clock c)).

(** [this.ws.onclose] *)
Definition onclose (code : Z) (reason : string) (c : t) : t :=
  let c1 :=
    emit (disconnected code reason)
      (mk (reconnectInterval c) (maxReconnectAttempts c)
          (option_map (fun _ => Server.CLOSED) (ws c)) false
          (reconnectAttempts c) (pendingRequests c) (requestId c) (clientId c)
          (timers c) (outbox c) (settled c) (emitted c) (clock c)) in
  if negb (code =? 1000) && (reconnectAttempts c1 <? maxReconnectAttempts c1)%nat
  then attemptReconnect c1
  else c1.

(** What a call of [sendMessage] returns: a promise that waits for the
    answer to [requestId], or one already rejected. *)
Inductive Promise : Type :=
| Awaiting (requestId : nat)
| Failed (e : Exn).

Definition request (type : string) (requestId : nat) (payload : Value) (now : Z)
  : Value :=
  VObj [ ("type", VStr type); ("requestId", VNum (Z.of_nat requestId));
         ("payload", payload); ("timestamp", VNum now) ].

(** [sendMessage(type, payload)].  [ws.send] on a transport that is not
    open throws, and on [null] it is a [TypeError]. *)
Definition sendMessage (type : string) (payload : Value) (c : t) : Promise * t :=
  if negb (isConnected c) then (Failed (Error "WebSocket not connected"), c)
  else
    let id := S (requestId c) in
    let c1 :=
      arm (RequestTimer id 30000)
        (mk (reconnectInterval c) (maxReconnectAttempts c) (ws c) (isConnected c)
            (reconnectAttempts c) ({[id]} ∪ pendingRequests c) id (clientId c)
            (timers c) (outbox c) (settled c) (emitted c) (clock c)) in
    match ws c1, json_image (request type id payload (clock c)) with
    | Some Server.OPEN, Some frame =>
        (Awaiting id,
         mk (reconnectInterval c1) (maxReconnectAttempts c1) (ws c1)
            (isConnected c1) (reconnectAttempts c1) (pendingRequests c1)
            (requestId c1) (clientId c1) (timers c1) (outbox c1 ++ [frame])
            (settled c1) (emitted c1) (clock c1))
    | None, _ =>
        let e := TypeError "Cannot read properties of null (reading 'send')" in
        (Failed e, settle id (Rejected e) (with_pending (pendingRequests c1 ∖ {[id]}) c1))
    | _, _ =>
        let e := Error "WebSocket is not open" in
        (Failed e, settle id (Rejected e) (with_pending (pendingRequests c1 ∖ {[id]}) c1))
    end.

(** The callback of the timer of a request. *)
Definition request_timeout (id : nat) (c : t) : t :=
  if bool_decide (id ∈ pendingRequests c)
  then settle id (Rejected (Error "Request timeout"))
         (with_pending (pendingRequests c ∖ {[id]}) c)
  else c.

(** The request id of an envelope, when [requestId && ...] lets it pass. *)
Definition request_id_of (v : Value) : option nat :=
  match v with
  | VNum n => if (0 <? n)%Z then Some (Z.to_nat n) else None
  | _ => None
  end.

(** The message of [new Error(v)] *)
Definition error_message (v : Value) : Exn + string :=
  match v with
  | VUndefined => inr ""
  | _ => to_string v
  end.

(** [handleError(requestId, error)]; an exception of [new Error(error)] is
    caught by [handleMessage], after the entry has been removed. *)
Definition handleError (requestId err : Value) (c : t) : t :=
  let pending :=
    match request_id_of requestId with
    | Some id => if bool_decide (id ∈ pendingRequests c) then Some id else None
    | None => None
    end in
  match pending, error_message err with
  | Some id, inr text =>
      settle id (Rejected (Error text)) (with_pending (pendingRequests c ∖ {[id]}) c)
  | Some id, inl _ => with_pending (pendingRequests c ∖ {[id]}) c
  | None, inr text => emit (error (Error text)) c
  | None, inl _ => c
  end.

(** The [default] branch of [handleMessage]: the answer to a request. *)
Definition handleResponse (message : Value) (c : t) : t :=
  match request_id_of (Server.prop message "requestId") with
  | Some id =>
      if bool_decide (id ∈ pendingRequests c) then
        let c1 := with_pending (pendingRequests c ∖ {[id]}) c in
        if truthy (Server.prop message "success")
        then settle id (Resolved (Server.prop message "data")) c1
        else
          match error_message (or_else (Server.prop message "error")
                                       (VStr "Request failed")) with
          | inr text => settle id (Rejected (Error text)) c1
          | inl _ => c1
          end
      else c
  | None => c
  end.

End Client.

(** ** The client library: listeners, subscriptions and the public methods

    The rest of [WebSocketDataClient], around the request table of
    [Client].  Its console output is left out. *)

Module Library.
Import Js Adapters.

(** What a function of the application is called with: a value, or an
    [Error] object. *)
Inductive Argument : Type :=
| Data (v : Value)
| Failure (e : Exn).

(** A function the application hands to the client.  [Fn id body] is told
    from the other functions by [id]; called with an argument it returns
    ([None]) or throws.  What it does to the application, and to the client
    when it calls back into it, is outside the model.  [Noop] is the arrow
    function [() => {}] of [unsubscribe]. *)
Inductive Function : Type :=
| Fn (id : nat) (body : Argument -> option Exn)
| Noop.

Definition call (f : Function) (a : Argument) : option Exn :=
  match f with
  | Fn _ body => body a
  | Noop => None
  end.

(** [f === g], between functions of the application *)
Definition same_function (f g : Function) : bool :=
  match f, g with
  | Fn i _, Fn j _ => Nat.eqb i j
  | _, _ => false
  end.

(** The fields of the client besides those of the request table:
    [subscriptions] and [eventListeners] are the [Map]s in insertion order,
    [calls] lists the calls of the functions of the application, oldest
    first. *)
Record t : Type := mk {
  core : Client.t;
  platform : string;
  platformCapabilities : Value;
  subscriptions : list (string * Function);
  eventListeners : list (string * list Function);
  calls : list (Function * Argument)
}.

Definition new (platform : string) (now : Z) : t :=
  mk (Client.new now) platform VUndefined [] [] [].

Definition with_core (k : Client.t) (c : t) : t :=
  mk k (platform c) (platformCapabilities c) (subscriptions c) (eventListeners c)
     (calls c).
Definition with_platformCapabilities (v : Value) (c : t) : t :=
  mk (core c) (platform c) v (subscriptions c) (eventListeners c) (calls c).
Definition with_subscriptions (m : list (string * Function)) (c : t) : t :=
  mk (core c) (platform c) (platformCapabilities c) m (eventListeners c) (calls c).
Definition with_eventListeners (m : list (string * list Function)) (c : t) : t :=
  mk (core c) (platform c) (platformCapabilities c) (subscriptions c) m (calls c).
Definition with_calls (l : list (Function * Argument)) (c : t) : t :=
  mk (core c) (platform c) (platformCapabilities c) (subscriptions c)
     (eventListeners c) l.

(** *** What the client tells the server about itself *)

(** [getUserAgent()]; [navigator_userAgent] is [navigator.userAgent]. *)
Definition getUserAgent (platform navigator_userAgent : string) : string :=
  if String.eqb platform "react-native" then "React Native WebSocket Data Client/1.0"
  else if String.eqb platform "browser"
       then navigator_userAgent +:+ " WebSocketDataClient/1.0"
  else if String.eqb platform "nodejs" then "Node.js WebSocket Data Client/1.0"
  else "WebSocket Data Client/1.0".

(** The headers [connect] hands to the transport, under the names the server
    reads them by. *)
Definition headers (platform navigator_userAgent : string) : list (string * string) :=
  [ ("x-platform", platform);
    ("user-agent", getUserAgent platform navigator_userAgent) ].

(** *** Event listeners *)

(** [on(event, listener)] *)
Definition on (event : string) (listener : Function) (c : t) : t :=
  let listeners := default [] (map_get String.eqb event (eventListeners c)) in
  with_eventListeners
    (map_set String.eqb event (listeners ++ [listener]) (eventListeners c)) c.

(** [listeners.splice(listeners.indexOf(listener), 1)] when the index is
    not -1: the first occurrence goes. *)
Fixpoint splice_first (listener : Function) (listeners : list Function)
  : list Function :=
  match listeners with
  | [] => []
  | f :: r => if same_function f listener then r else f :: splice_first listener r
  end.

(** [off(event, listener)] *)
Definition off (event : string) (listener : Function) (c : t) : t :=
  match map_get String.eqb event (eventListeners c) with
  | Some listeners =>
      with_eventListeners
        (map_replace String.eqb event (splice_first listener listeners)
                     (eventListeners c)) c
  | None => c
  end.

(** [emit(event, data)]: every listener of the event is called, in the
    order of registration; what one throws is caught and logged. *)
Definition emit (event : string) (data : Argument) (c : t) : t :=
  match map_get String.eqb event (eventListeners c) with
  | Some listeners => with_calls (calls c ++ map (fun listener => (listener, data)) listeners) c
  | None => c
  end.

(** The name and the argument an event of the request table is emitted
    with. *)
Definition announce (platform : string) (e : Client.Event) : string * Argument :=
  match e with
  | Client.connected => ("connected", Data (VObj [("platform", VStr platform)]))
  | Client.ready message => ("ready", Data message)
  | Client.disconnected code reason =>
      ("disconnected", Data (VObj [("code", VNum code); ("reason", VStr reason)]))
  | Client.error e => ("error", Failure e)
  | Client.maxReconnectAttemptsReached =>
      ("maxReconnectAttemptsReached", Data VUndefined)
  end.

(** A method of the request table, with the listeners called on each event
    it emits. *)
Definition lifted (f : Client.t -> Client.t) (c : t) : t :=
  let k := f (core c) in
  fold_left (fun c e => emit (announce (platform c) e).1 (announce (platform c) e).2 c)
            (drop (length (Client.emitted (core c))) (Client.emitted k))
            (with_core k c).

Definition connect (c : t) : t := lifted Client.connect c.
Definition onopen (c : t) : t := lifted Client.onopen c.
Definition onclose (code : Z) (reason : string) (c : t) : t :=
  lifted (Client.onclose code reason) c.
Definition request_timeout (id : nat) (c : t) : t :=
  lifted (Client.request_timeout id) c.

(** [disconnect()]: the transport is closed with code 1000 and forgotten;
    its [close] event comes later. *)
Definition disconnect (c : t) : t :=
  match Client.ws (core c) with
  | Some _ =>
      let k := core c in
      with_core
        (Client.mk (Client.reconnectInterval k) (Client.maxReconnectAttempts k)
                   None false (Client.reconnectAttempts k) (Client.pendingRequests k)
                   (Client.requestId k) (Client.clientId k) (Client.timers k)
                   (Client.outbox k) (Client.settled k) (Client.emitted k)
                   (Client.clock k)) c
  | None => c
  end.

(** [isReady()]: [this.isConnected && this.clientId] *)
Definition isReady (c : t) : Value :=
  if Client.isConnected (core c) then Client.clientId (core c) else VBool false.

(** [getStatus()] *)
Definition getStatus (c : t) : Value :=
  VObj [ ("connected", VBool (Client.isConnected (core c)));
         ("clientId", Client.clientId (core c));
         ("platform", VStr (platform c));
         ("capabilities", platformCapabilities c);
         ("subscriptions", VArr (map (fun s => VStr s.1) (subscriptions c)));
         ("pendingRequests", VNum (Z.of_nat (size (Client.pendingRequests (core c))))) ].

(** *** Requests *)

(** [sendMessage(type, payload)] *)
Definition sendMessage (type : string) (payload : Value) (c : t)
  : Client.Promise * t :=
  let r := Client.sendMessage type payload (core c) in
  (r.1, with_core r.2 c).

Definition get (collection key options : Value) (c : t) : Client.Promise * t :=
  sendMessage "GET"
    (VObj [ ("collection", collection); ("key", key);
            ("options", Server.or_default options (VObj [])) ]) c.

Definition set (collection key value options : Value) (c : t) : Client.Promise * t :=
  sendMessage "SET"
    (VObj [ ("collection", collection); ("key", key); ("value", value);
            ("options", Server.or_default options (VObj [])) ]) c.

Definition delete (collection key options : Value) (c : t) : Client.Promise * t :=
  sendMessage "DELETE"
    (VObj [ ("collection", collection); ("key", key);
            ("options", Server.or_default options (VObj [])) ]) c.

Definition query (collection query options : Value) (c : t) : Client.Promise * t :=
  sendMessage "QUERY"
    (VObj [ ("collection", collection); ("query", query);
            ("options", Server.or_default options (VObj [])) ]) c.

Definition batch (operations : Value) (c : t) : Client.Promise * t :=
  sendMessage "BATCH" (VObj [("operations", operations)]) c.

(** [{ useIndexedDB: this.platform === 'browser' }] *)
Definition cart_options (c : t) : Value :=
  VObj [("useIndexedDB", VBool (String.eqb (platform c) "browser"))].

Definition saveCart (userId cartData : Value) (c : t) : Client.Promise * t :=
  set (VStr "cart") userId cartData (cart_options c) c.

Definition loadCart (userId : Value) (c : t) : Client.Promise * t :=
  get (VStr "cart") userId (cart_options c) c.

Definition saveUserSession (userId sessionData : Value) (c : t) : Client.Promise * t :=
  set (VStr "sessions") userId sessionData VUndefined c.

Definition loadUserSession (userId : Value) (c : t) : Client.Promise * t :=
  get (VStr "sessions") userId VUndefined c.

(** *** Subscriptions

    An [async] method runs to its [await]; the rest of it runs when the
    awaited request is settled.  A request that [sendMessage] rejects at once
    is settled before anything else reaches the client: its rest is part of
    the call. *)

Definition pair (collection pattern : Value) : Value :=
  VObj [("collection", collection); ("pattern", pattern)].

(** [subscribe(collection, pattern, callback)] up to the [await]: an
    exception the promise is rejected with, or the request waited for. *)
Definition subscribe (collection pattern : Value) (callback : Function) (c : t)
  : (Exn + nat) * t :=
  match Server.subscriptionKey_of collection pattern with
  | inl e => (inl e, c)
  | inr subscriptionKey =>
      if map_has String.eqb subscriptionKey (subscriptions c)
      then (inl (Error ("Already subscribed to " +:+ subscriptionKey)), c)
      else
        let c1 := with_subscriptions
                    (map_set String.eqb subscriptionKey callback (subscriptions c)) c in
        match sendMessage "SUBSCRIBE" (pair collection pattern) c1 with
        | (Client.Awaiting id, c2) => (inr id, c2)
        | (Client.Failed e, c2) =>
            (inl e,
             with_subscriptions
               (map_delete String.eqb subscriptionKey (subscriptions c2)) c2)
        end
  end.

(** The rest of [subscribe], once the request is settled. *)
Definition subscribe_settled (subscriptionKey : string) (r : Client.Settlement)
    (c : t) : (Exn + Value) * t :=
  match r with
  | Client.Resolved _ => (inr (VStr subscriptionKey), c)
  | Client.Rejected e =>
      (inl e,
       with_subscriptions (map_delete String.eqb subscriptionKey (subscriptions c)) c)
  end.

(** [unsubscribe(collection, pattern)] up to the [await] *)
Definition unsubscribe (collection pattern : Value) (c : t) : (Exn + nat) * t :=
  match Server.subscriptionKey_of collection pattern with
  | inl e => (inl e, c)
  | inr subscriptionKey =>
      if negb (map_has String.eqb subscriptionKey (subscriptions c))
      then (inl (Error ("Not subscribed to " +:+ subscriptionKey)), c)
      else
        let c1 := with_subscriptions
                    (map_delete String.eqb subscriptionKey (subscriptions c)) c in
        match sendMessage "UNSUBSCRIBE" (pair collection pattern) c1 with
        | (Client.Awaiting id, c2) => (inr id, c2)
        | (Client.Failed e, c2) =>
            (inl e,
             with_subscriptions
               (map_set String.eqb subscriptionKey Noop (subscriptions c2)) c2)
        end
  end.

(** The rest of [unsubscribe], once the request is settled. *)
Definition unsubscribe_settled (subscriptionKey : string) (r : Client.Settlement)
    (c : t) : (Exn + Value) * t :=
  match r with
  | Client.Resolved _ => (inr (VBool true), c)
  | Client.Rejected e =>
      (inl e,
       with_subscriptions (map_set String.eqb subscriptionKey Noop (subscriptions c)) c)
  end.

(** *** Incoming frames *)

(** [handleConnectionEstablished(message)] *)
Definition handleConnectionEstablished (message : Value) (c : t) : t :=
  with_platformCapabilities (Server.prop message "capabilities")
    (lifted (fun k =>
               Client.emit (Client.ready message)
                 (Client.mk (Client.reconnectInterval k) (Client.maxReconnectAttempts k)
                            (Client.ws k) (Client.isConnected k)
                            (Client.reconnectAttempts k) (Client.pendingRequests k)
                            (Client.requestId k) (Server.prop message "clientId")
                            (Client.timers k) (Client.outbox k) (Client.settled k)
                            (Client.emitted k) (Client.clock k))) c).

(** The object a subscription callback is called with. *)
Definition update (collection key operation value : Value) (type : string) : Value :=
  VObj [ ("collection", collection); ("key", key); ("operation", operation);
         ("value", value); ("type", VStr type) ].

(** [if (this.subscriptions.has(k)) { this.subscriptions.get(k)(argument) }] *)
Definition notify (k : string) (argument : Value) (c : t) : option Exn * t :=
  match map_get String.eqb k (subscriptions c) with
  | Some callback =>
      (call callback (Data argument),
       with_calls (calls c ++ [(callback, Data argument)]) c)
  | None => (None, c)
  end.

(** [handleSubscriptionUpdate(message)]: what it throws, if anything, and the
    client it leaves. *)
Definition handleSubscriptionUpdate (message : Value) (c : t) : option Exn * t :=
  let collection := Server.prop message "collection" in
  let key := Server.prop message "key" in
  let operation := Server.prop message "operation" in
  let value := Server.prop message "value" in
  match Server.subscriptionKey_of collection key,
        Server.subscriptionKey_of collection (VStr "*") with
  | inr subscriptionKey, inr wildcardKey =>
      match notify subscriptionKey (update collection key operation value "specific") c with
      | (Some e, c1) => (Some e, c1)
      | (None, c1) =>
          match notify wildcardKey (update collection key operation value "wildcard") c1 with
          | (Some e, c2) => (Some e, c2)
          | (None, c2) =>
              (None,
               emit "dataUpdate"
                 (Data (VObj [ ("collection", collection); ("key", key);
                               ("operation", operation); ("value", value) ])) c2)
          end
      end
  | inl e, _ => (Some e, c)
  | _, inl e => (Some e, c)
  end.

(** [handleError(requestId, error)] *)
Definition handleError (requestId err : Value) (c : t) : t :=
  lifted (Client.handleError requestId err) c.

(** [handleMessage(data)]: whatever is thrown inside is caught and
    logged. *)
Definition handleMessage (data : Text) (c : t) : t :=
  match JSON_parse data with
  | inl _ => c
  | inr VUndefined | inr VNull => c
  | inr message =>
      let type := Server.prop message "type" in
      if strict_equals type (VStr "CONNECTION_ESTABLISHED")
      then handleConnectionEstablished message c
      else if strict_equals type (VStr "SUBSCRIPTION_UPDATE")
      then (handleSubscriptionUpdate message c).2
      else if strict_equals type (VStr "ERROR")
      then handleError (Server.prop message "requestId") (Server.prop message "error") c
      else lifted (Client.handleResponse message) c
  end.

End Library.

(** ** Scenarios

    Concrete runs of the broker, used as instances of the theorems below. *)

Module Scenario.
Import Js Server.

(** The world a computation leaves. *)
Definition after {A : Type} (m : M A) (w : World) : World := (m w).2.

(** A request frame as the client library builds it. *)
Definition frame (type : string) (requestId : Z) (payload : Value) : Text :=
  Json (VObj [ ("type", VStr type); ("requestId", VNum requestId);
               ("payload", payload); ("timestamp", VNum 0) ]).

Definition pair (collection pattern : string) : Value :=
  VObj [("collection", VStr collection); ("pattern", VStr pattern)].

Definition entry (collection key : string) (value : Value) : Value :=
  VObj [("collection", VStr collection); ("key", VStr key); ("value", value)].

Definition started : World := Server.new "data" 0.

(** One browser session, socket 1. *)
Definition one_session : World :=
  after (connection 1 "127.0.0.1" [("x-platform", "browser")] "client_1") started.

(** One React Native session, socket 1. *)
Definition react_native_session : World :=
  after (connection 1 "127.0.0.1" [("x-platform", "react-native")] "client_1") started.

(** Two browser sessions, sockets 1 and 2. *)
Definition two_sessions : World :=
  after (connection 2 "127.0.0.1" [("x-platform", "browser")] "client_2") one_session.

(** An operation of a batch; [VUndefined] for a payload that is absent. *)
Definition operation (id type : string) (payload : Value) : Value :=
  match payload with
  | VUndefined => VObj [("id", VStr id); ("type", VStr type)]
  | _ => VObj [("id", VStr id); ("type", VStr type); ("payload", payload)]
  end.

Definition batch (requestId : Z) (operations : list Value) : Value :=
  VObj [ ("type", VStr "BATCH"); ("requestId", VNum requestId);
         ("payload", VObj [("operations", VArr operations)]);
         ("timestamp", VNum 0) ].

(** A write, a read without payload, a second write. *)
Definition failing_batch : list Value :=
  [ operation "a" "SET" (entry "c" "k1" (VNum 1));
    operation "b" "GET" VUndefined;
    operation "c" "SET" (entry "c" "k2" (VNum 2)) ].

(** An operation of a type the broker does not know, then a ping. *)
Definition batch_with_unknown_type : list Value :=
  [ operation "a" "RENAME" (VObj []); operation "b" "PING" (VObj []) ].

(** Session 1 subscribes to cart/u1. *)
Definition subscribed : World :=
  after (handleMessage 1 (frame "SUBSCRIBE" 1 (pair "cart" "u1"))) two_sessions.

(** Two keep-alive turns during which only session 2 answers the ping:
    socket 1 has been terminated and waits for its [close] event. *)
Definition subscriber_closing : World :=
  after keep_alive_sweep (after (pong 2) (after keep_alive_sweep subscribed)).

End Scenario.

(** ** Notions the properties are stated with *)

Section Notions.
Import Js Adapters Server.

(** What [JSON.parse] throws on a text that is not JSON. *)
Definition parse_error : Exn := SyntaxError "Unexpected token in JSON at position 0".

(** The record of a listed file of a collection, when the file can be read
    and holds a JSON text. *)
Definition json_record (a : NodeJSStorageAdapter.state) (prefix file : string)
  : option Value :=
  if starts_with prefix file then
    match NodeJSStorageAdapter.readFileSync
            (path_join (NodeJSStorageAdapter.dataDir a) file) a with
    | inr (Json data) =>
        Some (key_spread (VStr (remove_first ".json" (remove_first prefix file))) data)
    | _ => None
    end
  else None.

(** The document of a [SUBSCRIPTION_UPDATE] envelope. *)
Definition update_document (collection key : Value) (operation : string)
    (value : Value) (now : Z) : Value :=
  default VNull (json_image (subscription_update collection key operation value now)).

(** Whom [notifySubscribers] sends to: the socket is open, is not the one
    of the originator, and its set holds the exact or the wildcard key. *)
Definition recipient (m : gmap nat Socket) (sk wk origin : string) (ws : nat) : bool :=
  match m !! ws with
  | Some s =>
      negb (String.eqb (clientId s) origin)
      && (has sk (subscriptions s) || has wk (subscriptions s))
      && ReadyState_eqb (readyState s) OPEN
  | None => false
  end.

(** The frames of one fan-out over the connections, in their order. *)
Definition fanout (m : gmap nat Socket) (sk wk origin : string) (doc : Value)
    (connections : list nat) : list (nat * Value) :=
  flat_map (fun ws => if recipient m sk wk origin ws then [(ws, doc)] else [])
           connections.

(** The sessions a mutation by [o] is announced to. *)
Definition receives (w : World) (o : Socket) (sk wk : string) (ws : nat) (s : Socket)
  : Prop :=
  ws ∈ activeConnections w
  /\ readyState s = OPEN
  /\ clientId s ≠ clientId o
  /\ (sk ∈ subscriptions s \/ wk ∈ subscriptions s).

(** The value a mutation announces. *)
Definition announced (op : Opcode) (payload : Value) : Value :=
  match op with
  | SET => prop payload "value"
  | _ => VNull
  end.

(** The socket after [ws.subscriptions.add(key)]. *)
Definition subscribe_to (key : string) (s : Socket) : Socket :=
  mkSocket (platform s) (clientId s) ({[key]} ∪ subscriptions s) (isAlive s)
           (readyState s).

(** The world in which the handler of a frame starts: the frame has been
    logged. *)
Definition received (t : string) (s : Socket) (w : World) : World :=
  with_console
    (console w ++ [console_log ("Received " +:+ t +:+ " from " +:+ platform s
                                +:+ " client: " +:+ clientId s)]) w.

(** Whether the table has a handler for the type of an operation. *)
Definition handled (operation : Value) : bool :=
  match messageHandlers_get (prop operation "type") with
  | Some _ => true
  | None => false
  end.

(** An entry [{ operation: id, result }] of a batch result. *)
Definition is_entry (e : Value) : Prop :=
  exists id result, e = VObj [("operation", id); ("result", result)].

(** The message of the [TypeError] of a handler called without payload. *)
Definition cannot_destructure_payload : string :=
  "Cannot destructure property 'collection' of 'payload' as it is undefined.".

(** A computation that never stops for lack of unfolding budget. *)
Definition total {A : Type} (m : M A) : Prop := forall w, (m w).1 ≠ OutOfFuel.

(** The connections are a set, and each refers to a socket. *)
Definition well_formed (w : World) : Prop :=
  NoDup (activeConnections w)
  /\ forall ws, ws ∈ activeConnections w -> is_Some (sockets w !! ws).

(** A computation that leaves the connections and the addresses of the
    sockets as they are. *)
Definition stable {A : Type} (m : M A) : Prop :=
  forall w, activeConnections (m w).2 = activeConnections w
            /\ dom (sockets (m w).2) = dom (sockets w).

(** The worlds reached from the start by connections, frames, pongs,
    keep-alive turns and close events of connected sockets. *)
Inductive reachable : World -> Prop :=
| reach_start dir now : reachable (Server.new dir now)
| reach_connection w ws remoteAddress headers id :
    reachable w -> sockets w !! ws = None ->
    reachable (connection ws remoteAddress headers id w).2
| reach_message w ws data :
    reachable w -> ws ∈ activeConnections w ->
    reachable (handleMessage ws data w).2
| reach_pong w ws :
    reachable w -> ws ∈ activeConnections w -> reachable (pong ws w).2
| reach_keep_alive w : reachable w -> reachable (keep_alive_sweep w).2
| reach_close w ws :
    reachable w -> ws ∈ activeConnections w -> reachable (close ws w).2.

(** A client that has connected and sent one [GET]. *)
Definition one_request_pending : Client.t :=
  (Client.sendMessage "GET" (VObj [("collection", VStr "cart"); ("key", VStr "u1")])
     (Client.onopen (Client.connect (Client.new 0)))).2.

End Notions.

(** ** Notions of the properties of the file adapter *)

Section AdapterNotions.
Import Js Adapters.

(** A string that holds no path separator. *)
Fixpoint no_separator (s : string) : bool :=
  match s with
  | EmptyString => true
  | String c r => negb (Ascii.eqb c "/") && no_separator r
  end.

(** A segment that names an entry of a directory: it is not empty, not [.]
    or [..], and holds no separator. *)
Definition plain (segment : string) : bool :=
  no_separator segment && negb (String.eqb segment "")
  && negb (String.eqb segment ".") && negb (String.eqb segment "..").

(** The normalised path of a directory that is not the root, by its
    segments. *)
Definition directory_path (absolute : bool) (segments : list string) : string :=
  (if absolute then "/" else "") +:+ String.concat "/" segments.

End AdapterNotions.

(** ** Notions of the further properties of the broker *)

Section BrokerNotions.
Import Js Adapters Server.

(** A computation that sends nothing to the socket [ws] and leaves its
    client id and its ready state as they are. *)
Definition quiet (ws : nat) (id : string) (r : ReadyState) {A : Type} (m : M A)
  : Prop :=
  forall w s,
    sockets w !! ws = Some s -> clientId s = id -> readyState s = r ->
    (exists s', sockets (m w).2 !! ws = Some s' /\ clientId s' = id
                /\ readyState s' = r)
    /\ exists frames,
         sent (m w).2 = sent w ++ frames /\ Forall (fun f => f.1 <> ws) frames.

(** The field a handler reads first from its payload; [handlePing] reads
    none. *)
Definition first_field (op : Opcode) : option string :=
  match op with
  | PING => None
  | BATCH => Some "operations"
  | _ => Some "collection"
  end.

(** The method of the storage adapter a handler calls. *)
Definition adapter_method (op : Opcode) : option string :=
  match op with
  | GET => Some "get"
  | SET => Some "set"
  | DELETE => Some "delete"
  | QUERY => Some "query"
  | _ => None
  end.

(** A computation that leaves the component [f] of the world as it is, on
    the worlds in which the socket [ws] is of platform [p]; it leaves the
    platform of the socket too. *)
Definition isolated (ws : nat) (p : string) {X : Type} (f : World -> X)
    {A : Type} (m : M A) : Prop :=
  forall w s,
    sockets w !! ws = Some s -> platform s = p ->
    (exists s', sockets (m w).2 !! ws = Some s' /\ platform s' = p)
    /\ f (m w).2 = f w.

(** A computation that reads: it leaves the stores, the sockets and the
    connections as they are, and what it sends goes to [ws]. *)
Definition reads_only (ws : nat) {A : Type} (m : M A) : Prop :=
  forall w,
    browser (m w).2 = browser w /\ reactNative (m w).2 = reactNative w
    /\ nodejs (m w).2 = nodejs w /\ sockets (m w).2 = sockets w
    /\ activeConnections (m w).2 = activeConnections w
    /\ exists frames,
         sent (m w).2 = sent w ++ frames /\ Forall (fun f => f.1 = ws) frames.

(** [n] keep-alive turns, each answered by the socket [ws] with a pong. *)
Fixpoint answered_turns (n : nat) (ws : nat) : M unit :=
  match n with
  | O => ret tt
  | S n => run keep_alive_sweep; run pong ws; answered_turns n ws
  end.

(** A socket after one keep-alive turn: marked as not alive until its pong
    comes, or terminated when it was still so marked. *)
Definition probed (s : Socket) : Socket :=
  if isAlive s
  then mkSocket (platform s) (clientId s) (subscriptions s) false (readyState s)
  else mkSocket (platform s) (clientId s) (subscriptions s) (isAlive s) CLOSING.

End BrokerNotions.

(** ** Notions of the properties of the client library *)

Section ClientNotions.
Import Js Adapters.

(** The request table settles no request twice, a request it settled is
    not pending, and the requests it holds or settled are numbered below its
    counter. *)
Definition settles_once (k : Client.t) : Prop :=
  (forall id, id ∈ Client.pendingRequests k -> (id <= Client.requestId k)%nat)
  /\ (forall id r, (id, r) ∈ Client.settled k ->
                   (id <= Client.requestId k)%nat /\ id ∉ Client.pendingRequests k)
  /\ NoDup (Client.settled k).*1.

(** The clients an application can reach: it creates one and calls its
    methods, and the transport and the timers call theirs. *)
Inductive client_reachable : Library.t -> Prop :=
| client_new platform now : client_reachable (Library.new platform now)
| client_connect c : client_reachable c -> client_reachable (Library.connect c)
| client_onopen c : client_reachable c -> client_reachable (Library.onopen c)
| client_onclose c code reason :
    client_reachable c -> client_reachable (Library.onclose code reason c)
| client_disconnect c : client_reachable c -> client_reachable (Library.disconnect c)
| client_on c event listener :
    client_reachable c -> client_reachable (Library.on event listener c)
| client_off c event listener :
    client_reachable c -> client_reachable (Library.off event listener c)
| client_sendMessage c type payload :
    client_reachable c -> client_reachable (Library.sendMessage type payload c).2
| client_subscribe c collection pattern callback :
    client_reachable c ->
    client_reachable (Library.subscribe collection pattern callback c).2
| client_subscribe_settled c subscriptionKey r :
    client_reachable c ->
    client_reachable (Library.subscribe_settled subscriptionKey r c).2
| client_unsubscribe c collection pattern :
    client_reachable c -> client_reachable (Library.unsubscribe collection pattern c).2
| client_unsubscribe_settled c subscriptionKey r :
    client_reachable c ->
    client_reachable (Library.unsubscribe_settled subscriptionKey r c).2
| client_handleMessage c data :
    client_reachable c -> client_reachable (Library.handleMessage data c)
| client_request_timeout c id :
    client_reachable c -> client_reachable (Library.request_timeout id c).

(** The listeners of an event. *)
Definition listeners (event : string) (c : Library.t) : list Library.Function :=
  default [] (map_get String.eqb event (Library.eventListeners c)).

(** A client that connected, sent one [GET] and was answered. *)
Definition one_request_answered : Library.t :=
  Library.handleMessage
    (Json (VObj [ ("type", VStr "GET_RESPONSE"); ("requestId", VNum 1);
                  ("success", VBool true); ("data", VNum 7);
                  ("timestamp", VNum 0) ]))
    (Library.get (VStr "cart") (VStr "u1") VUndefined
       (Library.onopen (Library.connect (Library.new "browser" 0)))).2.

End ClientNotions.

(** * Properties *)

(** ** Own properties and maps *)

Section OwnProperties.
Import Js.

Lemma own_get_replace k v ps :
  own_has k ps = true -> own_get k (own_replace k v ps) = Some v.
Proof.
  unfold own_has. induction ps as [|[k' v'] r IH]; simpl; [discriminate|].
  destruct (String.eqb k k') eqn:E; simpl.
  - intros _. by rewrite String.eqb_refl.
  - rewrite E. exact IH.
Qed.

Lemma own_get_insert_index i k v ps :
  own_get k ps = None -> own_get k (insert_index i k v ps) = Some v.
Proof.
  induction ps as [|[k' v'] r IH]; simpl.
  - by rewrite String.eqb_refl.
  - destruct (String.eqb k k') eqn:E; [discriminate|]. intros Hr.
    destruct (array_index k') as [j|]; [destruct (j <? i)%N|]; simpl;
      rewrite ?E, ?String.eqb_refl; auto.
Qed.

Lemma own_get_app_new k v ps :
  own_get k ps = None -> own_get k (ps ++ [(k, v)]) = Some v.
Proof.
  induction ps as [|[k' v'] r IH]; simpl.
  - by rewrite String.eqb_refl.
  - destruct (String.eqb k k'); [discriminate | exact IH].
Qed.

(** Reading back what was just assigned. *)
Lemma own_get_set k v ps : own_get k (own_set k v ps) = Some v.
Proof.
  unfold own_set. destruct (own_has k ps) eqn:H.
  - by apply own_get_replace.
  - unfold own_has in H. destruct (own_get k ps) eqn:G; [discriminate|].
    destruct (array_index k).
    + by apply own_get_insert_index.
    + by apply own_get_app_new.
Qed.

Lemma own_get_delete k ps : own_get k (own_delete k ps) = None.
Proof.
  induction ps as [|[k' v'] r IH]; simpl; [done|].
  destruct (String.eqb k k') eqn:E; simpl; rewrite ?E; exact IH.
Qed.
End OwnProperties.

Section JsMapFacts.
Import Adapters.
Context {K V : Type} (eqb : K -> K -> bool).

Lemma map_get_replace k v (m : list (K * V)) :
  map_has eqb k m = true -> map_get eqb k (map_replace eqb k v m) = Some v.
Proof.
  unfold map_has. induction m as [|[k' v'] r IH]; simpl; [discriminate|].
  destruct (eqb k k') eqn:E; simpl; rewrite E; [done | exact IH].
Qed.

Lemma map_get_app_new k v (m : list (K * V)) :
  eqb k k = true -> map_get eqb k m = None ->
  map_get eqb k (m ++ [(k, v)]) = Some v.
Proof.
  intros Hk. induction m as [|[k' v'] r IH]; simpl.
  - by rewrite Hk.
  - destruct (eqb k k'); [discriminate | exact IH].
Qed.

(** [m.set(k, v); m.get(k)] *)
Lemma map_get_set k v (m : list (K * V)) :
  eqb k k = true -> map_get eqb k (map_set eqb k v m) = Some v.
Proof.
  intros Hk. unfold map_set. destruct (map_has eqb k m) eqn:H.
  - by apply map_get_replace.
  - apply map_get_app_new; [done|]. unfold map_has in H.
    by destruct (map_get eqb k m).
Qed.

(** [m.delete(k); m.get(k)] *)
Lemma map_get_delete k (m : list (K * V)) :
  map_get eqb k (map_delete eqb k m) = None.
Proof.
  induction m as [|[k' v'] r IH]; simpl; [done|].
  destruct (eqb k k') eqn:E; simpl; rewrite ?E; exact IH.
Qed.
End JsMapFacts.

(** ** The capability table *)

Section Capabilities.
Import Js Server.

Lemma capabilities_browser :
  getPlatformCapabilities "browser"
  = strings ["localStorage"; "indexedDB"; "sessionStorage"].
Proof. reflexivity. Qed.

Lemma capabilities_react_native :
  getPlatformCapabilities "react-native"
  = strings ["asyncStorage"; "sqlite"; "secureStorage"].
Proof. reflexivity. Qed.

Lemma capabilities_nodejs :
  getPlatformCapabilities "nodejs" = strings ["filesystem"; "sqlite"; "memory"].
Proof. reflexivity. Qed.

(** A platform that is neither in the table nor the name of a member of
    [Object.prototype] gets the fallback. *)
Lemma capabilities_fallback (p : string) :
  p ≠ "browser" -> p ≠ "react-native" -> p ≠ "nodejs" ->
  inherited ObjectPrototype p = VUndefined ->
  getPlatformCapabilities p = strings ["memory"].
Proof.
  intros H1 H2 H3 Hi.
  unfold getPlatformCapabilities, capabilities, get_member. simpl own_get.
  apply String.eqb_neq in H1, H2, H3. rewrite H1, H2, H3, Hi. reflexivity.
Qed.

Example capabilities_desktop : getPlatformCapabilities "desktop" = strings ["memory"].
Proof. by apply capabilities_fallback. Qed.

(** C8, where the code departs from it: the platform [toString], which a
    client may announce in the [x-platform] header, is none of the three
    platforms of the table, yet [capabilities[platform]] finds the function
    every object inherits, the fallback [['memory']] is not taken, and the
    welcome envelope goes out without a capability list. *)
Theorem capabilities_of_inherited_name :
  detectPlatform "" [("x-platform", "toString")] = "toString"
  /\ getPlatformCapabilities "toString" = VBuiltin (BuiltinFunction "toString")
  /\ getPlatformCapabilities "toString" <> strings ["memory"]
  /\ sent (connection 1 "127.0.0.1" [("x-platform", "toString")] "client_1"
             (Server.new "data" 0)).2
     = [(1%nat, VObj [ ("type", VStr "CONNECTION_ESTABLISHED");
                       ("clientId", VStr "client_1");
                       ("platform", VStr "toString") ])].
Proof.
  split; [reflexivity|]. split; [reflexivity|]. split; [discriminate|].
  vm_compute. reflexivity.
Qed.
End Capabilities.

(** ** Round trips through the adapters *)

Section RoundTrip.
Import Js Adapters.

Lemma dict_get_set d k v :
  k ≠ "__proto__" -> dict_get (dict_set d k v) k = v.
Proof.
  intros Hk. apply String.eqb_neq in Hk. unfold dict_set.
  destruct (own_has k (own d)); [|rewrite Hk; simpl];
    unfold dict_get; simpl; by rewrite own_get_set.
Qed.

Lemma same_value_zero_str c : same_value_zero (VStr c) (VStr c) = true.
Proof. apply String.eqb_refl. Qed.

(** What the browser adapter reads back after a write: the value itself
    when it is truthy, [null] otherwise. *)
Lemma browser_set_get c k v options now a idb :
  BrowserStorageAdapter.use_indexedDB options = inr idb ->
  k ≠ "__proto__" ->
  BrowserStorageAdapter.get (VStr c) (VStr k) options
    (BrowserStorageAdapter.set (VStr c) (VStr k) v options now a).2
  = inr (or_else v VNull).
Proof.
  intros Ho Hk. unfold BrowserStorageAdapter.get, BrowserStorageAdapter.set.
  rewrite Ho. simpl.
  set (m := BrowserStorageAdapter.storage idb a).
  set (d := dict_set _ k v).
  assert (Hm : forall m2, BrowserStorageAdapter.storage idb
                 (BrowserStorageAdapter.with_storage idb m2 a) = m2)
    by (intros m2; destruct idb; reflexivity).
  rewrite Hm. unfold BrowserStorageAdapter.collection_data.
  assert (Hg : map_get same_value_zero (VStr c)
                 (if map_has same_value_zero (VStr c) m
                  then map_replace same_value_zero (VStr c) d m
                  else m ++ [(VStr c, d)]) = Some d).
  { destruct (map_has same_value_zero (VStr c) m) eqn:H.
    - by apply map_get_replace.
    - apply map_get_app_new; [apply same_value_zero_str|].
      unfold map_has in H. by destruct (map_get same_value_zero (VStr c) m). }
  rewrite Hg. subst d. by rewrite dict_get_set.
Qed.

(** The React Native adapter reads back the document of the stored text. *)
Lemma react_native_set_get c k v options now a :
  ReactNativeStorageAdapter.get (VStr c) (VStr k) options
    (ReactNativeStorageAdapter.set (VStr c) (VStr k) v options now a).2
  = inr (default VNull (json_image v)).
Proof.
  unfold ReactNativeStorageAdapter.get, ReactNativeStorageAdapter.set. simpl.
  rewrite map_get_set by apply String.eqb_refl.
  by destruct (json_image v).
Qed.

Lemma react_native_delete_get c k options a :
  ReactNativeStorageAdapter.get (VStr c) (VStr k) options
    (ReactNativeStorageAdapter.delete (VStr c) (VStr k) options a).2
  = inr VNull.
Proof.
  unfold ReactNativeStorageAdapter.get, ReactNativeStorageAdapter.delete. simpl.
  by rewrite map_get_delete.
Qed.

Example react_native_keeps_zero :
  ReactNativeStorageAdapter.get (VStr "cart") (VStr "u1") (VObj [])
    (ReactNativeStorageAdapter.set (VStr "cart") (VStr "u1") (VNum 0) (VObj []) 0
       ReactNativeStorageAdapter.new).2
  = inr (VNum 0).
Proof. reflexivity. Qed.

(** On the browser adapter a falsy value is read back as [null]. *)
Lemma browser_set_get_falsy c k v options now a idb :
  BrowserStorageAdapter.use_indexedDB options = inr idb ->
  k ≠ "__proto__" -> truthy v = false ->
  BrowserStorageAdapter.get (VStr c) (VStr k) options
    (BrowserStorageAdapter.set (VStr c) (VStr k) v options now a).2
  = inr VNull.
Proof.
  intros Ho Hk Hv. rewrite (browser_set_get c k v options now a idb) by done.
  unfold or_else. by rewrite Hv.
Qed.

(** C2, where the code departs from it: on the browser adapter a stored
    [0], [false] or empty string is read back as [null], because [get]
    answers [collectionData[key] || null]; the value is in the store all
    the same. *)
Theorem browser_get_after_set_falsy :
  let options := VObj [] in
  let stored v := (BrowserStorageAdapter.set (VStr "cart") (VStr "u1") v
                     options 0 BrowserStorageAdapter.new).2 in
  BrowserStorageAdapter.localStorage (stored (VNum 0))
    = [(VStr "cart", mkDict [("u1", VNum 0)] (VBuiltin ObjectPrototype))]
  /\ BrowserStorageAdapter.get (VStr "cart") (VStr "u1") options (stored (VNum 0))
     = inr VNull
  /\ BrowserStorageAdapter.get (VStr "cart") (VStr "u1") options (stored (VBool false))
     = inr VNull
  /\ BrowserStorageAdapter.get (VStr "cart") (VStr "u1") options (stored (VStr ""))
     = inr VNull
  /\ Server.sent
       (Scenario.after
          (Server.handleMessage 1
             (Scenario.frame "GET" 2
                (VObj [("collection", VStr "cart"); ("key", VStr "u1")])))
          (Scenario.after
             (Server.handleMessage 1
                (Scenario.frame "SET" 1 (Scenario.entry "cart" "u1" (VNum 0))))
             Scenario.one_session))
     = Server.sent Scenario.one_session
       ++ [ (1%nat, VObj [ ("type", VStr "SET_RESPONSE"); ("requestId", VNum 1);
                           ("success", VBool true);
                           ("data", VObj [ ("success", VBool true);
                                           ("key", VStr "u1");
                                           ("timestamp", VNum 0) ]);
                           ("timestamp", VNum 0) ]);
            (1%nat, VObj [ ("type", VStr "GET_RESPONSE"); ("requestId", VNum 2);
                           ("success", VBool true); ("data", VNull);
                           ("timestamp", VNum 0) ]) ].
Proof. repeat split; vm_compute; reflexivity. Qed.
End RoundTrip.

(** ** Queries with an empty predicate *)

Section EmptyQuery.
Import Js Adapters.

(** The conjunction over no field holds of every value. *)
Lemma matches_empty value : matches value (VObj []) = inr true.
Proof. reflexivity. Qed.

Lemma browser_filter_empty entries :
  BrowserStorageAdapter.filter_entries (VObj []) entries = inr entries.
Proof.
  induction entries as [|[k v] r IH]; [done|].
  cbn [BrowserStorageAdapter.filter_entries].
  rewrite matches_empty. cbn [bind_exn]. rewrite IH. reflexivity.
Qed.

(** Browser adapter: one record per own property of the collection
    object, in enumeration order. *)
Lemma browser_query_empty collection options a idb :
  BrowserStorageAdapter.use_indexedDB options = inr idb ->
  BrowserStorageAdapter.query collection (VObj []) options a
  = inr (VArr (map BrowserStorageAdapter.record_of
                 (own (BrowserStorageAdapter.collection_data collection
                         (BrowserStorageAdapter.storage idb a))))).
Proof.
  intros Ho. unfold BrowserStorageAdapter.query. rewrite Ho. simpl.
  rewrite browser_filter_empty. reflexivity.
Qed.

Lemma nodejs_collection_files c listing :
  NodeJSStorageAdapter.collection_files (VStr c) listing
  = inr (filter (fun f => starts_with (c +:+ "_") f = true) listing).
Proof.
  induction listing as [|f r IH]; simpl; [done|].
  rewrite IH. simpl. rewrite filter_cons.
  destruct (starts_with (c +:+ "_") f); by case_decide.
Qed.

(** File adapter: one record per listed file of the collection that can be
    read and holds a JSON text, in the order of the directory listing. *)
Lemma nodejs_query_empty c options a listing :
  NodeJSStorageAdapter.readdirSync a = inr listing ->
  NodeJSStorageAdapter.query (VStr c) (VObj []) options a
  = inr (VArr (omap (json_record a (c +:+ "_")) listing)).
Proof.
  intros Hl. unfold NodeJSStorageAdapter.query. rewrite Hl. cbn [bind_exn].
  rewrite nodejs_collection_files. cbn [bind_exn to_string].
  set (p := c +:+ "_").
  assert (H : concat (map (NodeJSStorageAdapter.visit a p (VObj []))
                       (filter (fun f => starts_with p f = true) listing))
              = omap (json_record a p) listing).
  { clear Hl. induction listing as [|f r IH]; [done|].
    rewrite filter_cons. unfold json_record in *. simpl.
    destruct (starts_with p f) eqn:E.
    - case_decide; [|done]. simpl. rewrite IH.
      unfold NodeJSStorageAdapter.visit.
      destruct (NodeJSStorageAdapter.readFileSync _ a) as [e|[data|]]; done.
    - case_decide; [done|]. by rewrite IH. }
  rewrite <- H.
  by destruct (filter _ _).
Qed.

(** React Native adapter: one record per item of the collection, provided
    every item of the collection holds a text. *)
Lemma react_native_for_each_empty prefix items results :
  Forall (fun it => starts_with prefix it.1 = true -> is_Some it.2) items ->
  ReactNativeStorageAdapter.for_each prefix (VObj []) items results
  = inr (results ++
         omap (fun it => if starts_with prefix it.1
                         then (fun data =>
                                 key_spread (VStr (remove_first prefix it.1)) data)
                                <$> it.2
                         else None) items).
Proof.
  intros H. revert results.
  induction H as [|[k v] r Hx Hr IH]; intros results; simpl.
  - by rewrite app_nil_r.
  - destruct (starts_with prefix k) eqn:E; simpl in *.
    + destruct (Hx E) as [data ->]. simpl.
      rewrite IH. by rewrite <- app_assoc.
    + apply IH.
Qed.

(** C10, where the code departs from it: on the React Native adapter a
    [SET] that carries no value stores [undefined] under the key, and from
    then on every query of that collection, also with the empty predicate,
    throws in [JSON.parse] instead of returning the records; the entry
    [k1], stored before, is still there and is not returned.  The file
    adapter skips what it cannot parse, and the browser adapter returns
    both records. *)
Theorem react_native_query_after_set_without_value :
  let options := VObj [] in
  let a1 := (ReactNativeStorageAdapter.set (VStr "c") (VStr "k1")
               (VObj [("x", VNum 1)]) options 0 ReactNativeStorageAdapter.new).2 in
  let a2 := (ReactNativeStorageAdapter.set (VStr "c") (VStr "k2")
               VUndefined options 0 a1).2 in
  let b1 := (BrowserStorageAdapter.set (VStr "c") (VStr "k1")
               (VObj [("x", VNum 1)]) options 0 BrowserStorageAdapter.new).2 in
  let b2 := (BrowserStorageAdapter.set (VStr "c") (VStr "k2")
               VUndefined options 0 b1).2 in
  ReactNativeStorageAdapter.storage a2
    = [("c:k1", Some (VObj [("x", VNum 1)])); ("c:k2", None)]
  /\ ReactNativeStorageAdapter.get (VStr "c") (VStr "k1") options a2
     = inr (VObj [("x", VNum 1)])
  /\ ReactNativeStorageAdapter.query (VStr "c") (VObj []) options a1
     = inr (VArr [VObj [("key", VStr "k1"); ("x", VNum 1)]])
  /\ ReactNativeStorageAdapter.query (VStr "c") (VObj []) options a2
     = inl (SyntaxError "Unexpected token u in JSON at position 0")
  /\ BrowserStorageAdapter.query (VStr "c") (VObj []) options b2
     = inr (VArr [ VObj [("key", VStr "k1"); ("x", VNum 1)];
                   VObj [("key", VStr "k2")] ])
  /\ Server.reactNative
       (Scenario.after
          (Server.handleMessage 1
             (Scenario.frame "SET" 2
                (VObj [("collection", VStr "c"); ("key", VStr "k2")])))
          (Scenario.after
             (Server.handleMessage 1
                (Scenario.frame "SET" 1
                   (Scenario.entry "c" "k1" (VObj [("x", VNum 1)]))))
             Scenario.react_native_session))
     = a2.
Proof. repeat split; vm_compute; reflexivity. Qed.

End EmptyQuery.

(** ** The message handler *)

Section HandleMessage.
Import Js Adapters Server.

(** C4, where the code departs from it: for a frame that is not JSON the
    [catch] block of [handleMessage] logs the error and then evaluates
    [JSON.parse(data).requestId] for the envelope it is about to send; that
    second parse throws again, out of the handler.  No envelope is sent and
    the socket is not touched, but the promise of the handler is rejected
    with the [SyntaxError]. *)
Theorem handleMessage_not_json (ws : nat) (w : World) :
  handleMessage ws NotJson w
  = (Thrown parse_error,
     with_console
       (console w ++ [console_error "Error handling message:" parse_error]) w).
Proof. reflexivity. Qed.

Lemma get_member_prop v k :
  v ≠ VUndefined -> v ≠ VNull -> get_member v k = inr (prop v k).
Proof. intros H1 H2. unfold prop. by destruct v. Qed.

Lemma destructure_ok name v first w :
  v ≠ VUndefined -> v ≠ VNull -> destructure name v first w = (Returned tt, w).
Proof. intros H1 H2. by destruct v. Qed.

(** The document of an [ERROR] envelope: the request id is there when
    the request had one. *)
Lemma json_image_error_envelope requestId message now :
  json_image (error_envelope requestId message now)
  = Some (VObj (("type", VStr "ERROR")
                :: match json_image requestId with
                   | Some r => [("requestId", r)]
                   | None => []
                   end
                ++ [ ("success", VBool false); ("error", VStr message);
                     ("timestamp", VNum now) ])).
Proof. unfold error_envelope. simpl. by destruct (json_image requestId). Qed.

Lemma json_image_response type requestId result now :
  json_image (response type requestId result now)
  = Some (VObj (("type", VStr (type +:+ "_RESPONSE"))
                :: match json_image requestId with
                   | Some r => [("requestId", r)]
                   | None => []
                   end
                ++ ("success", VBool true)
                :: match json_image result with
                   | Some r => [("data", r)]
                   | None => []
                   end
                ++ [("timestamp", VNum now)])).
Proof.
  unfold response. simpl.
  by destruct (json_image requestId), (json_image result).
Qed.

Lemma sendMessage_open ws s message doc w :
  sockets w !! ws = Some s -> readyState s = OPEN ->
  json_image message = Some doc ->
  sendMessage ws message w = (Returned tt, with_sent (sent w ++ [(ws, doc)]) w).
Proof.
  intros Hs Ho Hj. unfold sendMessage, bind, socket.
  rewrite Hs, Ho, Hj. reflexivity.
Qed.

Lemma sendMessage_not_open ws s message w :
  sockets w !! ws = Some s -> readyState s ≠ OPEN ->
  sendMessage ws message w = (Returned tt, w).
Proof.
  intros Hs Ho. unfold sendMessage, bind, socket. rewrite Hs.
  by destruct (readyState s).
Qed.

#[local] Arguments json_image : simpl never.
#[local] Arguments sendMessage : simpl never.
#[local] Arguments error_envelope : simpl never.
#[local] Arguments response : simpl never.

(** The conversion to a string raises one exception only. *)
Lemma to_string_error : forall v e, to_string v = inl e -> e = cannot_convert.
Proof.
  fix IH 1. intros [ | |[]|n|d|s|l|ps|b]; simpl; try discriminate.
  - revert l. fix IHl 1. intros [|x r] e; [discriminate|].
    assert (Hx : forall t,
               match x with
               | VUndefined | VNull => inr ""
               | _ => to_string x
               end = inl t -> t = cannot_convert).
    { pose proof (IH x) as IHx. intros t Ht.
      destruct x; try discriminate Ht; by apply IHx. }
    destruct (match x with
              | VUndefined | VNull => inr ""
              | _ => to_string x
              end) as [t|head] eqn:Hhead.
    + intros [= <-]. by apply Hx.
    + pose proof (IHl r e) as IHr. clear IHl.
      destruct r as [|y r]; [discriminate|].
      match goal with |- match ?X with _ => _ end = _ -> _ =>
        destruct X as [t|tail] end; [|discriminate].
      intros [= ->]. by apply IHr.
  - intros e. destruct (own_has "toString" ps); [|discriminate]. by intros [= <-].
Qed.

(** An envelope whose type has no handler, received on an open socket:
    the message of the [ERROR] envelope is that of the exception, the one
    [handleMessage] throws itself or the one of the template literal that
    writes the type into the log. *)
Lemma handleMessage_no_handler ws s w message :
  sockets w !! ws = Some s ->
  readyState s = OPEN ->
  message ≠ VUndefined -> message ≠ VNull ->
  messageHandlers_get (prop message "type") = None ->
  let text := match to_string (prop message "type") with
              | inr X => "Unknown message type: " +:+ X
              | inl e => message_of e
              end in
  exists w' envelope,
    handleMessage ws (Json message) w = (Returned tt, w')
    /\ sent w' = sent w ++ [(ws, envelope)]
    /\ json_image (error_envelope (prop message "requestId") text (clock w))
       = Some envelope
    /\ sockets w' = sockets w
    /\ activeConnections w' = activeConnections w.
Proof.
  intros Hs Ho Hu Hn Hh. cbv zeta.
  destruct (to_string (prop message "type")) as [e|X] eqn:Ht.
  - pose proof (json_image_error_envelope (prop message "requestId") (message_of e)
                  (clock w)) as Hj.
    eexists _, _. split; [|split; [|split; [exact Hj|]]].
    + unfold handleMessage, try_catch, bind, lift. simpl.
      rewrite (destructure_ok _ _ _ _ Hu Hn). rewrite Ht. simpl.
      rewrite (get_member_prop _ _ Hu Hn). simpl.
      erewrite sendMessage_open; [reflexivity | exact Hs | exact Ho | exact Hj].
    + reflexivity.
    + done.
  - pose proof (json_image_error_envelope (prop message "requestId")
                  ("Unknown message type: " +:+ X) (clock w)) as Hj.
    eexists _, _. split; [|split; [|split; [exact Hj|]]].
    + unfold handleMessage, try_catch, bind, lift. simpl.
      rewrite (destructure_ok _ _ _ _ Hu Hn). rewrite Ht. simpl.
      unfold socket at 1. rewrite Hs, Hh. simpl.
      rewrite (get_member_prop _ _ Hu Hn). simpl.
      erewrite sendMessage_open; [reflexivity | exact Hs | exact Ho | exact Hj].
    + reflexivity.
    + done.
Qed.

(** C7, as the broker has it: an envelope whose type has no handler is
    answered, on the open socket it came from, with one [ERROR] envelope
    that carries the request id of the envelope; the handler returns
    normally and leaves the sockets, and so the connection, as they were.
    The message is [Unknown message type: X], [X] being the type as a
    string, when the type has a string form.  A type that has none, an
    object with a [toString] property of its own, is refused earlier, by
    the template literal that writes it into the log, and the message is
    that of the [TypeError]. *)
Theorem handleMessage_unknown_type (ws : nat) (s : Socket) (w : World)
    (message : Value) :
  sockets w !! ws = Some s ->
  readyState s = OPEN ->
  message ≠ VUndefined -> message ≠ VNull ->
  messageHandlers_get (prop message "type") = None ->
  exists w' envelope,
    handleMessage ws (Json message) w = (Returned tt, w')
    /\ sent w' = sent w ++ [(ws, envelope)]
    /\ prop envelope "type" = VStr "ERROR"
    /\ (forall X, to_string (prop message "type") = inr X ->
          json_image (error_envelope (prop message "requestId")
                        ("Unknown message type: " +:+ X) (clock w)) = Some envelope
          /\ prop envelope "error" = VStr ("Unknown message type: " +:+ X))
    /\ (forall e, to_string (prop message "type") = inl e ->
          json_image (error_envelope (prop message "requestId")
                        "Cannot convert object to primitive value" (clock w))
          = Some envelope
          /\ prop envelope "error" = VStr "Cannot convert object to primitive value")
    /\ (forall r, json_image (prop message "requestId") = Some r ->
                  prop envelope "requestId" = r)
    /\ sockets w' = sockets w
    /\ activeConnections w' = activeConnections w.
Proof.
  intros Hs Ho Hu Hn Hh.
  destruct (handleMessage_no_handler ws s w message Hs Ho Hu Hn Hh)
    as (w' & envelope & Hrun & Hsent & Hj & Hsockets & Hconnections).
  exists w', envelope.
  rewrite json_image_error_envelope in Hj. injection Hj as <-.
  split; [exact Hrun|]. split; [exact Hsent|]. split; [reflexivity|].
  split; [|split; [|split; [|by split]]].
  - intros X HX. rewrite HX, json_image_error_envelope. split; [reflexivity|].
    by destruct (json_image (prop message "requestId")).
  - intros e He. rewrite He, json_image_error_envelope.
    rewrite (to_string_error _ _ He). split; [reflexivity|].
    by destruct (json_image (prop message "requestId")).
  - intros r ->. reflexivity.
Qed.

Lemma handleMessage_unknown_type_witness :
  exists w' envelope,
    handleMessage 1 (Json (VObj [("type", VStr "RENAME"); ("requestId", VNum 7)]))
      Scenario.one_session = (Returned tt, w')
    /\ sent w' = sent Scenario.one_session ++ [(1%nat, envelope)]
    /\ prop envelope "type" = VStr "ERROR"
    /\ (forall X,
          to_string (prop (VObj [("type", VStr "RENAME"); ("requestId", VNum 7)]) "type")
          = inr X ->
          json_image
            (error_envelope
               (prop (VObj [("type", VStr "RENAME"); ("requestId", VNum 7)]) "requestId")
               ("Unknown message type: " +:+ X) (clock Scenario.one_session))
          = Some envelope
          /\ prop envelope "error" = VStr ("Unknown message type: " +:+ X))
    /\ (forall e,
          to_string (prop (VObj [("type", VStr "RENAME"); ("requestId", VNum 7)]) "type")
          = inl e ->
          json_image
            (error_envelope
               (prop (VObj [("type", VStr "RENAME"); ("requestId", VNum 7)]) "requestId")
               "Cannot convert object to primitive value" (clock Scenario.one_session))
          = Some envelope
          /\ prop envelope "error" = VStr "Cannot convert object to primitive value")
    /\ (forall r,
          json_image
            (prop (VObj [("type", VStr "RENAME"); ("requestId", VNum 7)]) "requestId")
          = Some r ->
          prop envelope "requestId" = r)
    /\ sockets w' = sockets Scenario.one_session
    /\ activeConnections w' = activeConnections Scenario.one_session.
Proof.
  apply (handleMessage_unknown_type 1 (mkSocket "browser" "client_1" ∅ true OPEN)
           Scenario.one_session
           (VObj [("type", VStr "RENAME"); ("requestId", VNum 7)]));
    try reflexivity; discriminate.
Defined.

(** The claim C7 has the message [Unknown message type: X] for every type
    without a handler.  The type of this envelope is an object with a
    [toString] property of its own: it has no handler and no string form, and
    the [ERROR] envelope carries the message of the [TypeError] instead. *)
Lemma unknown_type_without_string_form :
  let message := VObj [ ("type", VObj [("toString", VNum 1)]);
                        ("requestId", VNum 7) ] in
  messageHandlers_get (prop message "type") = None
  /\ sent (Scenario.after (handleMessage 1 (Json message)) Scenario.one_session)
     = sent Scenario.one_session
       ++ [(1%nat, VObj [ ("type", VStr "ERROR");
                          ("requestId", VNum 7);
                          ("success", VBool false);
                          ("error", VStr "Cannot convert object to primitive value");
                          ("timestamp", VNum 0) ])]
  /\ forall X,
       "Cannot convert object to primitive value" <> "Unknown message type: " +:+ X.
Proof.
  split; [reflexivity|]. split; [vm_compute; reflexivity|].
  intros X. discriminate.
Qed.

Lemma handler_unsubscribe fuel payload storageAdapter ws :
  handler fuel UNSUBSCRIBE payload storageAdapter ws
  = handleUnsubscribe payload storageAdapter ws.
Proof. by destruct fuel. Qed.

Lemma handler_subscribe fuel payload storageAdapter ws :
  handler fuel SUBSCRIBE payload storageAdapter ws
  = handleSubscribe payload storageAdapter ws.
Proof. by destruct fuel. Qed.

Lemma handler_set fuel payload storageAdapter ws :
  handler fuel SET payload storageAdapter ws
  = handleSet payload storageAdapter ws.
Proof. by destruct fuel. Qed.

Lemma handler_delete fuel payload storageAdapter ws :
  handler fuel DELETE payload storageAdapter ws
  = handleDelete payload storageAdapter ws.
Proof. by destruct fuel. Qed.

(** Removing a key the set does not hold leaves the socket as it was. *)
Lemma unsubscribe_absent ws s key (m : gmap nat Socket) :
  m !! ws = Some s -> key ∉ subscriptions s ->
  alter (fun s => mkSocket (platform s) (clientId s)
                           (subscriptions s ∖ {[key]}) (isAlive s) (readyState s))
        ws m = m.
Proof.
  intros Hs Hk. apply alter_id. intros x Hx. rewrite Hs in Hx.
  injection Hx as <-. destruct s as [p c subs a r]. simpl in *.
  f_equal. apply difference_disjoint_L. set_solver.
Qed.

(** C5, as the broker has it: an [UNSUBSCRIBE] for a pair the session does
    not hold is answered with [UNSUBSCRIBE_RESPONSE], [success] true and
    the data [{ unsubscribed: "collection:pattern" }], and the
    subscription set of the session, like every socket, is unchanged. *)
Theorem unsubscribe_not_subscribed (ws : nat) (s : Socket) (w : World)
    (message : Value) (key : string) :
  sockets w !! ws = Some s ->
  readyState s = OPEN ->
  prop message "type" = VStr "UNSUBSCRIBE" ->
  prop message "payload" ≠ VUndefined -> prop message "payload" ≠ VNull ->
  subscriptionKey_of (prop (prop message "payload") "collection")
                     (prop (prop message "payload") "pattern") = inr key ->
  key ∉ subscriptions s ->
  exists w' envelope,
    handleMessage ws (Json message) w = (Returned tt, w')
    /\ sent w' = sent w ++ [(ws, envelope)]
    /\ prop envelope "type" = VStr "UNSUBSCRIBE_RESPONSE"
    /\ prop envelope "success" = VBool true
    /\ prop envelope "data" = VObj [("unsubscribed", VStr key)]
    /\ (forall r, json_image (prop message "requestId") = Some r ->
                  prop envelope "requestId" = r)
    /\ sockets w' = sockets w.
Proof.
  intros Hs Ho Ht Hpu Hpn Hk Habs.
  assert (Hu : message ≠ VUndefined) by (intros ->; discriminate Ht).
  assert (Hn : message ≠ VNull) by (intros ->; discriminate Ht).
  pose proof (json_image_response "UNSUBSCRIBE" (prop message "requestId")
                (VObj [("unsubscribed", VStr key)]) (clock w)) as Hj.
  eexists _, _. split.
  - unfold handleMessage, try_catch, bind, lift. simpl.
    rewrite (destructure_ok _ _ _ _ Hu Hn). rewrite Ht. simpl.
    unfold socket at 1. rewrite Hs. simpl.
    rewrite handler_unsubscribe. unfold handleUnsubscribe, bind, lift.
    rewrite (destructure_ok _ _ _ _ Hpu Hpn). rewrite Hk. simpl.
    rewrite (unsubscribe_absent ws s key _ Hs Habs).
    unfold socket at 1. simpl. rewrite Hs. simpl.
    erewrite sendMessage_open; [reflexivity | exact Hs | exact Ho | exact Hj].
  - split; [reflexivity|]. split; [reflexivity|]. split.
    + by destruct (json_image (prop message "requestId")).
    + split; [by destruct (json_image (prop message "requestId"))|].
      split; [|reflexivity]. intros r ->. reflexivity.
Qed.

Lemma unsubscribe_not_subscribed_witness :
  exists w' envelope,
    handleMessage 1 (Scenario.frame "UNSUBSCRIBE" 4 (Scenario.pair "cart" "u1"))
      Scenario.one_session = (Returned tt, w')
    /\ sent w' = sent Scenario.one_session ++ [(1%nat, envelope)]
    /\ prop envelope "type" = VStr "UNSUBSCRIBE_RESPONSE"
    /\ prop envelope "success" = VBool true
    /\ prop envelope "data" = VObj [("unsubscribed", VStr "cart:u1")]
    /\ (forall r,
          json_image
            (prop (VObj [ ("type", VStr "UNSUBSCRIBE"); ("requestId", VNum 4);
                          ("payload", Scenario.pair "cart" "u1");
                          ("timestamp", VNum 0) ]) "requestId") = Some r ->
          prop envelope "requestId" = r)
    /\ sockets w' = sockets Scenario.one_session.
Proof.
  apply (unsubscribe_not_subscribed 1 (mkSocket "browser" "client_1" ∅ true OPEN)
           Scenario.one_session
           (VObj [ ("type", VStr "UNSUBSCRIBE"); ("requestId", VNum 4);
                   ("payload", Scenario.pair "cart" "u1");
                   ("timestamp", VNum 0) ]) "cart:u1");
    try reflexivity; discriminate.
Defined.

(** The claim C5 asks for a failure here: the session holds no
    subscription at all, and the answer to its [UNSUBSCRIBE] is a
    response with [success] true. *)
Lemma unsubscribe_not_subscribed_is_answered_with_success :
  (forall s, sockets Scenario.one_session !! 1%nat = Some s ->
             "cart:u1" ∉ subscriptions s)
  /\ sent (Scenario.after
             (handleMessage 1 (Scenario.frame "UNSUBSCRIBE" 4
                                 (Scenario.pair "cart" "u1")))
             Scenario.one_session)
     = sent Scenario.one_session
       ++ [(1%nat, VObj [ ("type", VStr "UNSUBSCRIBE_RESPONSE");
                          ("requestId", VNum 4);
                          ("success", VBool true);
                          ("data", VObj [("unsubscribed", VStr "cart:u1")]);
                          ("timestamp", VNum 0) ])].
Proof.
  split.
  - intros s Hs. vm_compute in Hs. injection Hs as <-. apply not_elem_of_empty.
  - vm_compute. reflexivity.
Qed.
End HandleMessage.

(** ** Fan-out of a mutation *)

Section FanOut.
Import Js Adapters Server.

Lemma json_image_update collection key operation value now :
  json_image (subscription_update collection key operation value now)
  = Some (update_document collection key operation value now).
Proof. reflexivity. Qed.

Lemma with_sent_self w : with_sent (sent w) w = w.
Proof. by destruct w. Qed.

Lemma notify_one_run sk wk collection key operation value origin ws s w :
  sockets w !! ws = Some s ->
  notify_one sk wk collection key operation value origin ws w
  = (Returned tt,
     with_sent (sent w ++
                if recipient (sockets w) sk wk origin ws
                then [(ws, update_document collection key operation value (clock w))]
                else []) w).
Proof.
  intros Hs. unfold notify_one, recipient, bind, socket. rewrite Hs.
  destruct (String.eqb (clientId s) origin); simpl.
  { by rewrite app_nil_r, with_sent_self. }
  destruct (has sk (subscriptions s) || has wk (subscriptions s)); simpl.
  2: { by rewrite app_nil_r, with_sent_self. }
  unfold sendMessage, bind, socket, Date_now, gets. simpl. rewrite Hs.
  destruct (readyState s); simpl; by rewrite ?app_nil_r, ?with_sent_self.
Qed.

Lemma forEach_notify sk wk collection key operation value origin connections :
  forall w,
    (forall ws, ws ∈ connections -> is_Some (sockets w !! ws)) ->
    forEach connections
      (notify_one sk wk collection key operation value origin) w
    = (Returned tt,
       with_sent (sent w ++
                  fanout (sockets w) sk wk origin
                    (update_document collection key operation value (clock w))
                    connections) w).
Proof.
  induction connections as [|ws rest IH]; intros w Hw.
  - simpl. by rewrite app_nil_r, with_sent_self.
  - destruct (Hw ws) as [s Hs]; [by left|].
    cbn [forEach]. unfold bind at 1.
    rewrite (notify_one_run _ _ _ _ _ _ _ _ _ _ Hs).
    rewrite IH.
    + simpl. by rewrite <- app_assoc.
    + intros x Hx. simpl. apply Hw. by right.
Qed.

Lemma subscriptionKey_wildcard collection key sk :
  subscriptionKey_of collection key = inr sk ->
  exists wk, subscriptionKey_of collection (VStr "*") = inr wk.
Proof.
  unfold subscriptionKey_of, bind_exn.
  destruct (to_string collection); [discriminate|]. eauto.
Qed.

(** [notifySubscribers] as one step of the world. *)
Lemma notifySubscribers_run collection key operation value origin sk wk w :
  subscriptionKey_of collection key = inr sk ->
  subscriptionKey_of collection (VStr "*") = inr wk ->
  (forall ws, ws ∈ activeConnections w -> is_Some (sockets w !! ws)) ->
  notifySubscribers collection key operation value origin w
  = (Returned tt,
     with_sent (sent w ++
                fanout (sockets w) sk wk origin
                  (update_document collection key operation value (clock w))
                  (activeConnections w)) w).
Proof.
  intros Hsk Hwk Hw. unfold notifySubscribers, bind, lift, gets.
  rewrite Hsk, Hwk. simpl. by apply forEach_notify.
Qed.

(** The frames of a fan-out that go to one socket: one when it is a
    recipient among the connections, none otherwise. *)
Lemma fanout_to m sk wk origin doc connections ws :
  NoDup connections ->
  filter (fun f => f.1 = ws) (fanout m sk wk origin doc connections)
  = if bool_decide (ws ∈ connections) && recipient m sk wk origin ws
    then [(ws, doc)] else [].
Proof.
  induction 1 as [|x rest Hx Hnd IH]; [done|].
  unfold fanout in *. cbn [flat_map]. rewrite filter_app, IH.
  destruct (decide (x = ws)) as [->|Hne].
  - rewrite (bool_decide_eq_false_2 (ws ∈ rest)) by done.
    rewrite (bool_decide_eq_true_2 (ws ∈ ws :: rest)) by (by left).
    simpl. destruct (recipient m sk wk origin ws); simpl; [|done].
    rewrite filter_cons. simpl. destruct (decide (ws = ws)); [reflexivity | done].
  - assert (Hf : filter (fun f : nat * Value => f.1 = ws)
                   (if recipient m sk wk origin x then [(x, doc)] else []) = []).
    { destruct (recipient m sk wk origin x); [|done].
      rewrite filter_cons. simpl. destruct (decide (x = ws)); [done | reflexivity]. }
    rewrite Hf. simpl.
    assert (Hb : bool_decide (ws ∈ x :: rest) = bool_decide (ws ∈ rest)).
    { apply bool_decide_ext. rewrite elem_of_cons.
      split; [intros [E|E]; [by subst | done] | by right]. }
    by rewrite Hb.
Qed.

Lemma call_adapter_frame storageAdapter method f w :
  let w1 := (call_adapter storageAdapter method f w).2 in
  sockets w1 = sockets w /\ activeConnections w1 = activeConnections w
  /\ sent w1 = sent w /\ clock w1 = clock w /\ console w1 = console w.
Proof. destruct storageAdapter as [[]|]; simpl; auto. Qed.

Lemma destructure_world name v first w r w0 :
  destructure name v first w = (r, w0) -> w0 = w.
Proof. destruct v; simpl; unfold throw, ret; congruence. Qed.

Lemma notifySubscribers_returned collection key operation value origin w w' :
  notifySubscribers collection key operation value origin w = (Returned tt, w') ->
  exists sk wk,
    subscriptionKey_of collection key = inr sk
    /\ subscriptionKey_of collection (VStr "*") = inr wk.
Proof.
  unfold notifySubscribers, bind, lift.
  destruct (subscriptionKey_of collection key) as [e|sk] eqn:Hsk; [discriminate|].
  destruct (subscriptionKey_wildcard _ _ _ Hsk) as [wk Hwk]. eauto.
Qed.

(** A [SET] that returns has called the adapter and then, once, the
    fan-out with the identity of the sender. *)
Lemma handleSet_returned payload storageAdapter origin o w result w' :
  sockets w !! origin = Some o ->
  handleSet payload storageAdapter origin w = (Returned result, w') ->
  exists w1,
    sockets w1 = sockets w /\ activeConnections w1 = activeConnections w
    /\ sent w1 = sent w /\ clock w1 = clock w
    /\ notifySubscribers (prop payload "collection") (prop payload "key") "SET"
         (prop payload "value") (clientId o) w1 = (Returned tt, w').
Proof.
  intros Ho. unfold handleSet. unfold bind at 1.
  destruct (destructure "payload" payload "collection" w) as [[[]|e|] w0] eqn:Hd;
    try discriminate.
  apply destructure_world in Hd as ->.
  unfold bind at 1, Date_now, gets. unfold bind at 1.
  match goal with |- context [call_adapter ?a ?m ?f w] =>
    pose proof (call_adapter_frame a m f w) as Hf;
    destruct (call_adapter a m f w) as [[res|e|] w1] end; try discriminate.
  simpl in Hf. destruct Hf as (Hs & Ha & Hse & Hc & _).
  unfold bind at 1, socket. rewrite Hs, Ho. unfold bind at 1.
  destruct (notifySubscribers _ _ _ _ _ w1) as [[[]|e|] w2] eqn:Hn; try discriminate.
  unfold ret. intros [= <- <-]. exists w1. auto.
Qed.

Lemma handleDelete_returned payload storageAdapter origin o w result w' :
  sockets w !! origin = Some o ->
  handleDelete payload storageAdapter origin w = (Returned result, w') ->
  exists w1,
    sockets w1 = sockets w /\ activeConnections w1 = activeConnections w
    /\ sent w1 = sent w /\ clock w1 = clock w
    /\ notifySubscribers (prop payload "collection") (prop payload "key") "DELETE"
         VNull (clientId o) w1 = (Returned tt, w').
Proof.
  intros Ho. unfold handleDelete. unfold bind at 1.
  destruct (destructure "payload" payload "collection" w) as [[[]|e|] w0] eqn:Hd;
    try discriminate.
  apply destructure_world in Hd as ->.
  unfold bind at 1.
  match goal with |- context [call_adapter ?a ?m ?f w] =>
    pose proof (call_adapter_frame a m f w) as Hf;
    destruct (call_adapter a m f w) as [[res|e|] w1] end; try discriminate.
  simpl in Hf. destruct Hf as (Hs & Ha & Hse & Hc & _).
  unfold bind at 1, socket. rewrite Hs, Ho. unfold bind at 1.
  destruct (notifySubscribers _ _ _ _ _ w1) as [[[]|e|] w2] eqn:Hn; try discriminate.
  unfold ret. intros [= <- <-]. exists w1. auto.
Qed.

Lemma recipient_receives w o sk wk ws s :
  sockets w !! ws = Some s ->
  bool_decide (ws ∈ activeConnections w)
  && recipient (sockets w) sk wk (clientId o) ws = true
  <-> receives w o sk wk ws s.
Proof.
  intros Hs. unfold recipient, receives, has. rewrite Hs.
  rewrite !andb_true_iff, orb_true_iff, negb_true_iff, !bool_decide_eq_true.
  rewrite String.eqb_neq.
  assert (Hr : ReadyState_eqb (readyState s) OPEN = true <-> readyState s = OPEN)
    by (destruct (readyState s); simpl; split; congruence).
  rewrite Hr. tauto.
Qed.

(** A [SET] or [DELETE] that returns has appended the frames of one
    fan-out, computed on the sockets as they were, and nothing else. *)
Lemma handler_fan_out (op : Opcode) (operation : string) (fuel : nat)
    (payload : Value) (storageAdapter : option AdapterRef) (origin : nat)
    (o : Socket) (w w' : World) (result : Value) :
  (op = SET /\ operation = "SET") \/ (op = DELETE /\ operation = "DELETE") ->
  sockets w !! origin = Some o ->
  (forall ws, ws ∈ activeConnections w -> is_Some (sockets w !! ws)) ->
  handler fuel op payload storageAdapter origin w = (Returned result, w') ->
  exists sk wk,
    subscriptionKey_of (prop payload "collection") (prop payload "key") = inr sk
    /\ subscriptionKey_of (prop payload "collection") (VStr "*") = inr wk
    /\ sockets w' = sockets w
    /\ sent w'
       = sent w ++ fanout (sockets w) sk wk (clientId o)
                     (update_document (prop payload "collection") (prop payload "key")
                        operation (announced op payload) (clock w))
                     (activeConnections w).
Proof.
  intros Hop Ho Hw Hrun.
  assert (Hn : exists w1,
             sockets w1 = sockets w /\ activeConnections w1 = activeConnections w
             /\ sent w1 = sent w /\ clock w1 = clock w
             /\ notifySubscribers (prop payload "collection") (prop payload "key")
                  operation (announced op payload) (clientId o) w1
                = (Returned tt, w')).
  { destruct Hop as [[-> ->]|[-> ->]].
    - rewrite handler_set in Hrun. by eapply handleSet_returned.
    - rewrite handler_delete in Hrun. by eapply handleDelete_returned. }
  destruct Hn as (w1 & Hs & Ha & Hse & Hc & Hnotify).
  destruct (notifySubscribers_returned _ _ _ _ _ _ _ Hnotify) as (sk & wk & Hsk & Hwk).
  rewrite (notifySubscribers_run _ _ _ _ _ sk wk) in Hnotify; [|done|done|].
  2: { intros ws. rewrite Ha, Hs. apply Hw. }
  injection Hnotify as <-.
  exists sk, wk. split; [done|]. split; [done|]. split; [exact Hs|].
  simpl. by rewrite Hse, Hs, Ha, Hc.
Qed.

(** C1, as the broker has it: after a [SET] or [DELETE] on (collection, key)
    that returned, a session of the active connections has been sent a
    [SUBSCRIPTION_UPDATE] exactly when its socket is open, its client id is
    not that of the originator, and its subscription set holds
    [collection:key] or [collection:*]; it has then been sent exactly one,
    also when it holds both keys. *)
Theorem fan_out_of_a_mutation (op : Opcode) (operation : string) (fuel : nat)
    (payload : Value) (storageAdapter : option AdapterRef) (origin : nat)
    (o : Socket) (w w' : World) (result : Value) :
  (op = SET /\ operation = "SET") \/ (op = DELETE /\ operation = "DELETE") ->
  sockets w !! origin = Some o ->
  (forall ws, ws ∈ activeConnections w -> is_Some (sockets w !! ws)) ->
  NoDup (activeConnections w) ->
  handler fuel op payload storageAdapter origin w = (Returned result, w') ->
  exists sk wk new,
    subscriptionKey_of (prop payload "collection") (prop payload "key") = inr sk
    /\ subscriptionKey_of (prop payload "collection") (VStr "*") = inr wk
    /\ sent w' = sent w ++ new
    /\ sockets w' = sockets w
    /\ forall ws s,
         sockets w !! ws = Some s ->
         (receives w o sk wk ws s ->
          filter (fun f => f.1 = ws) new
          = [(ws, update_document (prop payload "collection") (prop payload "key")
                    operation (announced op payload) (clock w))])
         /\ (~ receives w o sk wk ws s -> filter (fun f => f.1 = ws) new = []).
Proof.
  intros Hop Ho Hw Hnd Hrun.
  destruct (handler_fan_out op operation fuel payload storageAdapter origin o
              w w' result Hop Ho Hw Hrun) as (sk & wk & Hsk & Hwk & Hs & Hsent).
  eexists sk, wk, _. split; [done|]. split; [done|]. split; [exact Hsent|].
  split; [exact Hs|].
  intros ws s Hws. rewrite fanout_to by done.
  pose proof (recipient_receives w o sk wk ws s Hws) as Hr.
  destruct (bool_decide (ws ∈ activeConnections w)
            && recipient (sockets w) sk wk (clientId o) ws).
  - split; [done|]. intros Hnot. exfalso. apply Hnot, Hr. reflexivity.
  - split; [|done]. intros Hyes. apply Hr in Hyes. discriminate.
Qed.

Lemma fan_out_of_a_mutation_witness :
  exists sk wk new,
    subscriptionKey_of (prop (Scenario.entry "cart" "u1" (VNum 7)) "collection")
                       (prop (Scenario.entry "cart" "u1" (VNum 7)) "key") = inr sk
    /\ subscriptionKey_of (prop (Scenario.entry "cart" "u1" (VNum 7)) "collection")
                          (VStr "*") = inr wk
    /\ sent (Scenario.after
               (handler 0 SET (Scenario.entry "cart" "u1" (VNum 7)) (Some ABrowser) 2)
               Scenario.subscribed)
       = sent Scenario.subscribed ++ new
    /\ sockets (Scenario.after
                  (handler 0 SET (Scenario.entry "cart" "u1" (VNum 7)) (Some ABrowser) 2)
                  Scenario.subscribed)
       = sockets Scenario.subscribed
    /\ forall ws s,
         sockets Scenario.subscribed !! ws = Some s ->
         (receives Scenario.subscribed (mkSocket "browser" "client_2" ∅ true OPEN)
                   sk wk ws s ->
          filter (fun f => f.1 = ws) new
          = [(ws, update_document
                    (prop (Scenario.entry "cart" "u1" (VNum 7)) "collection")
                    (prop (Scenario.entry "cart" "u1" (VNum 7)) "key")
                    "SET" (announced SET (Scenario.entry "cart" "u1" (VNum 7)))
                    (clock Scenario.subscribed))])
         /\ (~ receives Scenario.subscribed (mkSocket "browser" "client_2" ∅ true OPEN)
                        sk wk ws s ->
             filter (fun f => f.1 = ws) new = []).
Proof.
  apply (fan_out_of_a_mutation SET "SET" 0 (Scenario.entry "cart" "u1" (VNum 7))
           (Some ABrowser) 2 (mkSocket "browser" "client_2" ∅ true OPEN)
           Scenario.subscribed _
           (VObj [("success", VBool true); ("key", VStr "u1"); ("timestamp", VNum 0)])).
  - left. split; reflexivity.
  - reflexivity.
  - change (activeConnections Scenario.subscribed) with [1%nat; 2%nat].
    intros ws Hws. rewrite !elem_of_cons, elem_of_nil in Hws.
    destruct Hws as [->|[->|[]]]; eexists; reflexivity.
  - change (activeConnections Scenario.subscribed) with [1%nat; 2%nat].
    apply (bool_decide_unpack _). reflexivity.
  - vm_compute. reflexivity.
Defined.

(** The claim C1 does not ask for the socket to be open.  Socket 1 is among
    the active connections, holds [cart:u1] and is not the originator, but it
    has missed a ping and was terminated: the [SET] of session 2 on cart/u1
    is answered to session 2 and announced to nobody. *)
Lemma closing_subscriber_is_not_notified :
  (exists s,
     sockets Scenario.subscriber_closing !! 1%nat = Some s
     /\ 1%nat ∈ activeConnections Scenario.subscriber_closing
     /\ "cart:u1" ∈ subscriptions s
     /\ clientId s ≠ "client_2"
     /\ readyState s = CLOSING)
  /\ sent (Scenario.after
             (handleMessage 2 (Scenario.frame "SET" 9 (Scenario.entry "cart" "u1" (VNum 7))))
             Scenario.subscriber_closing)
     = sent Scenario.subscriber_closing
       ++ [(2%nat, VObj [ ("type", VStr "SET_RESPONSE");
                          ("requestId", VNum 9);
                          ("success", VBool true);
                          ("data", VObj [ ("success", VBool true);
                                          ("key", VStr "u1");
                                          ("timestamp", VNum 0) ]);
                          ("timestamp", VNum 0) ])].
Proof.
  split.
  - exists (mkSocket "browser" "client_1" {["cart:u1"]} false CLOSING).
    split; [vm_compute; reflexivity|].
    split; [change (activeConnections Scenario.subscriber_closing)
              with [1%nat; 2%nat]; by left|].
    split; [cbn [subscriptions]; set_solver|]. split; [discriminate | reflexivity].
  - vm_compute. reflexivity.
Qed.

End FanOut.

(** ** Subscription keys *)

Section Aliasing.
Import Js Adapters Server.

(** [handleSubscribe] as one step of the world: the concatenated key is all
    that reaches the subscription set. *)
Lemma handleSubscribe_run payload storageAdapter ws s key w :
  sockets w !! ws = Some s ->
  payload ≠ VUndefined -> payload ≠ VNull ->
  subscriptionKey_of (prop payload "collection") (prop payload "pattern") = inr key ->
  handleSubscribe payload storageAdapter ws w
  = (Returned (VObj [("subscribed", VStr key)]),
     with_console
       (console w ++ [console_log ("Client " +:+ clientId s +:+ " subscribed to: "
                                   +:+ key)])
       (with_sockets (alter (subscribe_to key) ws (sockets w)) w)).
Proof.
  intros Hs Hu Hn Hk. unfold handleSubscribe, bind, lift.
  rewrite (destructure_ok _ _ _ _ Hu Hn), Hk. simpl.
  unfold socket. simpl. rewrite lookup_alter_eq, Hs. reflexivity.
Qed.

(** C9: a subscription is kept, and matched, as the string
    [collection:pattern] only.  A session that subscribes with the pair
    (c, p) and is open is sent the [SUBSCRIPTION_UPDATE] of a mutation
    another session makes on (c', k), once, exactly when one of the strings
    it holds is [c':k] or [c':*]: the string [c:p] it has just added, or one
    it held before.  So two pairs with the same concatenation, as
    ("a", "b:c") and ("a:b", "c"), are one subscription, and a pair with
    another concatenation is none. *)
Theorem subscription_keys_alias (c p c' k : string) (w w2 : World) (a b : nat)
    (sa sb : Socket) (fuel : nat) (op : Opcode) (operation : string)
    (payload result : Value) (storageAdapter storageAdapter' : option AdapterRef) :
  sockets w !! a = Some sa -> readyState sa = OPEN -> a ∈ activeConnections w ->
  sockets w !! b = Some sb -> clientId sa ≠ clientId sb ->
  (forall ws, ws ∈ activeConnections w -> is_Some (sockets w !! ws)) ->
  NoDup (activeConnections w) ->
  (op = SET /\ operation = "SET") \/ (op = DELETE /\ operation = "DELETE") ->
  prop payload "collection" = VStr c' -> prop payload "key" = VStr k ->
  handler fuel op payload storageAdapter b
    (Scenario.after (handleSubscribe (Scenario.pair c p) storageAdapter' a) w)
  = (Returned result, w2) ->
  let held := c +:+ ":" +:+ p in
  let key_of_entry := c' +:+ ":" +:+ k in
  let key_of_collection := c' +:+ ":" +:+ "*" in
  exists new,
    sent w2 = sent w ++ new
    /\ (held = key_of_entry \/ held = key_of_collection
        \/ key_of_entry ∈ subscriptions sa \/ key_of_collection ∈ subscriptions sa ->
        filter (fun f => f.1 = a) new
        = [(a, update_document (VStr c') (VStr k) operation (announced op payload)
                 (clock w))])
    /\ (held ≠ key_of_entry -> held ≠ key_of_collection ->
        key_of_entry ∉ subscriptions sa -> key_of_collection ∉ subscriptions sa ->
        filter (fun f => f.1 = a) new = []).
Proof.
  intros Ha Hopen Hin Hb Hids Hw Hnd Hop Hc Hk Hrun. cbv zeta.
  unfold Scenario.after in Hrun.
  rewrite (handleSubscribe_run _ _ a sa (c +:+ ":" +:+ p)) in Hrun;
    [|done|discriminate|discriminate|reflexivity].
  simpl in Hrun.
  set (w1 := with_console _ _) in Hrun.
  assert (Hab : b ≠ a) by (intros ->; rewrite Ha in Hb; congruence).
  assert (Hb1 : sockets w1 !! b = Some sb).
  { subst w1. simpl. by rewrite lookup_alter_ne. }
  assert (Ha1 : sockets w1 !! a = Some (subscribe_to (c +:+ ":" +:+ p) sa)).
  { subst w1. simpl. by rewrite lookup_alter_eq, Ha. }
  destruct (handler_fan_out op operation fuel payload storageAdapter b sb
              w1 w2 result Hop Hb1) as (sk & wk & Hsk & Hwk & _ & Hsent);
    [| exact Hrun |].
  { intros ws Hws. subst w1. simpl in *.
    destruct (decide (ws = a)) as [->|Hne].
    - rewrite lookup_alter_eq, Ha. by eexists.
    - rewrite lookup_alter_ne by done. by apply Hw. }
  rewrite Hc, Hk in Hsk, Hsent. rewrite Hc in Hwk.
  injection Hsk as <-. injection Hwk as <-.
  eexists. split; [exact Hsent|].
  rewrite fanout_to by exact Hnd.
  split.
  - intros Hheld.
    assert (Hr : bool_decide (a ∈ activeConnections w1)
                 && recipient (sockets w1) (c' +:+ ":" +:+ k) (c' +:+ ":" +:+ "*")
                      (clientId sb) a = true).
    { apply (recipient_receives w1 sb _ _ a _ Ha1).
      repeat split; [exact Hin | exact Hopen | exact Hids |]. simpl.
      destruct Hheld as [He|[He|[He|He]]].
      - left. rewrite <- He. apply elem_of_union_l. by apply elem_of_singleton.
      - right. rewrite <- He. apply elem_of_union_l. by apply elem_of_singleton.
      - left. by apply elem_of_union_r.
      - right. by apply elem_of_union_r. }
    by rewrite Hr.
  - intros H1 H2 H3 H4.
    assert (Hr : bool_decide (a ∈ activeConnections w1)
                 && recipient (sockets w1) (c' +:+ ":" +:+ k) (c' +:+ ":" +:+ "*")
                      (clientId sb) a = false).
    { apply not_true_iff_false. intros Hr.
      apply (recipient_receives w1 sb _ _ a _ Ha1) in Hr.
      destruct Hr as (_ & _ & _ & [He|He]); simpl in He;
        apply elem_of_union in He as [He|He];
        try (apply elem_of_singleton in He); congruence. }
    by rewrite Hr.
Qed.

Lemma subscription_keys_alias_witness :
  (exists new,
     sent (Scenario.after
             (handler 0 SET (Scenario.entry "a:b" "c" (VNum 7)) (Some ABrowser) 2)
             (Scenario.after (handleSubscribe (Scenario.pair "a" "b:c") None 1)
                             Scenario.two_sessions))
     = sent Scenario.two_sessions ++ new
     /\ filter (fun f => f.1 = 1%nat) new
        = [(1%nat, update_document (VStr "a:b") (VStr "c") "SET"
                     (announced SET (Scenario.entry "a:b" "c" (VNum 7)))
                     (clock Scenario.two_sessions))])
  /\ (exists new,
        sent (Scenario.after
                (handler 0 SET (Scenario.entry "a" "b" (VNum 7)) (Some ABrowser) 2)
                (Scenario.after (handleSubscribe (Scenario.pair "a" "b:c") None 1)
                                Scenario.two_sessions))
        = sent Scenario.two_sessions ++ new
        /\ filter (fun f => f.1 = 1%nat) new = []).
Proof.
  assert (Hsockets : forall ws, ws ∈ activeConnections Scenario.two_sessions ->
                                is_Some (sockets Scenario.two_sessions !! ws)).
  { change (activeConnections Scenario.two_sessions) with [1%nat; 2%nat].
    intros ws Hws. rewrite !elem_of_cons, elem_of_nil in Hws.
    destruct Hws as [->|[->|[]]]; eexists; reflexivity. }
  assert (Hnd : NoDup (activeConnections Scenario.two_sessions)).
  { change (activeConnections Scenario.two_sessions) with [1%nat; 2%nat].
    apply (bool_decide_unpack _). reflexivity. }
  assert (Hin : 1%nat ∈ activeConnections Scenario.two_sessions).
  { change (activeConnections Scenario.two_sessions) with [1%nat; 2%nat]. by left. }
  split.
  - destruct (subscription_keys_alias "a" "b:c" "a:b" "c" Scenario.two_sessions _ 1 2
                (mkSocket "browser" "client_1" ∅ true OPEN)
                (mkSocket "browser" "client_2" ∅ true OPEN)
                0 SET "SET" (Scenario.entry "a:b" "c" (VNum 7))
                (VObj [("success", VBool true); ("key", VStr "c");
                       ("timestamp", VNum 0)])
                (Some ABrowser) None eq_refl eq_refl Hin eq_refl
                ltac:(discriminate) Hsockets Hnd
                (or_introl (conj eq_refl eq_refl)) eq_refl eq_refl
                ltac:(vm_compute; reflexivity))
      as (new & Hsent & Hyes & _).
    exists new. split; [exact Hsent|]. apply Hyes. by left.
  - destruct (subscription_keys_alias "a" "b:c" "a" "b" Scenario.two_sessions _ 1 2
                (mkSocket "browser" "client_1" ∅ true OPEN)
                (mkSocket "browser" "client_2" ∅ true OPEN)
                0 SET "SET" (Scenario.entry "a" "b" (VNum 7))
                (VObj [("success", VBool true); ("key", VStr "b");
                       ("timestamp", VNum 0)])
                (Some ABrowser) None eq_refl eq_refl Hin eq_refl
                ltac:(discriminate) Hsockets Hnd
                (or_introl (conj eq_refl eq_refl)) eq_refl eq_refl
                ltac:(vm_compute; reflexivity))
      as (new & Hsent & _ & Hno).
    exists new. split; [exact Hsent|].
    apply Hno; [discriminate | discriminate | apply not_elem_of_empty
                | apply not_elem_of_empty].
Defined.

End Aliasing.

(** ** Nested batches are unfolded far enough *)

Section Termination.
Import Js Adapters Server.

Lemma total_ret {A : Type} (a : A) : total (ret a).
Proof. intros w. discriminate. Qed.

Lemma total_throw {A : Type} (e : Exn) : total (@throw A e).
Proof. intros w. discriminate. Qed.

Lemma total_lift {A : Type} (r : Exn + A) : total (lift r).
Proof. destruct r; intros w; discriminate. Qed.

Lemma total_gets {A : Type} (f : World -> A) : total (gets f).
Proof. intros w. discriminate. Qed.

Lemma total_modify (f : World -> World) : total (modify f).
Proof. intros w. discriminate. Qed.

Lemma total_bind {A B : Type} (m : M A) (k : A -> M B) :
  total m -> (forall a, total (k a)) -> total (bind m k).
Proof.
  intros Hm Hk w. unfold bind. specialize (Hm w).
  destruct (m w) as [[a|e|] w1]; simpl in *; [apply Hk | discriminate | done].
Qed.

Lemma total_try_catch {A : Type} (body : M A) (handler : Exn -> M A) :
  total body -> (forall e, total (handler e)) -> total (try_catch body handler).
Proof.
  intros Hb Hh w. unfold try_catch. specialize (Hb w).
  destruct (body w) as [[a|e|] w1]; simpl in *; [discriminate | apply Hh | done].
Qed.

Lemma total_socket ws : total (socket ws).
Proof. intros w. unfold socket. destruct (sockets w !! ws); discriminate. Qed.

Lemma total_destructure name v first : total (destructure name v first).
Proof. destruct v; intros w; discriminate. Qed.

Lemma total_call_adapter storageAdapter method f :
  total (call_adapter storageAdapter method f).
Proof.
  intros w. unfold call_adapter.
  destruct storageAdapter as [[]|]; simpl; try discriminate;
    match goal with |- outcome_of ?r ≠ _ => destruct r; discriminate end.
Qed.

Create HintDb total.
#[local] Hint Resolve total_ret total_throw total_lift total_gets total_modify
  total_socket total_destructure total_call_adapter : total.

Lemma total_sendMessage ws message : total (sendMessage ws message).
Proof.
  unfold sendMessage. apply total_bind; [auto with total|]. intros s.
  destruct (ReadyState_eqb _ _); [|auto with total].
  destruct (json_image message); auto with total.
Qed.

Lemma total_forEach {A : Type} (l : list A) (f : A -> M unit) :
  (forall x, total (f x)) -> total (forEach l f).
Proof.
  intros Hf. induction l as [|x r IH]; simpl; [auto with total|].
  apply total_bind; auto.
Qed.

Lemma total_notifySubscribers collection key operation value origin :
  total (notifySubscribers collection key operation value origin).
Proof.
  unfold notifySubscribers.
  repeat (apply total_bind; [auto with total|]; intros ?).
  apply total_forEach. intros ws. unfold notify_one.
  apply total_bind; [auto with total|]. intros s.
  destruct (String.eqb _ _); [auto with total|].
  destruct (_ || _); [|auto with total].
  apply total_bind; [unfold Date_now; auto with total|]. intros now.
  apply total_sendMessage.
Qed.

#[local] Hint Resolve total_sendMessage total_notifySubscribers : total.

Ltac total_steps :=
  repeat first
    [ solve [unfold Date_now, log, update_socket; auto with total]
    | apply total_bind; [solve [unfold Date_now, log, update_socket; auto with total]|];
      intros ? ].

Lemma total_handleGet payload storageAdapter ws :
  total (handleGet payload storageAdapter ws).
Proof. unfold handleGet. total_steps. Qed.

Lemma total_handleSet payload storageAdapter ws :
  total (handleSet payload storageAdapter ws).
Proof. unfold handleSet. total_steps. Qed.

Lemma total_handleDelete payload storageAdapter ws :
  total (handleDelete payload storageAdapter ws).
Proof. unfold handleDelete. total_steps. Qed.

Lemma total_handleQuery payload storageAdapter ws :
  total (handleQuery payload storageAdapter ws).
Proof. unfold handleQuery. total_steps. Qed.

Lemma total_handlePing payload storageAdapter ws :
  total (handlePing payload storageAdapter ws).
Proof. unfold handlePing. total_steps. Qed.

Lemma total_handleSubscribe payload storageAdapter ws :
  total (handleSubscribe payload storageAdapter ws).
Proof. unfold handleSubscribe. total_steps. Qed.

Lemma total_handleUnsubscribe payload storageAdapter ws :
  total (handleUnsubscribe payload storageAdapter ws).
Proof. unfold handleUnsubscribe. total_steps. Qed.

(** *** Depth of what a request holds *)

Lemma depth_own_get k ps x :
  own_get k ps = Some x -> (depth x < depth (VObj ps))%nat.
Proof.
  simpl. induction ps as [|[k' v] r IH]; simpl; [discriminate|].
  destruct (String.eqb k k').
  - intros [= ->]. lia.
  - intros H. specialize (IH H). lia.
Qed.

Lemma depth_element (l : list Value) x :
  x ∈ l -> (depth x < depth (VArr l))%nat.
Proof.
  simpl. induction 1 as [x r|x y r Hin IH]; simpl; lia.
Qed.

Lemma depth_inherited p k : depth (inherited p k) = O.
Proof.
  unfold inherited.
  destruct (String.eqb k "__proto__"); [done|].
  destruct (String.eqb k "constructor"); [done|].
  by destruct (existsb _ _).
Qed.

Lemma depth_chars s x : x ∈ chars s -> depth x = O.
Proof.
  unfold chars. rewrite list_elem_of_fmap. by intros (c & -> & _).
Qed.

Lemma depth_elements_get l k p :
  (depth (elements_get l k p) <= depth (VArr l))%nat.
Proof.
  unfold elements_get. destruct (String.eqb k "length"); [simpl; lia|].
  destruct (array_index k) as [i|]; [|rewrite depth_inherited; lia].
  destruct (l !! N.to_nat i) as [x|] eqn:E; [|rewrite depth_inherited; lia].
  apply list_elem_of_lookup_2 in E. apply depth_element in E. lia.
Qed.

Lemma depth_elements_get_chars s k p : depth (elements_get (chars s) k p) = O.
Proof.
  unfold elements_get. destruct (String.eqb k "length"); [done|].
  destruct (array_index k) as [i|]; [|apply depth_inherited].
  destruct (chars s !! N.to_nat i) as [x|] eqn:E; [|apply depth_inherited].
  apply list_elem_of_lookup_2 in E. by apply depth_chars in E.
Qed.

(** A field is never deeper than the value it is read from. *)
Lemma depth_prop v k : (depth (prop v k) <= depth v)%nat.
Proof.
  unfold prop, get_member. destruct v as [| |b|n|d|s|l|ps|b].
  - simpl. lia.
  - simpl. lia.
  - rewrite depth_inherited. lia.
  - rewrite depth_inherited. lia.
  - rewrite depth_inherited. lia.
  - rewrite depth_elements_get_chars. lia.
  - apply (depth_elements_get l k ArrayPrototype).
  - destruct (own_get k ps) as [x|] eqn:E.
    + apply depth_own_get in E. lia.
    + rewrite depth_inherited. lia.
  - rewrite depth_inherited. lia.
Qed.

Lemma depth_prop_object ps k : (depth (prop (VObj ps) k) < depth (VObj ps))%nat.
Proof.
  unfold prop, get_member. destruct (own_get k ps) as [x|] eqn:E.
  - by apply depth_own_get in E.
  - rewrite depth_inherited. simpl. lia.
Qed.

(** Only an object has a [type] that names a handler. *)
Lemma handler_requires_object v h :
  messageHandlers_get (prop v "type") = Some h -> exists ps, v = VObj ps.
Proof.
  destruct v as [| |b|n|d|s|l|ps|b]; intros H.
  8: by exists ps.
  all: exfalso; revert H; unfold prop, get_member, elements_get; cbn; discriminate.
Qed.

Lemma total_bind_lift {A B : Type} (r : Exn + A) (k : A -> M B) :
  (forall a, r = inr a -> total (k a)) -> total (bind (lift r) k).
Proof.
  intros Hk w. unfold bind, lift. destruct r as [e|a]; simpl; [discriminate|].
  by apply Hk.
Qed.

Lemma total_for_of operations body :
  (forall operation results, operation ∈ operations -> total (body operation results)) ->
  forall results, total (for_of operations body results).
Proof.
  induction operations as [|x r IH]; intros Hb results; simpl; [auto with total|].
  apply total_bind; [apply Hb; by left|]. intros results'.
  apply IH. intros operation acc Hin. apply Hb. by right.
Qed.

Lemma prop_of_get_member v k x : get_member v k = inr x -> prop v k = x.
Proof. unfold prop. by intros ->. Qed.

(** What a handled operation of a batch carries is less deep than the
    payload of the batch. *)
Lemma depth_operation_payload payload operations operation h :
  iterate (prop payload "operations") = inr operations ->
  operation ∈ operations ->
  messageHandlers_get (prop operation "type") = Some h ->
  (depth (prop operation "payload") < depth payload)%nat.
Proof.
  intros Hit Hin Hh.
  destruct (handler_requires_object _ _ Hh) as [ps ->].
  pose proof (depth_prop payload "operations") as Hp.
  pose proof (depth_prop_object ps "payload") as Ho.
  destruct (prop payload "operations") as [| | | | |s|l| |]; try discriminate.
  - injection Hit as <-. apply list_elem_of_fmap in Hin as (c & [=] & _).
  - injection Hit as <-. apply depth_element in Hin. lia.
Qed.

(** With a budget above the depth of the payload, a handler returns or
    throws. *)
Lemma handler_total fuel :
  forall op payload storageAdapter ws,
    (depth payload < fuel)%nat -> total (handler fuel op payload storageAdapter ws).
Proof.
  induction fuel as [|n IH]; intros op payload storageAdapter ws Hd; [lia|].
  destruct op; simpl;
    auto using total_handleGet, total_handleSet, total_handleDelete,
      total_handleQuery, total_handlePing, total_handleSubscribe,
      total_handleUnsubscribe.
  unfold handleBatch.
  apply total_bind; [auto with total|]. intros _.
  apply total_bind_lift. intros operations Hit.
  apply total_bind; [|auto with total].
  apply total_for_of. intros operation results Hin.
  unfold batch_operation. apply total_bind_lift. intros type Ht.
  apply prop_of_get_member in Ht as <-.
  destruct (messageHandlers_get (prop operation "type")) as [h|] eqn:Hh;
    [|auto with total].
  apply total_bind; [|auto with total].
  apply IH. pose proof (depth_operation_payload _ _ _ _ Hit Hin Hh). lia.
Qed.

(** [handleMessage] settles on every frame: the budget it takes from the
    frame is always enough. *)
Theorem handleMessage_total ws data : total (handleMessage ws data).
Proof.
  unfold handleMessage. apply total_try_catch.
  - apply total_bind_lift. intros message Hm.
    apply total_bind; [auto with total|]. intros _.
    apply total_bind; [auto with total|]. intros t.
    apply total_bind; [auto with total|]. intros s.
    apply total_bind; [unfold log; auto with total|]. intros _.
    destruct (messageHandlers_get (prop message "type")) as [h|] eqn:Hh;
      [|auto with total].
    apply total_bind.
    + apply handler_total. destruct data as [doc|]; [|discriminate].
      injection Hm as ->. destruct (handler_requires_object _ _ Hh) as [ps ->].
      apply depth_prop_object.
    + intros result. apply total_bind; [unfold Date_now; auto with total|].
      intros now. auto with total.
  - intros e. total_steps.
Qed.

End Termination.

(** ** Worlds the broker can reach *)

Section Reachable.
Import Js Adapters Server.

Lemma stable_ret {A : Type} (a : A) : stable (ret a).
Proof. by intros w. Qed.

Lemma stable_throw {A : Type} (e : Exn) : stable (@throw A e).
Proof. by intros w. Qed.

Lemma stable_lift {A : Type} (r : Exn + A) : stable (lift r).
Proof. by destruct r; intros w. Qed.

Lemma stable_gets {A : Type} (f : World -> A) : stable (gets f).
Proof. by intros w. Qed.

Lemma stable_bind {A B : Type} (m : M A) (k : A -> M B) :
  stable m -> (forall a, stable (k a)) -> stable (bind m k).
Proof.
  intros Hm Hk w. unfold bind. specialize (Hm w).
  destruct (m w) as [[a|e|] w1]; simpl in *; [|done|done].
  destruct (Hk a w1) as [H1 H2], Hm as [H3 H4]. split; congruence.
Qed.

Lemma stable_try_catch {A : Type} (body : M A) (handler : Exn -> M A) :
  stable body -> (forall e, stable (handler e)) -> stable (try_catch body handler).
Proof.
  intros Hb Hh w. unfold try_catch. specialize (Hb w).
  destruct (body w) as [[a|e|] w1]; simpl in *; [done| |done].
  destruct (Hh e w1) as [H1 H2], Hb as [H3 H4]. split; congruence.
Qed.

Lemma stable_socket ws : stable (socket ws).
Proof. intros w. unfold socket. by destruct (sockets w !! ws). Qed.

Lemma stable_destructure name v first : stable (destructure name v first).
Proof. by destruct v; intros w. Qed.

Lemma stable_log entry : stable (log entry).
Proof. by intros w. Qed.

Lemma stable_Date_now : stable Date_now.
Proof. by intros w. Qed.

Lemma stable_update_socket ws f : stable (update_socket ws f).
Proof. intros w. simpl. split; [done|]. apply dom_alter_L. Qed.

Lemma stable_call_adapter storageAdapter method f :
  stable (call_adapter storageAdapter method f).
Proof.
  intros w. pose proof (call_adapter_frame storageAdapter method f w) as H.
  cbv zeta in H. destruct H as (Hs & Ha & _). by rewrite Hs, Ha.
Qed.

Create HintDb stable.
#[local] Hint Resolve stable_ret stable_throw stable_lift stable_gets stable_socket
  stable_destructure stable_log stable_Date_now stable_update_socket
  stable_call_adapter : stable.

Lemma stable_sendMessage ws message : stable (sendMessage ws message).
Proof.
  unfold sendMessage. apply stable_bind; [auto with stable|]. intros s.
  destruct (ReadyState_eqb _ _); [|auto with stable].
  destruct (json_image message); [by intros w | auto with stable].
Qed.

Lemma stable_forEach {A : Type} (l : list A) (f : A -> M unit) :
  (forall x, stable (f x)) -> stable (forEach l f).
Proof.
  intros Hf. induction l as [|x r IH]; simpl; [auto with stable|].
  apply stable_bind; auto.
Qed.

Lemma stable_notifySubscribers collection key operation value origin :
  stable (notifySubscribers collection key operation value origin).
Proof.
  unfold notifySubscribers.
  repeat (apply stable_bind; [auto with stable|]; intros ?).
  apply stable_forEach. intros ws. unfold notify_one.
  apply stable_bind; [auto with stable|]. intros s.
  destruct (String.eqb _ _); [auto with stable|].
  destruct (_ || _); [|auto with stable].
  apply stable_bind; [auto with stable|]. intros now.
  apply stable_sendMessage.
Qed.

#[local] Hint Resolve stable_sendMessage stable_notifySubscribers : stable.

Ltac stable_steps :=
  repeat first
    [ solve [auto with stable]
    | apply stable_bind; [solve [auto with stable]|]; intros ? ].

Lemma stable_for_of operations body :
  (forall operation results, stable (body operation results)) ->
  forall results, stable (for_of operations body results).
Proof.
  intros Hb. induction operations as [|x r IH]; intros results; simpl;
    [auto with stable|].
  apply stable_bind; auto.
Qed.

Lemma stable_handler fuel :
  forall op payload storageAdapter ws,
    stable (handler fuel op payload storageAdapter ws).
Proof.
  induction fuel as [|n IH]; intros op payload storageAdapter ws;
    destruct op; simpl;
    try solve [unfold handleGet, handleSet, handleDelete, handleQuery, handlePing,
                 handleSubscribe, handleUnsubscribe; stable_steps];
    try solve [by intros w].
  unfold handleBatch.
  apply stable_bind; [auto with stable|]. intros ?.
  apply stable_bind; [auto with stable|]. intros operations.
  apply stable_bind; [|auto with stable].
  apply stable_for_of. intros operation results. unfold batch_operation.
  apply stable_bind; [auto with stable|]. intros type.
  destruct (messageHandlers_get type); [|auto with stable].
  apply stable_bind; [apply IH | auto with stable].
Qed.

Lemma stable_handleMessage ws data : stable (handleMessage ws data).
Proof.
  unfold handleMessage. apply stable_try_catch.
  - repeat (apply stable_bind; [auto with stable|]; intros ?).
    destruct (messageHandlers_get _); [|auto with stable].
    apply stable_bind; [apply stable_handler|]. intros result. stable_steps.
  - intros e. stable_steps.
Qed.

Lemma well_formed_stable {A : Type} (m : M A) w :
  stable m -> well_formed w -> well_formed (m w).2.
Proof.
  intros Hm [Hnd Hw]. destruct (Hm w) as [Ha Hd]. split.
  - by rewrite Ha.
  - intros ws. rewrite Ha. intros Hin. apply elem_of_dom. rewrite Hd.
    apply elem_of_dom. by apply Hw.
Qed.

Lemma set_add_spec x l y : y ∈ set_add x l <-> y = x \/ y ∈ l.
Proof.
  induction l as [|z r IH]; simpl.
  - rewrite list_elem_of_singleton, elem_of_nil. tauto.
  - destruct (Nat.eqb_spec x z) as [->|Hne].
    + rewrite elem_of_cons. tauto.
    + rewrite !elem_of_cons, IH. tauto.
Qed.

Lemma set_add_NoDup x l : NoDup l -> NoDup (set_add x l).
Proof.
  induction 1 as [|z r Hz Hr IH]; simpl.
  - apply NoDup_singleton.
  - destruct (Nat.eqb_spec x z) as [->|Hne]; [by constructor|].
    constructor; [|exact IH]. rewrite set_add_spec. intros [->|?]; done.
Qed.

(** Every world the broker reaches is well formed. *)
Theorem reachable_well_formed w : reachable w -> well_formed w.
Proof.
  induction 1 as [dir now|w ws remoteAddress headers id _ IH Hfresh|w ws data _ IH _
                  |w ws _ IH _|w _ IH|w ws _ IH Hin].
  - split; [constructor | intros ws Hin; by apply elem_of_nil in Hin].
  - destruct IH as [Hnd Hw].
    assert (Hs : stable (sendMessage ws
                   (VObj [ ("type", VStr "CONNECTION_ESTABLISHED");
                           ("clientId", VStr id);
                           ("platform",
                            VStr (detectPlatform
                                    (default "" (header "user-agent" headers)) headers));
                           ("capabilities",
                            getPlatformCapabilities
                              (detectPlatform
                                 (default "" (header "user-agent" headers)) headers)) ]))).
    { apply stable_sendMessage. }
    unfold connection, bind, modify, log. simpl.
    match goal with |- well_formed (sendMessage ws ?m ?w1).2 =>
      apply (well_formed_stable (sendMessage ws m) w1 Hs) end.
    split; simpl.
    + by apply set_add_NoDup.
    + intros x Hx. apply set_add_spec in Hx as [->|Hx].
      * rewrite lookup_insert_eq. by eexists.
      * destruct (decide (x = ws)) as [->|Hne].
        -- rewrite lookup_insert_eq. by eexists.
        -- rewrite lookup_insert_ne by done. by apply Hw.
  - apply well_formed_stable; [apply stable_handleMessage | exact IH].
  - apply well_formed_stable; [apply stable_update_socket | exact IH].
  - apply well_formed_stable; [|exact IH].
    unfold keep_alive_sweep. apply stable_bind; [auto with stable|]. intros clients.
    apply stable_forEach. intros x. unfold keep_alive.
    apply stable_bind; [auto with stable|]. intros s.
    destruct (negb (isAlive s)); stable_steps.
  - destruct IH as [Hnd Hw]. destruct (Hw ws Hin) as [s Hs].
    unfold close, handleDisconnect, bind, update_socket, modify, socket, log. simpl.
    rewrite lookup_alter_eq, Hs. simpl. split; simpl.
    + unfold set_delete. by apply NoDup_filter.
    + intros x Hx. unfold set_delete in Hx. apply list_elem_of_filter in Hx as [_ Hx].
      destruct (decide (x = ws)) as [->|Hne].
      * rewrite lookup_alter_eq, Hs. by eexists.
      * rewrite lookup_alter_ne by done. by apply Hw.
Qed.

End Reachable.

(** ** Batches *)

Section Batch.
Import Js Adapters Server.

Lemma for_of_app pre post body results w :
  for_of (pre ++ post) body results w
  = match for_of pre body results w with
    | (Returned results', w1) => for_of post body results' w1
    | other => other
    end.
Proof.
  revert results w. induction pre as [|x r IH]; intros results w; simpl; [done|].
  unfold bind. destruct (body x results w) as [[results'|e|] w1]; [apply IH|done|done].
Qed.

(** The loop ends with the first operation that throws: what follows it is
    not run, and the world is the one that operation left. *)
Lemma for_of_throws pre operation post body results done w w1 e w2 :
  for_of pre body results w = (Returned done, w1) ->
  body operation done w1 = (Thrown e, w2) ->
  for_of (pre ++ operation :: post) body results w = (Thrown e, w2).
Proof.
  intros Hpre Hop. rewrite for_of_app, Hpre. simpl. unfold bind. by rewrite Hop.
Qed.

(** When the loop returns, it has pushed one entry per handled operation,
    in the order of the operations. *)
Lemma for_of_returned invoke storageAdapter ws operations :
  forall results w results' w',
    for_of operations (batch_operation invoke storageAdapter ws) results w
    = (Returned results', w') ->
    exists entries,
      results' = results ++ entries
      /\ map (fun e => prop e "operation") entries
         = map (fun operation => prop operation "id") (List.filter handled operations)
      /\ Forall is_entry entries.
Proof.
  induction operations as [|operation rest IH]; intros results w results' w'; simpl.
  - intros [= <- <-]. exists []. by rewrite app_nil_r.
  - unfold bind at 1. unfold batch_operation at 1. unfold bind at 1, lift.
    unfold handled at 1.
    destruct (get_member operation "type") as [e|type] eqn:Ht; [discriminate|].
    apply prop_of_get_member in Ht as <-. unfold ret at 1.
    destruct (messageHandlers_get (prop operation "type")) as [h|].
    + unfold bind at 1.
      destruct (invoke h (prop operation "payload") storageAdapter ws w)
        as [[result|e|] w1]; try discriminate.
      unfold ret. intros Hrest.
      destruct (IH _ _ _ _ Hrest) as (entries & -> & Hids & Hshape).
      exists (VObj [("operation", prop operation "id"); ("result", result)] :: entries).
      split; [by rewrite <- app_assoc|]. split.
      * simpl. by rewrite Hids.
      * constructor; [by eexists _, _ | done].
    + intros Hrest. destruct (IH _ _ _ _ Hrest) as (entries & -> & Hids & Hshape).
      by exists entries.
Qed.

#[local] Arguments json_image : simpl never.
#[local] Arguments sendMessage : simpl never.
#[local] Arguments error_envelope : simpl never.
#[local] Arguments response : simpl never.
#[local] Arguments handler : simpl never.
#[local] Arguments for_of : simpl never.

(** A handler that returns is answered with the response envelope. *)
Lemma handleMessage_returned ws s w message h t result w1 s1 doc :
  sockets w !! ws = Some s ->
  message ≠ VUndefined -> message ≠ VNull ->
  to_string (prop message "type") = inr t ->
  messageHandlers_get (prop message "type") = Some h ->
  handler (depth message) h (prop message "payload")
          (storageAdapters_get (platform s)) ws (received t s w)
  = (Returned result, w1) ->
  sockets w1 !! ws = Some s1 -> readyState s1 = OPEN ->
  json_image (response t (prop message "requestId") result (clock w1)) = Some doc ->
  handleMessage ws (Json message) w
  = (Returned tt, with_sent (sent w1 ++ [(ws, doc)]) w1).
Proof.
  intros Hs Hu Hn Ht Hh Hrun Hs1 Ho Hj.
  unfold handleMessage, try_catch, bind, lift. simpl.
  rewrite (destructure_ok _ _ _ _ Hu Hn), Ht. simpl.
  unfold socket at 1. rewrite Hs, Hh. simpl.
  unfold received in Hrun. rewrite Hrun. simpl.
  by rewrite (sendMessage_open ws s1 _ doc w1 Hs1 Ho Hj).
Qed.

(** A handler that throws is answered with an [ERROR] envelope that
    carries the message of the exception. *)
Lemma handleMessage_thrown ws s w message h t e w2 s2 doc :
  sockets w !! ws = Some s ->
  message ≠ VUndefined -> message ≠ VNull ->
  to_string (prop message "type") = inr t ->
  messageHandlers_get (prop message "type") = Some h ->
  handler (depth message) h (prop message "payload")
          (storageAdapters_get (platform s)) ws (received t s w)
  = (Thrown e, w2) ->
  sockets w2 !! ws = Some s2 -> readyState s2 = OPEN ->
  json_image (error_envelope (prop message "requestId") (message_of e) (clock w2))
  = Some doc ->
  handleMessage ws (Json message) w
  = (Returned tt,
     with_sent (sent w2 ++ [(ws, doc)])
       (with_console (console w2 ++ [console_error "Error handling message:" e]) w2)).
Proof.
  intros Hs Hu Hn Ht Hh Hrun Hs2 Ho Hj.
  unfold handleMessage, try_catch, bind, lift. simpl.
  rewrite (destructure_ok _ _ _ _ Hu Hn), Ht. simpl.
  unfold socket at 1. rewrite Hs, Hh. simpl.
  unfold received in Hrun. rewrite Hrun. simpl.
  rewrite (get_member_prop _ _ Hu Hn). simpl.
  by rewrite (sendMessage_open ws s2 _ doc
                (with_console
                   (console w2 ++ [console_error "Error handling message:" e]) w2)
                Hs2 Ho Hj).
Qed.

Lemma handleBatch_run invoke payload storageAdapter ws operations w :
  payload ≠ VUndefined -> payload ≠ VNull ->
  iterate (prop payload "operations") = inr operations ->
  handleBatch invoke payload storageAdapter ws w
  = match for_of operations (batch_operation invoke storageAdapter ws) [] w with
    | (Returned results, w1) => (Returned (VArr results), w1)
    | (Thrown e, w2) => (Thrown e, w2)
    | (OutOfFuel, w3) => (OutOfFuel, w3)
    end.
Proof.
  intros Hu Hn Hit. unfold handleBatch, bind, lift.
  rewrite (destructure_ok _ _ _ _ Hu Hn), Hit. simpl.
  by destruct (for_of operations _ [] w) as [[results|e|] w1].
Qed.

(** C3, as the broker has it.  The operations of a [BATCH] run in input
    order, those whose type has no handler being passed over.  When each of
    them returns, the request is answered with a [BATCH_RESPONSE] whose data
    is the array of the entries [{ operation: id, result }] of the handled
    operations, in input order.  When one throws, the batch ends there: the
    operations after it are not run, the world is the one the earlier
    operations and the failing one left (nothing is rolled back), and the
    request is answered with one [ERROR] envelope carrying the message of the
    exception.  One of the two happens. *)
Theorem batch_stops_at_first_throw (ws : nat) (s : Socket) (w : World)
    (message : Value) (operations : list Value) :
  sockets w !! ws = Some s ->
  prop message "type" = VStr "BATCH" ->
  prop message "payload" ≠ VUndefined -> prop message "payload" ≠ VNull ->
  iterate (prop (prop message "payload") "operations") = inr operations ->
  let step := batch_operation (handler (pred (depth message)))
                (storageAdapters_get (platform s)) ws in
  let w0 := received "BATCH" s w in
  (for_of operations step [] w0).1 ≠ OutOfFuel
  /\ (forall entries w1 s1,
        for_of operations step [] w0 = (Returned entries, w1) ->
        sockets w1 !! ws = Some s1 -> readyState s1 = OPEN ->
        exists envelope,
          handleMessage ws (Json message) w
          = (Returned tt, with_sent (sent w1 ++ [(ws, envelope)]) w1)
          /\ json_image (response "BATCH" (prop message "requestId") (VArr entries)
                           (clock w1)) = Some envelope
          /\ map (fun e => prop e "operation") entries
             = map (fun operation => prop operation "id")
                   (List.filter handled operations)
          /\ Forall is_entry entries)
  /\ (forall pre operation post done w1 e w2 s2,
        operations = pre ++ operation :: post ->
        for_of pre step [] w0 = (Returned done, w1) ->
        step operation done w1 = (Thrown e, w2) ->
        sockets w2 !! ws = Some s2 -> readyState s2 = OPEN ->
        exists envelope,
          handleMessage ws (Json message) w
          = (Returned tt,
             with_sent (sent w2 ++ [(ws, envelope)])
               (with_console
                  (console w2 ++ [console_error "Error handling message:" e]) w2))
          /\ json_image (error_envelope (prop message "requestId") (message_of e)
                           (clock w2)) = Some envelope).
Proof.
  intros Hs Ht Hpu Hpn Hit step w0.
  assert (Hh : messageHandlers_get (prop message "type") = Some BATCH)
    by (by rewrite Ht).
  assert (Hstr : to_string (prop message "type") = inr "BATCH") by (by rewrite Ht).
  destruct (handler_requires_object _ _ Hh) as [ps Hm].
  assert (Hu : message ≠ VUndefined) by (by rewrite Hm).
  assert (Hn : message ≠ VNull) by (by rewrite Hm).
  assert (Hd : depth message = S (pred (depth message))) by (by rewrite Hm).
  assert (Hdp : (depth (prop message "payload") < depth message)%nat)
    by (rewrite Hm; apply depth_prop_object).
  assert (Hrun : handler (depth message) BATCH (prop message "payload")
                   (storageAdapters_get (platform s)) ws w0
                 = match for_of operations step [] w0 with
                   | (Returned results, w1) => (Returned (VArr results), w1)
                   | (Thrown e, w2) => (Thrown e, w2)
                   | (OutOfFuel, w3) => (OutOfFuel, w3)
                   end).
  { rewrite Hd at 1. cbn [handler]. by apply handleBatch_run. }
  split; [|split].
  - apply total_for_of. intros operation results Hin.
    unfold step, batch_operation. apply total_bind_lift. intros type Hty.
    apply prop_of_get_member in Hty as <-.
    destruct (messageHandlers_get (prop operation "type")) as [h|] eqn:Hop.
    + apply total_bind; [|intros; apply total_ret].
      apply handler_total.
      pose proof (depth_operation_payload _ _ _ _ Hit Hin Hop). lia.
    + apply total_ret.
  - intros entries w1 s1 Hfor Hs1 Ho.
    rewrite Hfor in Hrun.
    pose proof (json_image_response "BATCH" (prop message "requestId")
                  (VArr entries) (clock w1)) as Hj.
    eexists. split; [|split; [exact Hj|]].
    + by eapply (handleMessage_returned ws s w message BATCH "BATCH").
    + destruct (for_of_returned _ _ _ _ _ _ _ _ Hfor) as (entries' & He & Hids & Hsh).
      simpl in He. subst entries'. by split.
  - intros pre operation post done w1 e w2 s2 -> Hpre Hop Hs2 Ho.
    rewrite (for_of_throws _ _ _ _ _ _ _ _ _ _ Hpre Hop) in Hrun.
    pose proof (json_image_error_envelope (prop message "requestId") (message_of e)
                  (clock w2)) as Hj.
    eexists. split; [|exact Hj].
    by eapply (handleMessage_thrown ws s w message BATCH "BATCH").
Qed.

Lemma batch_stops_at_first_throw_witness :
  (for_of Scenario.failing_batch
     (batch_operation (handler (pred (depth (Scenario.batch 5 Scenario.failing_batch))))
        (Some ABrowser) 1)
     [] (received "BATCH" (mkSocket "browser" "client_1" ∅ true OPEN)
           Scenario.one_session)).1 ≠ OutOfFuel
  /\ exists envelope w2,
       handleMessage 1 (Json (Scenario.batch 5 Scenario.failing_batch))
         Scenario.one_session
       = (Returned tt, with_sent (sent Scenario.one_session ++ [(1%nat, envelope)]) w2)
       /\ prop envelope "type" = VStr "ERROR"
       /\ prop envelope "error" = VStr cannot_destructure_payload
       /\ BrowserStorageAdapter.localStorage (browser w2)
          = [(VStr "c", mkDict [("k1", VNum 1)] (VBuiltin ObjectPrototype))].
Proof.
  destruct (batch_stops_at_first_throw 1 (mkSocket "browser" "client_1" ∅ true OPEN)
              Scenario.one_session (Scenario.batch 5 Scenario.failing_batch)
              Scenario.failing_batch)
    as (Htotal & _ & Hthrow); try reflexivity; try discriminate.
  split; [exact Htotal|].
  destruct (Hthrow [Scenario.operation "a" "SET" (Scenario.entry "c" "k1" (VNum 1))]
              (Scenario.operation "b" "GET" VUndefined)
              [Scenario.operation "c" "SET" (Scenario.entry "c" "k2" (VNum 2))]
              [VObj [ ("operation", VStr "a");
                      ("result", VObj [ ("success", VBool true); ("key", VStr "k1");
                                        ("timestamp", VNum 0) ]) ]]
              (Scenario.after
                 (for_of [Scenario.operation "a" "SET" (Scenario.entry "c" "k1" (VNum 1))]
                    (batch_operation
                       (handler (pred (depth (Scenario.batch 5 Scenario.failing_batch))))
                       (Some ABrowser) 1) [])
                 (received "BATCH" (mkSocket "browser" "client_1" ∅ true OPEN)
                    Scenario.one_session))
              (TypeError cannot_destructure_payload)
              (Scenario.after
                 (for_of [Scenario.operation "a" "SET" (Scenario.entry "c" "k1" (VNum 1))]
                    (batch_operation
                       (handler (pred (depth (Scenario.batch 5 Scenario.failing_batch))))
                       (Some ABrowser) 1) [])
                 (received "BATCH" (mkSocket "browser" "client_1" ∅ true OPEN)
                    Scenario.one_session))
              (mkSocket "browser" "client_1" ∅ true OPEN))
    as (envelope & Hrun & Henv);
    try (vm_compute; reflexivity).
  exists envelope. eexists. split; [exact Hrun|].
  vm_compute in Henv. injection Henv as <-.
  repeat split; vm_compute; reflexivity.
Defined.

(** The claim C3 has a failing operation recorded in the batch result and
    the later ones run.  Here the read [b] has no payload and throws: the
    answer is an [ERROR] envelope, not a [BATCH_RESPONSE]; the write [a]
    before it is in the store and the write [c] after it is not.  And in a
    batch that succeeds, the operation of unknown type has no entry. *)
Lemma batch_failure_ends_the_batch :
  sent (Scenario.after
          (handleMessage 1 (Json (Scenario.batch 5 Scenario.failing_batch)))
          Scenario.one_session)
  = sent Scenario.one_session
    ++ [(1%nat, VObj [ ("type", VStr "ERROR");
                       ("requestId", VNum 5);
                       ("success", VBool false);
                       ("error", VStr cannot_destructure_payload);
                       ("timestamp", VNum 0) ])]
  /\ BrowserStorageAdapter.localStorage
       (browser (Scenario.after
                   (handleMessage 1 (Json (Scenario.batch 5 Scenario.failing_batch)))
                   Scenario.one_session))
     = [(VStr "c", mkDict [("k1", VNum 1)] (VBuiltin ObjectPrototype))]
  /\ sent (Scenario.after
             (handleMessage 1 (Json (Scenario.batch 6 Scenario.batch_with_unknown_type)))
             Scenario.one_session)
     = sent Scenario.one_session
       ++ [(1%nat, VObj [ ("type", VStr "BATCH_RESPONSE");
                          ("requestId", VNum 6);
                          ("success", VBool true);
                          ("data", VArr [VObj [ ("operation", VStr "b");
                                                ("result", VObj [ ("pong", VBool true);
                                                                  ("timestamp", VNum 0) ]) ]]);
                          ("timestamp", VNum 0) ])].
Proof. repeat split; vm_compute; reflexivity. Qed.

End Batch.

(** ** The scenarios of the design document *)

Section DesignScenarios.
Import Js Adapters Server.

(** Echo: a [PING] is answered with [PING_RESPONSE], [data.pong] true. *)
Example scenario_echo :
  sent (Scenario.after (handleMessage 1 (Scenario.frame "PING" 1 (VObj [])))
          Scenario.one_session)
  = sent Scenario.one_session
    ++ [(1%nat, VObj [ ("type", VStr "PING_RESPONSE"); ("requestId", VNum 1);
                       ("success", VBool true);
                       ("data", VObj [("pong", VBool true); ("timestamp", VNum 0)]);
                       ("timestamp", VNum 0) ])].
Proof. vm_compute. reflexivity. Qed.

(** Set/Get: what was set is read back, a key never set reads as [null]. *)
Example scenario_set_get :
  let cart := VObj [("items", VArr []); ("total", VNum 0)] in
  let a := (BrowserStorageAdapter.set (VStr "cart") (VStr "u1") cart (VObj []) 0
              BrowserStorageAdapter.new).2 in
  BrowserStorageAdapter.get (VStr "cart") (VStr "u1") (VObj []) a = inr cart
  /\ BrowserStorageAdapter.get (VStr "cart") (VStr "u2") (VObj []) a = inr VNull.
Proof. split; reflexivity. Qed.

(** Fan-out: session 1 holds cart/u1, session 2 sets it; session 1 gets the
    update and session 2 its response only. *)
Example scenario_fan_out :
  sent (Scenario.after
          (handleMessage 2 (Scenario.frame "SET" 2
                              (Scenario.entry "cart" "u1" (VObj [("total", VNum 7)]))))
          Scenario.subscribed)
  = sent Scenario.subscribed
    ++ [ (1%nat, VObj [ ("type", VStr "SUBSCRIPTION_UPDATE");
                        ("collection", VStr "cart"); ("key", VStr "u1");
                        ("operation", VStr "SET");
                        ("value", VObj [("total", VNum 7)]);
                        ("timestamp", VNum 0) ]);
         (2%nat, VObj [ ("type", VStr "SET_RESPONSE"); ("requestId", VNum 2);
                        ("success", VBool true);
                        ("data", VObj [ ("success", VBool true); ("key", VStr "u1");
                                        ("timestamp", VNum 0) ]);
                        ("timestamp", VNum 0) ]) ].
Proof. vm_compute. reflexivity. Qed.

(** Wildcard: session 1 holds cart/*, session 2 sets u1 and deletes u2;
    session 1 gets two updates in that order, the second with [null]. *)
Example scenario_wildcard :
  filter (fun f => f.1 = 1%nat)
    (sent (Scenario.after
             (handleMessage 2 (Scenario.frame "DELETE" 3
                                 (VObj [("collection", VStr "cart"); ("key", VStr "u2")])))
             (Scenario.after
                (handleMessage 2 (Scenario.frame "SET" 2
                                    (Scenario.entry "cart" "u1" (VNum 7))))
                (Scenario.after
                   (handleMessage 1 (Scenario.frame "SUBSCRIBE" 1
                                       (Scenario.pair "cart" "*")))
                   Scenario.two_sessions))))
  = filter (fun f => f.1 = 1%nat)
      (sent (Scenario.after
               (handleMessage 1 (Scenario.frame "SUBSCRIBE" 1 (Scenario.pair "cart" "*")))
               Scenario.two_sessions))
    ++ [ (1%nat, VObj [ ("type", VStr "SUBSCRIPTION_UPDATE");
                        ("collection", VStr "cart"); ("key", VStr "u1");
                        ("operation", VStr "SET"); ("value", VNum 7);
                        ("timestamp", VNum 0) ]);
         (1%nat, VObj [ ("type", VStr "SUBSCRIPTION_UPDATE");
                        ("collection", VStr "cart"); ("key", VStr "u2");
                        ("operation", VStr "DELETE"); ("value", VNull);
                        ("timestamp", VNum 0) ]) ].
Proof. vm_compute. reflexivity. Qed.

(** Batch: a write and a query that finds it. *)
Example scenario_batch :
  sent (Scenario.after
          (handleMessage 1
             (Json (Scenario.batch 4
                      [ Scenario.operation "a" "SET"
                          (Scenario.entry "c" "k" (VObj [("x", VNum 1)]));
                        Scenario.operation "b" "QUERY"
                          (VObj [ ("collection", VStr "c");
                                  ("query", VObj [("x", VNum 1)]) ]) ])))
          Scenario.one_session)
  = sent Scenario.one_session
    ++ [(1%nat,
         VObj [ ("type", VStr "BATCH_RESPONSE"); ("requestId", VNum 4);
                ("success", VBool true);
                ("data",
                 VArr [ VObj [ ("operation", VStr "a");
                               ("result", VObj [ ("success", VBool true);
                                                 ("key", VStr "k");
                                                 ("timestamp", VNum 0) ]) ];
                        VObj [ ("operation", VStr "b");
                               ("result", VArr [VObj [ ("key", VStr "k");
                                                       ("x", VNum 1) ]]) ] ]);
                ("timestamp", VNum 0) ])].
Proof. vm_compute. reflexivity. Qed.

(** Reconnect: the delays of the first three attempts. *)
Example scenario_reconnect_delays :
  Qeq (Client.reconnect_delay 5000 1) (inject_Z 5000)
  /\ Qeq (Client.reconnect_delay 5000 2) (inject_Z 7500)
  /\ Qeq (Client.reconnect_delay 5000 3) (inject_Z 11250).
Proof. repeat split; reflexivity. Qed.

End DesignScenarios.

(** ** Pending requests when the transport closes *)

Section ClientClose.
Import Js.

Lemma onclose_keeps code reason c :
  Client.pendingRequests (Client.onclose code reason c) = Client.pendingRequests c
  /\ Client.settled (Client.onclose code reason c) = Client.settled c
  /\ Client.outbox (Client.onclose code reason c) = Client.outbox c
  /\ Client.requestId (Client.onclose code reason c) = Client.requestId c
  /\ Client.isConnected (Client.onclose code reason c) = false.
Proof.
  unfold Client.onclose, Client.attemptReconnect.
  destruct (negb (code =? 1000) && _); [|done].
  by destruct (_ <=? _)%nat.
Qed.

Lemma onclose_timers code reason c tm :
  tm ∈ Client.timers c -> tm ∈ Client.timers (Client.onclose code reason c).
Proof.
  intros H. unfold Client.onclose, Client.attemptReconnect.
  destruct (negb (code =? 1000) && _); [|done].
  destruct (_ <=? _)%nat; [done|]. simpl. apply elem_of_app. by left.
Qed.

Lemma reconnect_keeps c :
  Client.pendingRequests (Client.onopen (Client.connect c)) = Client.pendingRequests c
  /\ Client.settled (Client.onopen (Client.connect c)) = Client.settled c
  /\ Client.outbox (Client.onopen (Client.connect c)) = Client.outbox c.
Proof. done. Qed.

(** A request sent while the client is disconnected fails at once. *)
Lemma sendMessage_disconnected type payload c :
  Client.isConnected c = false ->
  Client.sendMessage type payload c
  = (Client.Failed (Error "WebSocket not connected"), c).
Proof. intros H. unfold Client.sendMessage. by rewrite H. Qed.

(** C6, as the client has it.  A request that is pending when the
    transport closes stays in the table: the close handler settles no
    promise and sends nothing, and the 30 s timer of the request stays armed.
    The request fails when that timer fires, with [Request timeout].  Reopening
    the transport sends nothing either: no pending request is replayed. *)
Theorem pending_request_survives_close (c : Client.t) (code : Z) (reason : string)
    (id : nat) :
  id ∈ Client.pendingRequests c ->
  Client.RequestTimer id 30000 ∈ Client.timers c ->
  let closed := Client.onclose code reason c in
  let reopened := Client.onopen (Client.connect closed) in
  id ∈ Client.pendingRequests closed
  /\ Client.settled closed = Client.settled c
  /\ Client.outbox closed = Client.outbox c
  /\ Client.RequestTimer id 30000 ∈ Client.timers closed
  /\ Client.settled (Client.request_timeout id closed)
     = (Client.settled c ++ [(id, Client.Rejected (Error "Request timeout"))])
  /\ (id ∉ Client.pendingRequests (Client.request_timeout id closed))
  /\ id ∈ Client.pendingRequests reopened
  /\ Client.settled reopened = Client.settled c
  /\ Client.outbox reopened = Client.outbox c.
Proof.
  intros Hid Htm closed reopened.
  destruct (onclose_keeps code reason c) as (Hp & Hs & Ho & _ & _).
  destruct (reconnect_keeps closed) as (Hp' & Hs' & Ho').
  fold reopened in Hp', Hs', Ho'. fold closed in Hp, Hs, Ho.
  assert (Hin : id ∈ Client.pendingRequests closed) by (by rewrite Hp).
  repeat split.
  - exact Hin.
  - exact Hs.
  - exact Ho.
  - by apply onclose_timers.
  - unfold Client.request_timeout. rewrite bool_decide_eq_true_2 by done.
    simpl. by rewrite Hs.
  - unfold Client.request_timeout. rewrite bool_decide_eq_true_2 by done.
    simpl. intros [_ Hnot]%elem_of_difference. apply Hnot. by apply elem_of_singleton.
  - by rewrite Hp'.
  - by rewrite Hs', Hs.
  - by rewrite Ho', Ho.
Qed.

Lemma pending_request_survives_close_witness :
  1%nat ∈ Client.pendingRequests (Client.onclose 1006 "" one_request_pending)
  /\ Client.settled (Client.onclose 1006 "" one_request_pending)
     = Client.settled one_request_pending
  /\ Client.outbox (Client.onclose 1006 "" one_request_pending)
     = Client.outbox one_request_pending
  /\ Client.RequestTimer 1 30000
     ∈ Client.timers (Client.onclose 1006 "" one_request_pending)
  /\ Client.settled (Client.request_timeout 1 (Client.onclose 1006 "" one_request_pending))
     = (Client.settled one_request_pending
        ++ [(1%nat, Client.Rejected (Error "Request timeout"))])
  /\ (1%nat ∉ Client.pendingRequests
                (Client.request_timeout 1 (Client.onclose 1006 "" one_request_pending)))
  /\ 1%nat ∈ Client.pendingRequests
               (Client.onopen (Client.connect (Client.onclose 1006 "" one_request_pending)))
  /\ Client.settled
       (Client.onopen (Client.connect (Client.onclose 1006 "" one_request_pending)))
     = Client.settled one_request_pending
  /\ Client.outbox
       (Client.onopen (Client.connect (Client.onclose 1006 "" one_request_pending)))
     = Client.outbox one_request_pending.
Proof.
  apply (pending_request_survives_close one_request_pending 1006 "" 1).
  - apply (bool_decide_unpack _). vm_compute. reflexivity.
  - change (Client.timers one_request_pending) with [Client.RequestTimer 1 30000].
    by left.
Defined.

(** The claim C6 has the pending requests failed at the close.  Request 1
    is pending when the transport closes with code 1006; after the close
    handler it is still pending and no promise has been rejected. *)
Lemma pending_request_is_not_failed_at_close :
  1%nat ∈ Client.pendingRequests one_request_pending
  /\ Client.settled one_request_pending = []
  /\ 1%nat ∈ Client.pendingRequests (Client.onclose 1006 "" one_request_pending)
  /\ Client.settled (Client.onclose 1006 "" one_request_pending) = [].
Proof.
  repeat split; try reflexivity; apply (bool_decide_unpack _); vm_compute; reflexivity.
Qed.

End ClientClose.

(** * Further properties of the code *)

(** ** What the adapters store *)

Section Stores.
Import Js Adapters.


Section OtherKeys.
Context {K V : Type} (eqb : K -> K -> bool).
Hypothesis eqb_eq : forall x y, eqb x y = true -> x = y.

Lemma map_get_replace_ne q k v (m : list (K * V)) :
  eqb q k = false -> map_get eqb q (map_replace eqb k v m) = map_get eqb q m.
Proof.
  intros Hq. induction m as [|[k' v'] r IH]; simpl; [done|].
  destruct (eqb k k') eqn:E; simpl.
  - apply eqb_eq in E as <-. by rewrite Hq.
  - by rewrite IH.
Qed.

Lemma map_get_app_ne q k v (m : list (K * V)) :
  eqb q k = false -> map_get eqb q (m ++ [(k, v)]) = map_get eqb q m.
Proof.
  intros Hq. induction m as [|[k' v'] r IH]; simpl; [by rewrite Hq|].
  by rewrite IH.
Qed.

Lemma map_get_set_ne q k v (m : list (K * V)) :
  eqb q k = false -> map_get eqb q (map_set eqb k v m) = map_get eqb q m.
Proof.
  intros Hq. unfold map_set. destruct (map_has eqb k m).
  - by apply map_get_replace_ne.
  - by apply map_get_app_ne.
Qed.

Lemma map_get_delete_ne q k (m : list (K * V)) :
  eqb q k = false -> map_get eqb q (map_delete eqb k m) = map_get eqb q m.
Proof.
  intros Hq. induction m as [|[k' v'] r IH]; simpl; [done|].
  destruct (eqb k k') eqn:E; simpl.
  - apply eqb_eq in E as <-. by rewrite Hq.
  - by rewrite IH.
Qed.
End OtherKeys.

Lemma string_eqb_eq (x y : string) : String.eqb x y = true -> x = y.
Proof. apply String.eqb_eq. Qed.

Lemma own_get_replace_ne q k v ps :
  String.eqb q k = false -> own_get q (own_replace k v ps) = own_get q ps.
Proof.
  intros Hq. induction ps as [|[k' v'] r IH]; simpl; [done|].
  destruct (String.eqb k k') eqn:E; simpl.
  - apply String.eqb_eq in E as <-. by rewrite Hq.
  - by rewrite IH.
Qed.

Lemma own_get_insert_index_ne q i k v ps :
  String.eqb q k = false -> own_get q (insert_index i k v ps) = own_get q ps.
Proof.
  intros Hq. induction ps as [|[k' v'] r IH]; simpl; [by rewrite Hq|].
  destruct (array_index k') as [j|]; [destruct (j <? i)%N|]; simpl;
    rewrite ?Hq, ?IH; reflexivity.
Qed.

Lemma own_get_app_ne q k v ps :
  String.eqb q k = false -> own_get q (ps ++ [(k, v)]) = own_get q ps.
Proof.
  intros Hq. induction ps as [|[k' v'] r IH]; simpl; [by rewrite Hq|].
  by rewrite IH.
Qed.

(** An assignment leaves the other properties as they are. *)
Lemma own_get_set_ne q k v ps :
  String.eqb q k = false -> own_get q (own_set k v ps) = own_get q ps.
Proof.
  intros Hq. unfold own_set. destruct (own_has k ps).
  - by apply own_get_replace_ne.
  - destruct (array_index k).
    + by apply own_get_insert_index_ne.
    + by apply own_get_app_ne.
Qed.


Lemma browser_storage_with idb m a :
  BrowserStorageAdapter.storage idb (BrowserStorageAdapter.with_storage idb m a) = m.
Proof. by destruct idb. Qed.


(** The collection object after [set], as [get] finds it. *)
Lemma browser_collection_after_set collection d (m : list (Value * Dict)) :
  same_value_zero collection collection = true ->
  map_get same_value_zero collection
    (if map_has same_value_zero collection m
     then map_replace same_value_zero collection d m
     else m ++ [(collection, d)]) = Some d.
Proof.
  intros Hc. destruct (map_has same_value_zero collection m) eqn:H.
  - by apply map_get_replace.
  - apply map_get_app_new; [done|]. unfold map_has in H.
    by destruct (map_get same_value_zero collection m).
Qed.

(** X1: the browser adapter reads back a truthy value that was set, from the
    store the options select, under every key with the same string form. *)
Theorem browser_get_after_set (collection key key' v options options' : Value)
    (k : string) (idb : bool) (now : Z) (a : BrowserStorageAdapter.state) :
  same_value_zero collection collection = true ->
  to_string key = inr k -> to_string key' = inr k -> k ≠ "__proto__" ->
  BrowserStorageAdapter.use_indexedDB options = inr idb ->
  BrowserStorageAdapter.use_indexedDB options' = inr idb ->
  truthy v = true ->
  BrowserStorageAdapter.get collection key' options'
    (BrowserStorageAdapter.set collection key v options now a).2 = inr v.
Proof.
  intros Hc Hk Hk' Hp Ho Ho' Hv.
  unfold BrowserStorageAdapter.get, BrowserStorageAdapter.set.
  rewrite Ho, Ho', Hk, Hk'. cbn [bind_exn snd].
  rewrite browser_storage_with. unfold BrowserStorageAdapter.collection_data.
  rewrite browser_collection_after_set by done.
  rewrite dict_get_set by done. unfold or_else. by rewrite Hv.
Qed.

Lemma browser_get_after_set_witness :
  BrowserStorageAdapter.get (VStr "cart") (VStr "1") (VObj [])
    (BrowserStorageAdapter.set (VStr "cart") (VNum 1)
       (VObj [("total", VNum 42)]) (VObj []) 0 BrowserStorageAdapter.new).2
  = inr (VObj [("total", VNum 42)]).
Proof.
  apply (browser_get_after_set (VStr "cart") (VNum 1) (VStr "1")
           (VObj [("total", VNum 42)]) (VObj []) (VObj []) "1" false);
    try reflexivity; discriminate.
Defined.




(** X3: the React Native adapter is a map from full keys to documents:
    [get] answers the document last set under the full key, [null] once it
    is deleted, and a [set] or [delete] under one full key is not seen under
    another.  Two pairs with the same full key are the same entry. *)
Theorem react_native_get_set_delete (collection key v options : Value)
    (fullKey : string) (now : Z) (a : ReactNativeStorageAdapter.state) :
  ReactNativeStorageAdapter.full_key collection key = inr fullKey ->
  forall (collection' key' options' : Value) (fullKey' : string),
    ReactNativeStorageAdapter.full_key collection' key' = inr fullKey' ->
    let after_set := (ReactNativeStorageAdapter.set collection key v options now a).2 in
    let after_delete := (ReactNativeStorageAdapter.delete collection key options a).2 in
    (fullKey' = fullKey ->
     ReactNativeStorageAdapter.get collection' key' options' after_set
     = inr (default VNull (json_image v))
     /\ ReactNativeStorageAdapter.get collection' key' options' after_delete
        = inr VNull)
    /\ (fullKey' <> fullKey ->
        ReactNativeStorageAdapter.get collection' key' options' after_set
        = ReactNativeStorageAdapter.get collection' key' options' a
        /\ ReactNativeStorageAdapter.get collection' key' options' after_delete
           = ReactNativeStorageAdapter.get collection' key' options' a).
Proof.
  intros Hk collection' key' options' fullKey' Hk'. cbv zeta.
  unfold ReactNativeStorageAdapter.get, ReactNativeStorageAdapter.set,
    ReactNativeStorageAdapter.delete.
  rewrite Hk, Hk'. cbn [bind_exn snd ReactNativeStorageAdapter.storage]. split.
  - intros ->. rewrite map_get_set by apply String.eqb_refl.
    rewrite map_get_delete. split; [by destruct (json_image v) | done].
  - intros Hne. apply String.eqb_neq in Hne.
    rewrite map_get_set_ne by (try apply string_eqb_eq; done).
    rewrite map_get_delete_ne by (try apply string_eqb_eq; done). done.
Qed.

Lemma react_native_get_set_delete_witness :
  let a := ReactNativeStorageAdapter.new in
  ReactNativeStorageAdapter.get (VStr "a:b") (VStr "c") (VObj [])
    (ReactNativeStorageAdapter.set (VStr "a") (VStr "b:c") (VNum 0) (VObj []) 0 a).2
  = inr (VNum 0)
  /\ ReactNativeStorageAdapter.get (VStr "a:b") (VStr "c") (VObj [])
       (ReactNativeStorageAdapter.delete (VStr "a") (VStr "b:c") (VObj []) a).2
     = inr VNull.
Proof.
  exact (proj1 (react_native_get_set_delete (VStr "a") (VStr "b:c") (VNum 0) (VObj [])
                  "a:b:c" 0 ReactNativeStorageAdapter.new eq_refl
                  (VStr "a:b") (VStr "c") (VObj []) "a:b:c" eq_refl) eq_refl).
Defined.

Lemma nodejs_exists_after_set path path' doc a :
  NodeJSStorageAdapter.existsSync path'
    (NodeJSStorageAdapter.with_files
       (map_set String.eqb path (Json doc) (NodeJSStorageAdapter.files a)) a)
  = if String.eqb path' path
    then match NodeJSStorageAdapter.refuses a NodeJSStorageAdapter.Exists path' with
         | Some _ => false
         | None => true
         end
    else NodeJSStorageAdapter.existsSync path' a.
Proof.
  unfold NodeJSStorageAdapter.existsSync, map_has. simpl.
  destruct (NodeJSStorageAdapter.refuses a _ path');
    [by destruct (String.eqb path' path)|].
  destruct (String.eqb_spec path' path) as [->|Hne].
  - by rewrite map_get_set by apply String.eqb_refl.
  - rewrite map_get_set_ne; [done | apply string_eqb_eq | by apply String.eqb_neq].
Qed.

Lemma nodejs_read_after_set path path' doc a :
  NodeJSStorageAdapter.readFileSync path'
    (NodeJSStorageAdapter.with_files
       (map_set String.eqb path (Json doc) (NodeJSStorageAdapter.files a)) a)
  = if String.eqb path' path
    then match NodeJSStorageAdapter.refuses a NodeJSStorageAdapter.Read path' with
         | Some message => inl (Error message)
         | None => inr (Json doc)
         end
    else NodeJSStorageAdapter.readFileSync path' a.
Proof.
  unfold NodeJSStorageAdapter.readFileSync. simpl.
  destruct (NodeJSStorageAdapter.refuses a _ path');
    [by destruct (String.eqb path' path)|].
  destruct (String.eqb_spec path' path) as [->|Hne].
  - by rewrite map_get_set by apply String.eqb_refl.
  - rewrite map_get_set_ne; [done | apply string_eqb_eq | by apply String.eqb_neq].
Qed.

Lemma nodejs_exists_after_delete path path' a :
  NodeJSStorageAdapter.existsSync path'
    (NodeJSStorageAdapter.with_files
       (map_delete String.eqb path (NodeJSStorageAdapter.files a)) a)
  = if String.eqb path' path then false
    else NodeJSStorageAdapter.existsSync path' a.
Proof.
  unfold NodeJSStorageAdapter.existsSync, map_has. simpl.
  destruct (NodeJSStorageAdapter.refuses a _ path');
    [by destruct (String.eqb path' path)|].
  destruct (String.eqb_spec path' path) as [->|Hne].
  - by rewrite map_get_delete.
  - rewrite map_get_delete_ne; [done | apply string_eqb_eq | by apply String.eqb_neq].
Qed.

Lemma nodejs_read_after_delete path path' a :
  path' <> path ->
  NodeJSStorageAdapter.readFileSync path'
    (NodeJSStorageAdapter.with_files
       (map_delete String.eqb path (NodeJSStorageAdapter.files a)) a)
  = NodeJSStorageAdapter.readFileSync path' a.
Proof.
  intros Hne. unfold NodeJSStorageAdapter.readFileSync. simpl.
  rewrite map_get_delete_ne; [done | apply string_eqb_eq | by apply String.eqb_neq].
Qed.

(** What [set] does, by what the file system answers. *)
Lemma nodejs_set_run collection key v options now a filePath :
  NodeJSStorageAdapter.getFilePath a collection key = inr filePath ->
  NodeJSStorageAdapter.set collection key v options now a
  = match json_image v, NodeJSStorageAdapter.refuses a NodeJSStorageAdapter.Write filePath with
    | None, _ =>
        (inl (Error ("Failed to save data: " +:+ NodeJSStorageAdapter.invalid_data)), a)
    | Some _, Some message => (inl (Error ("Failed to save data: " +:+ message)), a)
    | Some doc, None =>
        (inr (VObj [("success", VBool true); ("key", key);
                    ("filePath", VStr filePath); ("timestamp", VNum now)]),
         NodeJSStorageAdapter.with_files
           (map_set String.eqb filePath (Json doc) (NodeJSStorageAdapter.files a)) a)
    end.
Proof.
  intros Hp. unfold NodeJSStorageAdapter.set, NodeJSStorageAdapter.writeFileSync.
  rewrite Hp. destruct (json_image v); [|done].
  by destruct (NodeJSStorageAdapter.refuses a _ filePath).
Qed.

(** What [delete] does, by what the file system answers. *)
Lemma nodejs_delete_run collection key options a filePath :
  NodeJSStorageAdapter.getFilePath a collection key = inr filePath ->
  NodeJSStorageAdapter.delete collection key options a
  = if NodeJSStorageAdapter.existsSync filePath a then
      match NodeJSStorageAdapter.refuses a NodeJSStorageAdapter.Unlink filePath with
      | Some message => (inl (Error ("Failed to delete data: " +:+ message)), a)
      | None =>
          (inr (VObj [("success", VBool true); ("deleted", key)]),
           NodeJSStorageAdapter.with_files
             (map_delete String.eqb filePath (NodeJSStorageAdapter.files a)) a)
      end
    else (inr (VObj [("success", VBool true); ("deleted", key)]), a).
Proof.
  intros Hp. unfold NodeJSStorageAdapter.delete, NodeJSStorageAdapter.unlinkSync.
  rewrite Hp. destruct (NodeJSStorageAdapter.existsSync filePath a) eqn:He; [|done].
  destruct (NodeJSStorageAdapter.refuses a _ filePath); [done|].
  unfold NodeJSStorageAdapter.existsSync in He.
  destruct (NodeJSStorageAdapter.refuses a _ filePath); [done|]. by rewrite He.
Qed.

Lemma nodejs_get_run collection key options a a' filePath :
  NodeJSStorageAdapter.dataDir a' = NodeJSStorageAdapter.dataDir a ->
  NodeJSStorageAdapter.getFilePath a collection key = inr filePath ->
  NodeJSStorageAdapter.get collection key options a'
  = if NodeJSStorageAdapter.existsSync filePath a' then
      match NodeJSStorageAdapter.readFileSync filePath a' with
      | inr (Json doc) => inr doc
      | _ => inr VNull
      end
    else inr VNull.
Proof.
  intros Hd Hp. unfold NodeJSStorageAdapter.get, NodeJSStorageAdapter.getFilePath in *.
  rewrite Hd, Hp. destruct (NodeJSStorageAdapter.existsSync filePath a'); [|done].
  by destruct (NodeJSStorageAdapter.readFileSync filePath a') as [e|[doc|]].
Qed.

Lemma nodejs_dataDir_set collection key v options now a :
  NodeJSStorageAdapter.dataDir (NodeJSStorageAdapter.set collection key v options now a).2
  = NodeJSStorageAdapter.dataDir a.
Proof.
  unfold NodeJSStorageAdapter.set, NodeJSStorageAdapter.writeFileSync.
  destruct (NodeJSStorageAdapter.getFilePath a collection key); [done|].
  destruct (json_image v); [|done].
  by destruct (NodeJSStorageAdapter.refuses a _ _).
Qed.

Lemma nodejs_dataDir_delete collection key options a :
  NodeJSStorageAdapter.dataDir (NodeJSStorageAdapter.delete collection key options a).2
  = NodeJSStorageAdapter.dataDir a.
Proof.
  unfold NodeJSStorageAdapter.delete, NodeJSStorageAdapter.unlinkSync.
  destruct (NodeJSStorageAdapter.getFilePath a collection key); [done|].
  destruct (NodeJSStorageAdapter.existsSync _ a); [|done].
  destruct (NodeJSStorageAdapter.refuses a _ _); [done|].
  by destruct (map_has _ _ _).
Qed.

(** X4: the file adapter is a map from normalised file paths to documents,
    as long as the file system does not refuse the calls.  A value that has
    no JSON text is refused, and so is a [set] whose file the file system
    refuses to write; the adapter is then as it was.  A [set] that is not
    refused is read back by every [get] whose collection and key give the
    same path, when the file system lets the file be read; after a [delete]
    whose file may be removed such a [get] answers [null]; a [set] or
    [delete] of one path is not seen under another. *)
Theorem nodejs_get_set_delete (collection key v options : Value)
    (filePath : string) (now : Z) (a : NodeJSStorageAdapter.state) :
  NodeJSStorageAdapter.getFilePath a collection key = inr filePath ->
  let after_set := (NodeJSStorageAdapter.set collection key v options now a).2 in
  let after_delete := (NodeJSStorageAdapter.delete collection key options a).2 in
  (json_image v = None ->
   NodeJSStorageAdapter.set collection key v options now a
   = (inl (Error ("Failed to save data: " +:+ NodeJSStorageAdapter.invalid_data)), a))
  /\ (forall doc message,
        json_image v = Some doc ->
        NodeJSStorageAdapter.refuses a NodeJSStorageAdapter.Write filePath
        = Some message ->
        NodeJSStorageAdapter.set collection key v options now a
        = (inl (Error ("Failed to save data: " +:+ message)), a))
  /\ (forall collection' key' options' doc,
        NodeJSStorageAdapter.getFilePath a collection' key' = inr filePath ->
        json_image v = Some doc ->
        NodeJSStorageAdapter.refuses a NodeJSStorageAdapter.Write filePath = None ->
        NodeJSStorageAdapter.refuses a NodeJSStorageAdapter.Exists filePath = None ->
        NodeJSStorageAdapter.refuses a NodeJSStorageAdapter.Read filePath = None ->
        NodeJSStorageAdapter.get collection' key' options' after_set = inr doc)
  /\ (forall collection' key' options',
        NodeJSStorageAdapter.getFilePath a collection' key' = inr filePath ->
        NodeJSStorageAdapter.refuses a NodeJSStorageAdapter.Unlink filePath = None ->
        NodeJSStorageAdapter.get collection' key' options' after_delete = inr VNull)
  /\ (forall collection' key' options' filePath',
        NodeJSStorageAdapter.getFilePath a collection' key' = inr filePath' ->
        filePath' <> filePath ->
        NodeJSStorageAdapter.get collection' key' options' after_set
        = NodeJSStorageAdapter.get collection' key' options' a
        /\ NodeJSStorageAdapter.get collection' key' options' after_delete
           = NodeJSStorageAdapter.get collection' key' options' a).
Proof.
  intros Hp. cbv zeta.
  pose proof (nodejs_set_run collection key v options now a filePath Hp) as Hset.
  pose proof (nodejs_delete_run collection key options a filePath Hp) as Hdel.
  pose proof (nodejs_dataDir_set collection key v options now a) as Hds.
  pose proof (nodejs_dataDir_delete collection key options a) as Hdd.
  split; [|split; [|split; [|split]]].
  - intros Hj. by rewrite Hset, Hj.
  - intros doc message Hj Hw. by rewrite Hset, Hj, Hw.
  - intros collection' key' options' doc Hp' Hj Hw He Hr.
    rewrite (nodejs_get_run _ _ _ a _ filePath Hds Hp').
    rewrite Hset, Hj, Hw. cbn [snd].
    rewrite nodejs_exists_after_set, nodejs_read_after_set, String.eqb_refl.
    by rewrite He, Hr.
  - intros collection' key' options' Hp' Hu.
    rewrite (nodejs_get_run _ _ _ a _ filePath Hdd Hp').
    rewrite Hdel, Hu.
    destruct (NodeJSStorageAdapter.existsSync filePath a) eqn:He; cbn [snd].
    + by rewrite nodejs_exists_after_delete, String.eqb_refl.
    + by rewrite He.
  - intros collection' key' options' filePath' Hp' Hne.
    rewrite (nodejs_get_run _ _ _ a _ filePath' Hds Hp').
    rewrite (nodejs_get_run _ _ _ a _ filePath' Hdd Hp').
    rewrite (nodejs_get_run _ _ _ a a filePath' eq_refl Hp').
    apply String.eqb_neq in Hne as Hb. split.
    + rewrite Hset. destruct (json_image v) as [doc|]; [|done].
      destruct (NodeJSStorageAdapter.refuses a NodeJSStorageAdapter.Write filePath);
        [done|]. cbn [snd].
      by rewrite nodejs_exists_after_set, nodejs_read_after_set, Hb.
    + rewrite Hdel. destruct (NodeJSStorageAdapter.existsSync filePath a); [|done].
      destruct (NodeJSStorageAdapter.refuses a NodeJSStorageAdapter.Unlink filePath);
        [reflexivity|]. cbn [snd].
      by rewrite nodejs_exists_after_delete, Hb, nodejs_read_after_delete.
Qed.

Lemma nodejs_get_set_delete_witness :
  let a := NodeJSStorageAdapter.new "/srv/broker/data" in
  NodeJSStorageAdapter.get (VStr "x/../cart") (VStr "u1") (VObj [])
    (NodeJSStorageAdapter.set (VStr "cart") (VStr "u1") (VNum 0) (VObj []) 0 a).2
  = inr (VNum 0)
  /\ NodeJSStorageAdapter.get (VStr "cart") (VStr "u1") (VObj [])
       (NodeJSStorageAdapter.delete (VStr "cart") (VStr "u1") (VObj []) a).2
     = inr VNull.
Proof.
  destruct (nodejs_get_set_delete (VStr "cart") (VStr "u1") (VNum 0)
              (VObj []) "/srv/broker/data/cart_u1.json" 0
              (NodeJSStorageAdapter.new "/srv/broker/data") eq_refl)
    as (_ & _ & Hget & Hdel & _).
  split.
  - exact (Hget (VStr "x/../cart") (VStr "u1") (VObj []) (VNum 0)
             eq_refl eq_refl eq_refl eq_refl eq_refl).
  - exact (Hdel (VStr "cart") (VStr "u1") (VObj []) eq_refl eq_refl).
Defined.

End Stores.

(** ** What a query answers *)

Section Queries.
Import Js Adapters.

Lemma own_get_elem k v ps : own_get k ps = Some v -> (k, v) ∈ ps.
Proof.
  induction ps as [|[k' v'] r IH]; simpl; [discriminate|].
  destruct (String.eqb k k') eqn:E.
  - apply String.eqb_eq in E as <-. intros [= ->]. by left.
  - intros H. right. by apply IH.
Qed.

Lemma map_get_elem {V : Type} k (v : V) m :
  map_get String.eqb k m = Some v -> (k, v) ∈ m.
Proof.
  induction m as [|[k' v'] r IH]; simpl; [discriminate|].
  destruct (String.eqb k k') eqn:E.
  - apply String.eqb_eq in E as <-. intros [= ->]. by left.
  - intros H. right. by apply IH.
Qed.

Lemma elem_of_map_set {V : Type} q (x : V) k v m :
  (q, x) ∈ map_set String.eqb k v m -> (q = k /\ x = v) \/ (q, x) ∈ m.
Proof.
  unfold map_set. destruct (map_has String.eqb k m).
  - induction m as [|[k' v'] r IH]; simpl; [by right|].
    destruct (String.eqb k k') eqn:E.
    + apply String.eqb_eq in E as <-. rewrite !elem_of_cons.
      intros [[= -> ->]|H]; [by left | right; by right].
    + rewrite !elem_of_cons. intros [H|H]; [right; by left|].
      destruct (IH H) as [?|?]; [by left | right; by right].
  - rewrite elem_of_app, list_elem_of_singleton. intros [H|[= -> ->]]; auto.
Qed.

(** *** Strings *)

Lemma append_cons c (a b : string) : String c a +:+ b = String c (a +:+ b).
Proof. reflexivity. Qed.

Lemma prefix_cons a s1 b s2 :
  String.prefix (String a s1) (String b s2)
  = if ascii_dec a b then String.prefix s1 s2 else false.
Proof. reflexivity. Qed.

Lemma prefix_app p s : String.prefix p (p +:+ s) = true.
Proof.
  induction p as [|c p IH]; [by destruct s|]. rewrite append_cons, prefix_cons.
  destruct (ascii_dec c c); [exact IH | done].
Qed.

Lemma length_app p s :
  String.length (p +:+ s) = (String.length p + String.length s)%nat.
Proof.
  induction p as [|c p IH]; [done|]. rewrite append_cons. simpl. by rewrite IH.
Qed.

Lemma substring_all s : String.substring 0 (String.length s) s = s.
Proof. induction s as [|c s IH]; simpl; [done | by rewrite IH]. Qed.

Lemma substring_app p s :
  String.substring (String.length p) (String.length s) (p +:+ s) = s.
Proof.
  induction p as [|c p IH]; [apply substring_all|]. rewrite append_cons. exact IH.
Qed.

Lemma remove_first_unfold p s :
  remove_first p s
  = if String.prefix p s
    then String.substring (String.length p) (String.length s - String.length p) s
    else match s with
         | EmptyString => EmptyString
         | String c r => String c (remove_first p r)
         end.
Proof. by destruct s. Qed.

(** Removing a prefix leaves what follows it. *)
Lemma remove_first_prefix p s : remove_first p (p +:+ s) = s.
Proof.
  rewrite remove_first_unfold, prefix_app, length_app.
  replace (String.length p + String.length s - String.length p)%nat
    with (String.length s) by lia.
  apply substring_app.
Qed.

Lemma app_assoc_string (a b c : string) : (a +:+ b) +:+ c = a +:+ (b +:+ c).
Proof. induction a as [|x a IH]; [done|]. by rewrite !append_cons, IH. Qed.

Lemma prefix_json_app s :
  s <> "" -> String.prefix ".json" s = false ->
  String.prefix ".json" (s +:+ ".json") = false.
Proof.
  intros Hs H.
  destruct s as [|c1 s]; [done|]. rewrite append_cons, prefix_cons in *.
  destruct (ascii_dec "." c1); [|done].
  destruct s as [|c2 s]; [done|]. rewrite append_cons, prefix_cons in *.
  destruct (ascii_dec "j" c2); [|done].
  destruct s as [|c3 s]; [done|]. rewrite append_cons, prefix_cons in *.
  destruct (ascii_dec "s" c3); [|done].
  destruct s as [|c4 s]; [done|]. rewrite append_cons, prefix_cons in *.
  destruct (ascii_dec "o" c4); [|done].
  destruct s as [|c5 s]; [done|]. rewrite append_cons, prefix_cons in *.
  destruct (ascii_dec "n" c5); [|done]. by destruct s.
Qed.

(** The extension goes, and nothing else, when the key has no [.json] of
    its own. *)
Lemma remove_first_json k :
  Server.includes ".json" k = false -> remove_first ".json" (k +:+ ".json") = k.
Proof.
  induction k as [|c k IH]; [done|].
  intros H. cbn [Server.includes] in H. apply orb_false_iff in H as [Hp Hi].
  change (String c k +:+ ".json") with (String c (k +:+ ".json")).
  rewrite remove_first_unfold.
  change (String c (k +:+ ".json")) with (String c k +:+ ".json") at 1.
  rewrite prefix_json_app by done. by rewrite IH.
Qed.


(** *** The entry just set is among the records *)





Lemma for_each_keeps prefix query items :
  forall results out,
    ReactNativeStorageAdapter.for_each prefix query items results = inr out ->
    (forall r, r ∈ results -> r ∈ out)
    /\ forall key doc,
         (key, Some doc) ∈ items -> starts_with prefix key = true ->
         matches doc query = inr true ->
         key_spread (VStr (remove_first prefix key)) doc ∈ out.
Proof.
  induction items as [|[key' value] rest IH]; intros results out; simpl.
  - intros [= <-]. split; [done|]. intros key doc H. by apply elem_of_nil in H.
  - destruct (starts_with prefix key') eqn:Hs.
    + destruct (ReactNativeStorageAdapter.parse value) as [e|parsed] eqn:Hp;
        [discriminate|]. cbn [bind_exn].
      destruct (matches parsed query) as [e|keep] eqn:Hm; [discriminate|].
      cbn [bind_exn]. intros Hrest. destruct (IH _ _ Hrest) as [Hsub Hall]. split.
      * intros r Hr. apply Hsub. destruct keep; [|done].
        apply elem_of_app. by left.
      * intros key doc. rewrite elem_of_cons. intros [[= -> <-]|Hin] Hk Hd.
        -- injection Hp as <-. rewrite Hd in Hm. injection Hm as <-.
           apply Hsub, elem_of_app. right. by left.
        -- by apply Hall.
    + intros Hrest. destruct (IH _ _ Hrest) as [Hsub Hall]. split; [done|].
      intros key doc. rewrite elem_of_cons. intros [[= -> <-]|Hin] Hk Hd.
      * congruence.
      * by apply Hall.
Qed.

Lemma map_set_elem {V : Type} k (v : V) m : (k, v) ∈ map_set String.eqb k v m.
Proof. apply map_get_elem, map_get_set, String.eqb_refl. Qed.

(** X6: on the React Native adapter a query that returns lists the entry
    that was just set, under the string form of its key, when its document
    matches. *)
Theorem react_native_query_after_set (collection key v options query results doc : Value)
    (c k : string) (now : Z) (a : ReactNativeStorageAdapter.state) :
  to_string collection = inr c -> to_string key = inr k ->
  json_image v = Some doc -> matches doc query = inr true ->
  ReactNativeStorageAdapter.query collection query options
    (ReactNativeStorageAdapter.set collection key v options now a).2 = inr results ->
  exists records,
    results = VArr records /\ key_spread (VStr k) doc ∈ records.
Proof.
  intros Hc Hk Hj Hm.
  unfold ReactNativeStorageAdapter.query, ReactNativeStorageAdapter.set,
    ReactNativeStorageAdapter.full_key.
  rewrite Hc, Hk, Hj. cbn [bind_exn snd ReactNativeStorageAdapter.storage].
  match goal with |- context [ReactNativeStorageAdapter.for_each ?p query ?items []] =>
    destruct (ReactNativeStorageAdapter.for_each p query items []) as [e|out] eqn:Hf end;
    [discriminate|].
  cbn [bind_exn]. intros [= <-]. eexists. split; [reflexivity|].
  destruct (for_each_keeps _ _ _ _ _ Hf) as [_ Hall].
  specialize (Hall (c +:+ ":" +:+ k) doc (map_set_elem _ _ _)).
  rewrite <- app_assoc_string in Hall. rewrite remove_first_prefix in Hall.
  apply Hall; [apply prefix_app | exact Hm].
Qed.

Lemma react_native_query_after_set_witness :
  exists records,
    VArr [VObj [("key", VStr "1"); ("total", VNum 42)]] = VArr records
    /\ key_spread (VStr "1") (VObj [("total", VNum 42)]) ∈ records.
Proof.
  apply (react_native_query_after_set (VStr "cart") (VNum 1)
           (VObj [("total", VNum 42); ("note", VUndefined)])
           (VObj []) (VObj [("total", VNum 42)])
           (VArr [VObj [("key", VStr "1"); ("total", VNum 42)]])
           (VObj [("total", VNum 42)])
           "cart" "1" 0 ReactNativeStorageAdapter.new); reflexivity.
Defined.

(** *** Paths of the data directory *)

Lemma split_path_cons c r :
  split_path (String c r)
  = if Ascii.eqb c "/" then EmptyString :: split_path r
    else match split_path r with
         | segment :: segments => String c segment :: segments
         | [] => [String c EmptyString]
         end.
Proof. reflexivity. Qed.

Lemma split_path_not_nil path : split_path path <> [].
Proof.
  destruct path as [|c r]; [done|]. rewrite split_path_cons.
  destruct (Ascii.eqb c "/"); [done|]. by destruct (split_path r).
Qed.

Lemma split_path_no_separator s : no_separator s = true -> split_path s = [s].
Proof.
  induction s as [|c r IH]; [done|]. simpl. intros H.
  apply andb_true_iff in H as [Hc Hr]. apply negb_true_iff in Hc.
  rewrite Hc. by rewrite IH.
Qed.

Lemma split_path_app a b :
  split_path (a +:+ "/" +:+ b) = split_path a ++ split_path b.
Proof.
  induction a as [|c a IH]; [reflexivity|].
  rewrite append_cons, !split_path_cons, IH.
  destruct (Ascii.eqb c "/"); [done|].
  pose proof (split_path_not_nil a). by destruct (split_path a).
Qed.

Lemma plain_spec segment :
  plain segment = true ->
  no_separator segment = true /\ segment <> "" /\ segment <> "." /\ segment <> "..".
Proof.
  unfold plain. rewrite !andb_true_iff, !negb_true_iff, !String.eqb_neq. tauto.
Qed.

Lemma normalize_segments_plain allowAboveRoot segments :
  forallb plain segments = true ->
  forall kept,
    normalize_segments allowAboveRoot kept segments = rev kept ++ segments.
Proof.
  induction segments as [|s r IH]; intros H kept; simpl.
  - by rewrite app_nil_r.
  - simpl in H. apply andb_true_iff in H as [Hs Hr].
    apply plain_spec in Hs as (_ & H1 & H2 & H3).
    apply String.eqb_neq in H1, H2, H3. rewrite H1, H2, H3. simpl.
    rewrite IH by done. simpl. by rewrite <- app_assoc.
Qed.

Lemma concat_cons_cons sep (x y : string) l :
  String.concat sep (x :: y :: l) = x +:+ sep +:+ String.concat sep (y :: l).
Proof. reflexivity. Qed.

Lemma concat_snoc (l : list string) x :
  l <> [] -> String.concat "/" (l ++ [x]) = String.concat "/" l +:+ "/" +:+ x.
Proof.
  induction l as [|y l IH]; [done|]. intros _.
  destruct l as [|z l]; [reflexivity|].
  change ((y :: z :: l) ++ [x]) with (y :: (z :: l) ++ [x]).
  change ((z :: l) ++ [x]) with (z :: (l ++ [x])) at 1.
  rewrite !concat_cons_cons.
  change (z :: l ++ [x]) with ((z :: l) ++ [x]). rewrite IH by done.
  by rewrite !app_assoc_string.
Qed.

Lemma split_path_concat segments :
  segments <> [] -> forallb plain segments = true ->
  split_path (String.concat "/" segments) = segments.
Proof.
  induction segments as [|x l IH]; [done|]. intros _ H.
  simpl in H. apply andb_true_iff in H as [Hx Hl].
  apply plain_spec in Hx as (Hx & _).
  destruct l as [|y l]; [by apply split_path_no_separator|].
  rewrite concat_cons_cons, split_path_app. rewrite (IH ltac:(done) Hl).
  by rewrite split_path_no_separator.
Qed.

Lemma split_path_directory absolute segments :
  segments <> [] -> forallb plain segments = true ->
  split_path (directory_path absolute segments)
  = (if absolute then [EmptyString] else []) ++ segments.
Proof.
  intros Hn Hp. unfold directory_path. destruct absolute.
  - change (split_path (String "/" (String.concat "/" segments))
            = EmptyString :: segments).
    rewrite split_path_cons. change (Ascii.eqb "/" "/") with true. cbv iota.
    by rewrite split_path_concat.
  - change (split_path (String.concat "/" segments) = segments).
    by apply split_path_concat.
Qed.

Lemma concat_not_empty segments :
  segments <> [] -> forallb plain segments = true ->
  exists c r, String.concat "/" segments = String c r /\ Ascii.eqb c "/" = false.
Proof.
  destruct segments as [|x l]; [done|]. intros _ H.
  simpl in H. apply andb_true_iff in H as [Hx _].
  apply plain_spec in Hx as (Hs & Hne & _).
  destruct x as [|c x]; [done|]. simpl in Hs.
  apply andb_true_iff in Hs as [Hc _]. apply negb_true_iff in Hc.
  exists c. destruct l as [|y l].
  - by exists x.
  - rewrite concat_cons_cons, append_cons. by eexists.
Qed.

Lemma strip_segments_app dir rest : strip_segments dir (dir ++ rest) = Some rest.
Proof. induction dir as [|d dir IH]; [done|]. simpl. by rewrite String.eqb_refl. Qed.

(** The path of an entry of a directory: [path.join] adds the name. *)
Lemma path_join_entry absolute segments name :
  segments <> [] -> forallb plain segments = true -> plain name = true ->
  path_join (directory_path absolute segments) name
  = directory_path absolute segments +:+ "/" +:+ name.
Proof.
  intros Hn Hp Hname.
  destruct (plain_spec _ Hname) as (Hsep & Hne & _).
  destruct (concat_not_empty segments Hn Hp) as (c & r & Hc & Hslash).
  unfold path_join.
  assert (Hdir : exists c' r', directory_path absolute segments = String c' r'
                               /\ String.prefix "/" (String c' r') = absolute).
  { unfold directory_path. rewrite Hc. destruct absolute.
    - eexists _, _. split; [reflexivity|]. reflexivity.
    - eexists _, _. split; [reflexivity|]. rewrite prefix_cons.
      destruct (ascii_dec "/" c) as [<-|]; [done|]. done. }
  destruct Hdir as (c' & r' & Hd & Habs).
  rewrite Hd. cbn [String.eqb].
  apply String.eqb_neq in Hne as Hb. rewrite Hb.
  rewrite <- Hd. unfold normalize.
  assert (Hpath : String.eqb (directory_path absolute segments +:+ "/" +:+ name) ""
                  = false) by (by rewrite Hd).
  rewrite Hpath.
  assert (Hprefix : String.prefix "/" (directory_path absolute segments +:+ "/" +:+ name)
                    = absolute).
  { rewrite Hd, append_cons. rewrite <- Habs. rewrite !prefix_cons.
    destruct (ascii_dec "/" c'); [|done].
    generalize (r' +:+ "/" +:+ name). intros x. by destruct x, r'. }
  rewrite Hprefix.
  rewrite split_path_app, split_path_directory, (split_path_no_separator name) by done.
  rewrite last_snoc, Hb.
  assert (Hnorm : normalize_segments (negb absolute) []
                    (((if absolute then [EmptyString] else []) ++ segments) ++ [name])
                  = segments ++ [name]).
  { destruct absolute; simpl.
    - rewrite normalize_segments_plain; [done|].
      rewrite forallb_app, Hp. simpl. by rewrite Hname.
    - rewrite normalize_segments_plain; [done|].
      rewrite forallb_app, Hp. simpl. by rewrite Hname. }
  rewrite Hnorm, concat_snoc by done.
  rewrite Hc, append_cons. cbn [String.eqb].
  unfold directory_path. rewrite Hc.
  destruct absolute; [|reflexivity].
  by rewrite !append_cons.
Qed.

(** ... and [readdirSync] lists it under the name. *)
Lemma entry_name_entry absolute segments name :
  segments <> [] -> forallb plain segments = true -> plain name = true ->
  entry_name (directory_path absolute segments)
             (directory_path absolute segments +:+ "/" +:+ name)
  = Some name.
Proof.
  intros Hn Hp Hname.
  destruct (plain_spec _ Hname) as (Hsep & Hne & _).
  unfold entry_name.
  rewrite split_path_app, (split_path_no_separator name) by done.
  rewrite strip_segments_app. apply String.eqb_neq in Hne. by rewrite Hne.
Qed.

Lemma elem_of_insert_by before x y l :
  y ∈ insert_by before x l <-> y = x \/ y ∈ l.
Proof.
  induction l as [|z l IH]; simpl.
  - rewrite list_elem_of_singleton, elem_of_nil. tauto.
  - destruct (before x z).
    + by rewrite elem_of_cons.
    + rewrite !elem_of_cons, IH. tauto.
Qed.

(** A listing holds the names of the directory, whatever their order. *)
Lemma elem_of_sort_by before x l : x ∈ sort_by before l <-> x ∈ l.
Proof.
  unfold sort_by. induction l as [|y l IH]; simpl; [done|].
  by rewrite elem_of_insert_by, elem_of_cons, IH.
Qed.

(** *** The entry just set is among the files *)

Lemma elem_of_concat {A : Type} (x : A) (ls : list (list A)) :
  (exists l, x ∈ l /\ l ∈ ls) -> x ∈ concat ls.
Proof.
  intros (l & Hx & Hl). apply list_elem_of_In, in_concat.
  exists l. split; by apply list_elem_of_In.
Qed.

Lemma nodejs_collection_files_of collection c listing :
  to_string collection = inr c ->
  NodeJSStorageAdapter.collection_files collection listing
  = inr (filter (fun f => starts_with (c +:+ "_") f = true) listing).
Proof.
  intros Hc. induction listing as [|f r IH]; simpl; [done|].
  rewrite Hc, IH. simpl. rewrite filter_cons.
  destruct (starts_with (c +:+ "_") f); by case_decide.
Qed.

(** X7: on the file adapter a query lists the entry that was just set, under
    the string form of its key, when the file system refuses none of the
    calls, the file name [collection_key.json] is one segment of a path, the
    document matches and the key holds no [.json] of its own. *)
Theorem nodejs_query_after_set (collection key v options query doc : Value)
    (c k : string) (absolute : bool) (segments : list string) (now : Z)
    (a : NodeJSStorageAdapter.state) :
  to_string collection = inr c -> to_string key = inr k ->
  NodeJSStorageAdapter.dataDir a = directory_path absolute segments ->
  segments <> [] -> forallb plain segments = true ->
  plain (c +:+ "_" +:+ k +:+ ".json") = true ->
  Server.includes ".json" k = false ->
  let filePath :=
    NodeJSStorageAdapter.dataDir a +:+ "/" +:+ c +:+ "_" +:+ k +:+ ".json" in
  NodeJSStorageAdapter.refuses a NodeJSStorageAdapter.Write filePath = None ->
  NodeJSStorageAdapter.refuses a NodeJSStorageAdapter.Readdir
    (NodeJSStorageAdapter.dataDir a) = None ->
  NodeJSStorageAdapter.refuses a NodeJSStorageAdapter.Read filePath = None ->
  json_image v = Some doc -> matches doc query = inr true ->
  exists records,
    NodeJSStorageAdapter.query collection query options
      (NodeJSStorageAdapter.set collection key v options now a).2
    = inr (VArr records)
    /\ key_spread (VStr k) doc ∈ records.
Proof.
  intros Hc Hk Hdir Hn Hp Hname Hjson. cbv zeta. intros Hw Hl Hr Hj Hm.
  set (name := c +:+ "_" +:+ k +:+ ".json") in *.
  set (filePath := NodeJSStorageAdapter.dataDir a +:+ "/" +:+ name) in *.
  assert (Hjoin : path_join (NodeJSStorageAdapter.dataDir a) name = filePath).
  { subst filePath. rewrite Hdir. by apply path_join_entry. }
  assert (Hentry : entry_name (NodeJSStorageAdapter.dataDir a) filePath = Some name).
  { subst filePath. rewrite Hdir. by apply entry_name_entry. }
  assert (Hpath : NodeJSStorageAdapter.getFilePath a collection key = inr filePath).
  { unfold NodeJSStorageAdapter.getFilePath, NodeJSStorageAdapter.file_name.
    rewrite Hc, Hk. cbn [bind_exn]. exact (f_equal inr Hjoin). }
  rewrite (nodejs_set_run _ _ _ _ _ _ _ Hpath), Hj, Hw. cbn [snd].
  set (a' := NodeJSStorageAdapter.with_files _ a).
  unfold NodeJSStorageAdapter.query, NodeJSStorageAdapter.readdirSync.
  change (NodeJSStorageAdapter.refuses a') with (NodeJSStorageAdapter.refuses a).
  change (NodeJSStorageAdapter.dataDir a') with (NodeJSStorageAdapter.dataDir a).
  rewrite Hl. cbn [bind_exn].
  rewrite (nodejs_collection_files_of _ c) by done. cbn [bind_exn].
  set (listing := sort_by _ _).
  assert (Hin : name ∈ filter (fun f => starts_with (c +:+ "_") f = true) listing).
  { apply list_elem_of_filter. split.
    - subst name. rewrite <- app_assoc_string. apply prefix_app.
    - subst listing. apply elem_of_sort_by. apply list_elem_of_omap.
      exists (filePath, Json doc). split; [apply map_set_elem | exact Hentry]. }
  destruct (filter _ listing) as [|f fs] eqn:Hfs; [by apply elem_of_nil in Hin|].
  rewrite Hc. eexists. split; [reflexivity|].
  apply elem_of_concat.
  exists (NodeJSStorageAdapter.visit a' (c +:+ "_") query name).
  split.
  - unfold NodeJSStorageAdapter.visit.
    change (NodeJSStorageAdapter.dataDir a') with (NodeJSStorageAdapter.dataDir a).
    rewrite Hjoin. subst a'. rewrite nodejs_read_after_set, String.eqb_refl, Hr, Hm.
    subst name. rewrite <- app_assoc_string, remove_first_prefix.
    rewrite remove_first_json by done. by left.
  - apply list_elem_of_fmap. by exists name.
Qed.

Lemma nodejs_query_after_set_witness :
  exists records,
    NodeJSStorageAdapter.query (VStr "cart") (VObj [("total", VNum 42)]) (VObj [])
      (NodeJSStorageAdapter.set (VStr "cart") (VStr "u1") (VObj [("total", VNum 42)])
         (VObj []) 0 (NodeJSStorageAdapter.new "/srv/broker/data")).2
    = inr (VArr records)
    /\ key_spread (VStr "u1") (VObj [("total", VNum 42)]) ∈ records.
Proof.
  apply (nodejs_query_after_set (VStr "cart") (VStr "u1") (VObj [("total", VNum 42)])
           (VObj []) (VObj [("total", VNum 42)]) (VObj [("total", VNum 42)])
           "cart" "u1" true ["srv"; "broker"; "data"] 0
           (NodeJSStorageAdapter.new "/srv/broker/data"));
    try reflexivity; discriminate.
Defined.


(** *** The key of a record *)

Lemma own_get_fold_set q kvs :
  forall acc,
    NoDup kvs.*1 ->
    own_get q (fold_left (fun acc kv => own_set kv.1 kv.2 acc) kvs acc)
    = match own_get q kvs with
      | Some x => Some x
      | None => own_get q acc
      end.
Proof.
  induction kvs as [|[k v] r IH]; intros acc Hnd; [done|].
  apply NoDup_cons in Hnd as [Hk Hnd]. cbn [fold_left fst snd own_get].
  rewrite IH by done. destruct (String.eqb q k) eqn:E.
  - apply String.eqb_eq in E as ->.
    destruct (own_get k r) as [x|] eqn:G.
    + exfalso. apply Hk. apply own_get_elem in G.
      apply list_elem_of_fmap. by exists (k, x).
    + apply own_get_set.
  - destruct (own_get q r); [done|]. by apply own_get_set_ne.
Qed.

(** X8: the record of a stored object reports the object's own [key]
    field when it has one, and the key it is stored under otherwise. *)
Theorem record_key (k : string) (ps : list (string * Value)) :
  NoDup ps.*1 ->
  Server.prop (BrowserStorageAdapter.record_of (k, VObj ps)) "key"
  = default (VStr k) (own_get "key" ps)
  /\ Server.prop (key_spread (VStr k) (VObj ps)) "key"
     = default (VStr k) (own_get "key" ps).
Proof.
  intros Hnd.
  assert (H : Server.prop (key_spread (VStr k) (VObj ps)) "key"
              = default (VStr k) (own_get "key" ps)).
  { unfold Server.prop, key_spread, get_member. cbn [own_enumerable].
    rewrite own_get_fold_set by done. by destruct (own_get "key" ps). }
  split; exact H.
Qed.

Lemma record_key_witness :
  Server.prop (BrowserStorageAdapter.record_of
                 ("u1", VObj [("key", VStr "other"); ("total", VNum 1)])) "key"
  = VStr "other"
  /\ Server.prop (key_spread (VStr "u1")
                    (VObj [("key", VStr "other"); ("total", VNum 1)])) "key"
     = VStr "other".
Proof.
  apply (record_key "u1" [("key", VStr "other"); ("total", VNum 1)]).
  apply (bool_decide_unpack _). vm_compute. reflexivity.
Defined.

(** *** Fields that hold an object *)

Lemma every_field_composite value fields k q :
  (k, q) ∈ fields -> (exists ps, q = VObj ps) \/ (exists l, q = VArr l) ->
  every_field value fields <> inr true.
Proof.
  intros Hin Hq. induction fields as [|[k' q'] r IH]; [by apply elem_of_nil in Hin|].
  cbn [every_field]. destruct (get_member value k') as [e|x]; [discriminate|].
  cbn [bind_exn]. apply elem_of_cons in Hin as [[= <- <-]|Hin].
  - assert (strict_equals x q = false) as ->; [|discriminate].
    destruct Hq as [[ps ->]|[l ->]]; by destruct x.
  - destruct (strict_equals x q'); [by apply IH | discriminate].
Qed.

Lemma filter_entries_sound query entries :
  forall kept,
    BrowserStorageAdapter.filter_entries query entries = inr kept ->
    forall e, e ∈ kept -> matches e.2 query = inr true.
Proof.
  induction entries as [|[k v] r IH]; intros kept; simpl.
  - intros [= <-] e H. by apply elem_of_nil in H.
  - destruct (matches v query) as [e|keep] eqn:Hm; [discriminate|]. simpl.
    destruct (BrowserStorageAdapter.filter_entries query r) as [e|rest]; [discriminate|].
    simpl. intros [= <-] e. destruct keep.
    + rewrite elem_of_cons. intros [->|Hin]; [done | by apply (IH rest)].
    + by apply (IH rest).
Qed.

Lemma for_each_none prefix query items :
  (forall value, matches value query <> inr true) ->
  forall results out,
    ReactNativeStorageAdapter.for_each prefix query items results = inr out ->
    out = results.
Proof.
  intros Hno. induction items as [|[key value] rest IH]; intros results out; simpl.
  - by intros [= <-].
  - destruct (starts_with prefix key); [|apply IH].
    destruct (ReactNativeStorageAdapter.parse value) as [e|parsed]; [discriminate|].
    cbn [bind_exn].
    destruct (matches parsed query) as [e|[]] eqn:Hm; [discriminate| |].
    + by apply Hno in Hm.
    + cbn [bind_exn]. apply IH.
Qed.

(** X9: a query with a field that holds an object or an array matches no
    value, so the adapters answer it with no record. *)
Theorem query_with_object_field (fields : list (string * Value)) (k : string)
    (q collection options : Value) :
  (k, q) ∈ fields -> (exists ps, q = VObj ps) \/ (exists l, q = VArr l) ->
  (forall value, matches value (VObj fields) <> inr true)
  /\ (forall a results,
        BrowserStorageAdapter.query collection (VObj fields) options a = inr results ->
        results = VArr [])
  /\ (forall a results,
        ReactNativeStorageAdapter.query collection (VObj fields) options a = inr results ->
        results = VArr [])
  /\ (forall a results,
        NodeJSStorageAdapter.query collection (VObj fields) options a = inr results ->
        results = VArr []).
Proof.
  intros Hin Hq.
  assert (Hno : forall value, matches value (VObj fields) <> inr true).
  { intros value. unfold matches. simpl. by eapply every_field_composite. }
  split; [exact Hno|]. split; [|split].
  - intros a results. unfold BrowserStorageAdapter.query.
    destruct (BrowserStorageAdapter.use_indexedDB options) as [e|idb]; [discriminate|].
    cbn [bind_exn].
    match goal with |- context [BrowserStorageAdapter.filter_entries ?qq ?es] =>
      destruct (BrowserStorageAdapter.filter_entries qq es) as [e|kept] eqn:Hf end;
      [discriminate|].
    cbn [bind_exn]. intros [= <-]. destruct kept as [|e kept]; [done|].
    exfalso. apply (Hno e.2). eapply filter_entries_sound; [exact Hf | by left].
  - intros a results. unfold ReactNativeStorageAdapter.query.
    destruct (to_string collection) as [e|c]; [discriminate|]. cbn [bind_exn].
    match goal with |- context [ReactNativeStorageAdapter.for_each ?p ?qq ?items []] =>
      destruct (ReactNativeStorageAdapter.for_each p qq items []) as [e|out] eqn:Hf end;
      [discriminate|].
    cbn [bind_exn]. intros [= <-]. by rewrite (for_each_none _ _ _ Hno _ _ Hf).
  - intros a results. unfold NodeJSStorageAdapter.query.
    destruct (NodeJSStorageAdapter.readdirSync a) as [e|listing]; [discriminate|].
    cbn [bind_exn].
    destruct (NodeJSStorageAdapter.collection_files collection listing) as [e|files];
      [discriminate|].
    cbn [bind_exn]. destruct files as [|f files]; [by intros [= <-]|].
    destruct (to_string collection) as [e|c]; [by intros [= <-]|].
    assert (Hv : forall file,
               NodeJSStorageAdapter.visit a (c +:+ "_") (VObj fields) file = []).
    { intros file. unfold NodeJSStorageAdapter.visit.
      destruct (NodeJSStorageAdapter.readFileSync _ a) as [e|[data|]]; [done| |done].
      destruct (matches data (VObj fields)) as [e|[]] eqn:Hm; [done| |done].
      by apply Hno in Hm. }
    assert (Hall : forall l,
               concat (map (NodeJSStorageAdapter.visit a (c +:+ "_") (VObj fields)) l)
               = []).
    { induction l as [|x l IH]; [done|]. cbn [map concat]. by rewrite Hv, IH. }
    intros [= <-]. f_equal. apply (Hall (f :: files)).
Qed.

Lemma query_with_object_field_witness :
  matches (VObj [("owner", VObj [("id", VNum 1)])])
          (VObj [("owner", VObj [("id", VNum 1)])]) <> inr true.
Proof.
  exact (proj1 (query_with_object_field [("owner", VObj [("id", VNum 1)])]
                  "owner" (VObj [("id", VNum 1)]) (VStr "cart") (VObj [])
                  ltac:(by left) ltac:(left; by eexists))
               (VObj [("owner", VObj [("id", VNum 1)])])).
Defined.

(** *** The key [__proto__] on the browser adapter *)

(** X10: on the browser adapter a [set] under the key [__proto__] answers
    success and stores no entry: an object given as the value becomes the
    prototype of the collection object, so that its properties are read by
    [get] as if they were entries, while no query lists them. *)
Theorem browser_set_proto (collection v options : Value) (idb : bool) (now : Z)
    (a : BrowserStorageAdapter.state) :
  same_value_zero collection collection = true ->
  BrowserStorageAdapter.use_indexedDB options = inr idb ->
  map_get same_value_zero collection (BrowserStorageAdapter.storage idb a) = None ->
  let r := BrowserStorageAdapter.set collection (VStr "__proto__") v options now a in
  r.1 = inr (VObj [ ("success", VBool true); ("key", VStr "__proto__");
                    ("timestamp", VNum now) ])
  /\ BrowserStorageAdapter.query collection (VObj []) options r.2 = inr (VArr [])
  /\ forall ps q x,
       v = VObj ps -> own_get q ps = Some x -> q <> "__proto__" -> truthy x = true ->
       BrowserStorageAdapter.get collection (VStr q) options r.2 = inr x.
Proof.
  intros Hc Ho Hfresh. cbv zeta.
  unfold BrowserStorageAdapter.set. rewrite Ho. cbn [to_string fst snd].
  rewrite Hfresh. unfold map_has. rewrite Hfresh.
  split; [reflexivity|]. split.
  - rewrite (browser_query_empty _ _ _ idb) by done.
    rewrite browser_storage_with. unfold BrowserStorageAdapter.collection_data.
    rewrite map_get_app_new by done.
    unfold dict_set, empty_object. simpl.
    by destruct (is_object v || strict_equals v VNull).
  - intros ps q x -> Hq Hne Hx.
    unfold BrowserStorageAdapter.get. rewrite Ho. cbn [bind_exn to_string].
    rewrite browser_storage_with. unfold BrowserStorageAdapter.collection_data.
    rewrite map_get_app_new by done.
    unfold dict_set, empty_object, dict_get. simpl.
    apply String.eqb_neq in Hne. rewrite Hne, Hq.
    unfold or_else. by rewrite Hx.
Qed.

Lemma browser_set_proto_witness :
  let r := BrowserStorageAdapter.set (VStr "cart") (VStr "__proto__")
             (VObj [("u1", VStr "planted")]) (VObj []) 0 BrowserStorageAdapter.new in
  BrowserStorageAdapter.query (VStr "cart") (VObj []) (VObj []) r.2 = inr (VArr [])
  /\ BrowserStorageAdapter.get (VStr "cart") (VStr "u1") (VObj []) r.2
     = inr (VStr "planted").
Proof.
  destruct (browser_set_proto (VStr "cart") (VObj [("u1", VStr "planted")]) (VObj [])
              false 0 BrowserStorageAdapter.new eq_refl eq_refl eq_refl)
    as (_ & Hquery & Hget).
  split; [exact Hquery|].
  apply (Hget [("u1", VStr "planted")] "u1" (VStr "planted")); try reflexivity.
  discriminate.
Defined.

End Queries.

(** ** One answer to each request *)

Section OneAnswer.
Import Js Adapters Server.
Context (ws : nat) (id : string) (r : ReadyState).

Lemma quiet_same {A : Type} (m : M A) :
  (forall w, sockets (m w).2 = sockets w /\ sent (m w).2 = sent w) ->
  quiet ws id r m.
Proof.
  intros H w s Hs Hi Hr. destruct (H w) as [-> ->]. split; [by exists s|].
  exists []. by rewrite app_nil_r.
Qed.

Lemma quiet_ret {A : Type} (a : A) : quiet ws id r (ret a).
Proof. by apply quiet_same. Qed.

Lemma quiet_throw {A : Type} (e : Exn) : quiet ws id r (@throw A e).
Proof. by apply quiet_same. Qed.

Lemma quiet_lift {A : Type} (x : Exn + A) : quiet ws id r (lift x).
Proof. apply quiet_same. by destruct x. Qed.

Lemma quiet_gets {A : Type} (f : World -> A) : quiet ws id r (gets f).
Proof. by apply quiet_same. Qed.

Lemma quiet_log entry : quiet ws id r (log entry).
Proof. by apply quiet_same. Qed.

Lemma quiet_Date_now : quiet ws id r Date_now.
Proof. by apply quiet_same. Qed.

Lemma quiet_destructure name v first : quiet ws id r (destructure name v first).
Proof. apply quiet_same. by destruct v. Qed.

Lemma quiet_socket x : quiet ws id r (socket x).
Proof. apply quiet_same. intros w. unfold socket. by destruct (sockets w !! x). Qed.

Lemma quiet_call_adapter storageAdapter method f :
  quiet ws id r (call_adapter storageAdapter method f).
Proof.
  apply quiet_same. intros w.
  pose proof (call_adapter_frame storageAdapter method f w) as H.
  cbv zeta in H. by destruct H as (-> & _ & -> & _).
Qed.

Lemma quiet_bind {A B : Type} (m : M A) (k : A -> M B) :
  quiet ws id r m -> (forall a, quiet ws id r (k a)) -> quiet ws id r (bind m k).
Proof.
  intros Hm Hk w s Hs Hi Hr. unfold bind.
  destruct (Hm w s Hs Hi Hr) as [(s1 & Hs1 & Hi1 & Hr1) (f1 & Hf1 & Hq1)].
  destruct (m w) as [[a|e|] w1]; simpl in *;
    [|split; [by exists s1 | by exists f1]..].
  destruct (Hk a w1 s1 Hs1 Hi1 Hr1) as [Hs2 (f2 & Hf2 & Hq2)].
  split; [exact Hs2|]. exists (f1 ++ f2). split.
  - by rewrite Hf2, Hf1, <- app_assoc.
  - by apply Forall_app.
Qed.

(** A read of the socket itself answers the client id and the ready
    state the computation started with. *)
Lemma quiet_bind_socket {B : Type} (k : Socket -> M B) :
  (forall s, clientId s = id -> readyState s = r -> quiet ws id r (k s)) ->
  quiet ws id r (bind (socket ws) k).
Proof.
  intros Hk w s Hs Hi Hr. unfold bind, socket. rewrite Hs.
  by apply (Hk s Hi Hr w s).
Qed.

Lemma quiet_try_catch {A : Type} (body : M A) (handler : Exn -> M A) :
  quiet ws id r body -> (forall e, quiet ws id r (handler e)) ->
  quiet ws id r (try_catch body handler).
Proof.
  intros Hb Hh w s Hs Hi Hr. unfold try_catch.
  destruct (Hb w s Hs Hi Hr) as [(s1 & Hs1 & Hi1 & Hr1) (f1 & Hf1 & Hq1)].
  destruct (body w) as [[a|e|] w1]; simpl in *;
    [split; [by exists s1 | by exists f1]| |split; [by exists s1 | by exists f1]].
  destruct (Hh e w1 s1 Hs1 Hi1 Hr1) as [Hs2 (f2 & Hf2 & Hq2)].
  split; [exact Hs2|]. exists (f1 ++ f2). split.
  - by rewrite Hf2, Hf1, <- app_assoc.
  - by apply Forall_app.
Qed.

(** A change of the subscriptions of the socket. *)
Lemma quiet_update_socket x f :
  (forall s, clientId (f s) = clientId s /\ readyState (f s) = readyState s) ->
  quiet ws id r (update_socket x f).
Proof.
  intros Hf w s Hs Hi Hr. simpl. split.
  - destruct (decide (x = ws)) as [->|Hne].
    + exists (f s). rewrite lookup_alter_eq, Hs. destruct (Hf s) as [-> ->]. done.
    + exists s. by rewrite lookup_alter_ne.
  - exists []. by rewrite app_nil_r.
Qed.

Lemma quiet_sendMessage x message : x <> ws -> quiet ws id r (sendMessage x message).
Proof.
  intros Hne w s Hs Hi Hr. unfold sendMessage, bind, socket.
  destruct (sockets w !! x) as [sx|]; simpl.
  2: { split; [by exists s|]. exists []. by rewrite app_nil_r. }
  destruct (ReadyState_eqb (readyState sx) OPEN); simpl.
  2: { split; [by exists s|]. exists []. by rewrite app_nil_r. }
  destruct (json_image message) as [doc|]; simpl.
  2: { split; [by exists s|]. exists []. by rewrite app_nil_r. }
  split; [by exists s|]. exists [(x, doc)]. split; [done|].
  by apply Forall_singleton.
Qed.

Lemma quiet_notify_one sk wk collection key operation value x :
  quiet ws id r (notify_one sk wk collection key operation value id x).
Proof.
  unfold notify_one. destruct (decide (x = ws)) as [->|Hne].
  - apply quiet_bind_socket. intros s Hi _. rewrite Hi, String.eqb_refl. apply quiet_ret.
  - apply quiet_bind; [apply quiet_socket|]. intros s.
    destruct (String.eqb _ _); [apply quiet_ret|].
    destruct (_ || _); [|apply quiet_ret].
    apply quiet_bind; [apply quiet_Date_now|]. intros now.
    by apply quiet_sendMessage.
Qed.

Lemma quiet_forEach {A : Type} (l : list A) (f : A -> M unit) :
  (forall x, quiet ws id r (f x)) -> quiet ws id r (forEach l f).
Proof.
  intros Hf. induction l as [|x l IH]; simpl; [apply quiet_ret|].
  apply quiet_bind; auto.
Qed.

Lemma quiet_notifySubscribers collection key operation value :
  quiet ws id r (notifySubscribers collection key operation value id).
Proof.
  unfold notifySubscribers.
  apply quiet_bind; [apply quiet_lift|]. intros sk.
  apply quiet_bind; [apply quiet_lift|]. intros wk.
  apply quiet_bind; [apply quiet_gets|]. intros connections.
  apply quiet_forEach. intros x. apply quiet_notify_one.
Qed.

Lemma quiet_for_of operations body :
  (forall operation results, quiet ws id r (body operation results)) ->
  forall results, quiet ws id r (for_of operations body results).
Proof.
  intros Hb. induction operations as [|x l IH]; intros results; simpl;
    [apply quiet_ret|].
  apply quiet_bind; auto.
Qed.

Create HintDb quiet.
#[local] Hint Resolve quiet_ret quiet_throw quiet_lift quiet_gets quiet_log
  quiet_Date_now quiet_destructure quiet_socket quiet_call_adapter
  quiet_notifySubscribers : quiet.

Ltac quiet_steps :=
  repeat first
    [ solve [auto with quiet]
    | apply quiet_bind_socket; let H := fresh in intros ? H ?; rewrite ?H
    | apply quiet_bind; [solve [auto with quiet]|]; intros ? ].

(** A handler sends nothing to the socket it runs for. *)
Lemma quiet_handler fuel :
  forall op payload storageAdapter,
    quiet ws id r (handler fuel op payload storageAdapter ws).
Proof.
  induction fuel as [|n IH]; intros op payload storageAdapter; destruct op; simpl;
    try solve [unfold handleGet, handleSet, handleDelete, handleQuery, handlePing;
               quiet_steps];
    try solve [by apply quiet_same].
  all: try (unfold handleSubscribe, handleUnsubscribe;
            apply quiet_bind; [auto with quiet|]; intros ?;
            apply quiet_bind; [auto with quiet|]; intros ?;
            apply quiet_bind; [by apply quiet_update_socket|]; intros ?;
            quiet_steps).
  unfold handleBatch.
  apply quiet_bind; [auto with quiet|]. intros ?.
  apply quiet_bind; [auto with quiet|]. intros operations.
  apply quiet_bind; [|auto with quiet].
  apply quiet_for_of. intros operation results. unfold batch_operation.
  apply quiet_bind; [auto with quiet|]. intros type.
  destruct (messageHandlers_get type); [|auto with quiet].
  apply quiet_bind; [apply IH | auto with quiet].
Qed.
End OneAnswer.

Section OneAnswerTheorem.
Import Js Adapters Server.

#[local] Arguments json_image : simpl never.
#[local] Arguments sendMessage : simpl never.
#[local] Arguments error_envelope : simpl never.
#[local] Arguments response : simpl never.
#[local] Arguments handler : simpl never.

Lemma prop_envelope_requestId type requestId rest r :
  json_image requestId = Some r ->
  prop (VObj (("type", type)
              :: match json_image requestId with
                 | Some r => [("requestId", r)]
                 | None => []
                 end ++ rest)) "requestId" = r.
Proof. by intros ->. Qed.

(** One handling, run to its end: the frames it sends to other sockets, and
    then the envelope for the socket it runs for. *)
Lemma handleMessage_answers (ws : nat) (s : Socket) (w : World)
    (message : Value) :
  sockets w !! ws = Some s ->
  readyState s = OPEN ->
  message <> VUndefined -> message <> VNull ->
  exists w' others envelope,
    handleMessage ws (Json message) w = (Returned tt, w')
    /\ sent w' = sent w ++ others ++ [(ws, envelope)]
    /\ Forall (fun f => f.1 <> ws) others
    /\ (prop envelope "type" = VStr "ERROR"
        \/ exists t, to_string (prop message "type") = inr t
                     /\ prop envelope "type" = VStr (t +:+ "_RESPONSE"))
    /\ forall r, json_image (prop message "requestId") = Some r ->
                 prop envelope "requestId" = r.
Proof.
  intros Hs Ho Hu Hn.
  destruct (to_string (prop message "type")) as [e|t] eqn:Ht.
  { pose proof (json_image_error_envelope (prop message "requestId")
                  (message_of e) (clock w)) as Hj.
    eexists _, [], _. split.
    { unfold handleMessage, try_catch, bind, lift. simpl.
      rewrite (destructure_ok _ _ _ _ Hu Hn). rewrite Ht. simpl.
      rewrite (get_member_prop _ _ Hu Hn). simpl.
      erewrite sendMessage_open; [reflexivity | exact Hs | exact Ho | exact Hj]. }
    split; [reflexivity|].
    split; [constructor|]. split; [by left|]. apply prop_envelope_requestId. }
  destruct (messageHandlers_get (prop message "type")) as [h|] eqn:Hh.
  2: { pose proof (json_image_error_envelope (prop message "requestId")
                     ("Unknown message type: " +:+ t) (clock w)) as Hj.
       eexists _, [], _. split.
       { unfold handleMessage, try_catch, bind, lift. simpl.
         rewrite (destructure_ok _ _ _ _ Hu Hn). rewrite Ht. simpl.
         unfold socket at 1. rewrite Hs, Hh. simpl.
         rewrite (get_member_prop _ _ Hu Hn). simpl.
         erewrite sendMessage_open; [reflexivity | exact Hs | exact Ho | exact Hj]. }
       split; [reflexivity|].
       split; [constructor|]. split; [by left|]. apply prop_envelope_requestId. }
  destruct (handler_requires_object _ _ Hh) as [ps ->].
  pose proof (quiet_handler ws (clientId s) OPEN (depth (VObj ps)) h
                (prop (VObj ps) "payload") (storageAdapters_get (platform s))
                (received t s w) s Hs eq_refl Ho)
    as [(s1 & Hs1 & _ & Ho1) (frames & Hframes & Hquiet)].
  pose proof (handler_total (depth (VObj ps)) h (prop (VObj ps) "payload")
                (storageAdapters_get (platform s)) ws
                (depth_prop_object ps "payload") (received t s w)) as Htotal.
  destruct (handler (depth (VObj ps)) h (prop (VObj ps) "payload")
              (storageAdapters_get (platform s)) ws (received t s w))
    as [[result|e|] w1] eqn:Hrun; [| |done]; simpl in *.
  - pose proof (json_image_response t (prop (VObj ps) "requestId") result (clock w1))
      as Hj.
    eexists _, frames, _. split; [eapply handleMessage_returned; eauto|].
    split; [simpl; by rewrite Hframes, <- app_assoc|].
    split; [exact Hquiet|]. split; [right; by exists t|].
    apply prop_envelope_requestId.
  - pose proof (json_image_error_envelope (prop (VObj ps) "requestId")
                  (message_of e) (clock w1)) as Hj.
    eexists _, frames, _. split; [eapply handleMessage_thrown; eauto|].
    split; [simpl; by rewrite Hframes, <- app_assoc|].
    split; [exact Hquiet|]. split; [by left|]. apply prop_envelope_requestId.
Qed.


(** X11: the handling of a frame that holds a JSON value other than
    [null], received on an open socket, sends exactly one frame to that
    socket: the response of the handler or an [ERROR], with the request id of
    the frame; what else it sends goes to other sockets.  The frames are
    those of this one handling, run to its end. *)
Theorem every_request_is_answered (ws : nat) (s : Socket) (w : World)
    (message : Value) :
  sockets w !! ws = Some s ->
  readyState s = OPEN ->
  message <> VUndefined -> message <> VNull ->
  exists w' frames envelope,
    handleMessage ws (Json message) w = (Returned tt, w')
    /\ sent w' = sent w ++ frames
    /\ filter (fun f => f.1 = ws) frames = [(ws, envelope)]
    /\ (prop envelope "type" = VStr "ERROR"
        \/ exists t, to_string (prop message "type") = inr t
                     /\ prop envelope "type" = VStr (t +:+ "_RESPONSE"))
    /\ forall r, json_image (prop message "requestId") = Some r ->
                 prop envelope "requestId" = r.
Proof.
  intros Hs Ho Hu Hn.
  destruct (handleMessage_answers ws s w message Hs Ho Hu Hn)
    as (w' & others & envelope & Hrun & Hsent & Hothers & Htype & Hid).
  exists w', (others ++ [(ws, envelope)]), envelope.
  split; [exact Hrun|]. split; [exact Hsent|]. split; [|by split].
  rewrite filter_app.
  assert (Hnone : filter (fun f : nat * Value => f.1 = ws) others = []).
  { clear Hsent. induction Hothers as [|f l Hf Hl IH]; [done|].
    rewrite filter_cons. by case_decide. }
  rewrite Hnone, filter_cons. simpl. by case_decide.
Qed.

Lemma one_session_answers_witness :
  exists w' frames envelope,
    handleMessage 1 (Scenario.frame "GET" 3 (Scenario.pair "cart" "u1"))
      Scenario.one_session = (Returned tt, w')
    /\ sent w' = sent Scenario.one_session ++ frames
    /\ filter (fun f => f.1 = 1%nat) frames = [(1%nat, envelope)]
    /\ (prop envelope "type" = VStr "ERROR"
        \/ exists t,
             to_string (prop (VObj [ ("type", VStr "GET"); ("requestId", VNum 3);
                                     ("payload", Scenario.pair "cart" "u1");
                                     ("timestamp", VNum 0) ]) "type") = inr t
             /\ prop envelope "type" = VStr (t +:+ "_RESPONSE"))
    /\ forall r,
         json_image (prop (VObj [ ("type", VStr "GET"); ("requestId", VNum 3);
                                  ("payload", Scenario.pair "cart" "u1");
                                  ("timestamp", VNum 0) ]) "requestId") = Some r ->
         prop envelope "requestId" = r.
Proof.
  apply (every_request_is_answered 1 (mkSocket "browser" "client_1" ∅ true OPEN)
           Scenario.one_session
           (VObj [ ("type", VStr "GET"); ("requestId", VNum 3);
                   ("payload", Scenario.pair "cart" "u1");
                   ("timestamp", VNum 0) ]));
    try reflexivity; discriminate.
Defined.

Lemma handler_get fuel payload storageAdapter ws :
  handler fuel GET payload storageAdapter ws = handleGet payload storageAdapter ws.
Proof. by destruct fuel. Qed.

Lemma handler_query fuel payload storageAdapter ws :
  handler fuel QUERY payload storageAdapter ws = handleQuery payload storageAdapter ws.
Proof. by destruct fuel. Qed.

Lemma handler_ping fuel payload storageAdapter ws :
  handler fuel PING payload storageAdapter ws = handlePing payload storageAdapter ws.
Proof. by destruct fuel. Qed.

Lemma received_sockets t s w : sockets (received t s w) = sockets w.
Proof. reflexivity. Qed.

(** A handler that throws before it has changed anything is answered with
    the [ERROR] envelope, and that is all. *)
Lemma handleMessage_refused ws s w message h t e :
  sockets w !! ws = Some s -> readyState s = OPEN ->
  prop message "type" = VStr t ->
  messageHandlers_get (VStr t) = Some h ->
  handler (depth message) h (prop message "payload")
          (storageAdapters_get (platform s)) ws (received t s w)
  = (Thrown e, received t s w) ->
  exists w' envelope,
    handleMessage ws (Json message) w = (Returned tt, w')
    /\ sent w' = sent w ++ [(ws, envelope)]
    /\ prop envelope "type" = VStr "ERROR"
    /\ prop envelope "success" = VBool false
    /\ prop envelope "error" = VStr (message_of e)
    /\ (forall r, json_image (prop message "requestId") = Some r ->
                  prop envelope "requestId" = r)
    /\ browser w' = browser w /\ reactNative w' = reactNative w
    /\ nodejs w' = nodejs w /\ sockets w' = sockets w
    /\ activeConnections w' = activeConnections w.
Proof.
  intros Hs Ho Ht Hh Hrun.
  assert (Hu : message <> VUndefined) by (intros ->; discriminate Ht).
  assert (Hn : message <> VNull) by (intros ->; discriminate Ht).
  pose proof (json_image_error_envelope (prop message "requestId")
                (message_of e) (clock (received t s w))) as Hj.
  eexists _, _. split.
  { eapply (handleMessage_thrown ws s w message h t e (received t s w) s);
      [done|done|done|by rewrite Ht|by rewrite Ht|exact Hrun|done|done|exact Hj]. }
  split; [reflexivity|]. split; [reflexivity|].
  split; [by destruct (json_image (prop message "requestId"))|].
  split; [by destruct (json_image (prop message "requestId"))|].
  split; [apply prop_envelope_requestId|]. done.
Qed.

(** X12: a request whose handler reads a payload and that carries none is
    answered with one [ERROR] envelope that names the field the handler
    reads first; nothing is stored, no subscription changes and nothing is
    announced. *)
Theorem request_without_payload (ws : nat) (s : Socket) (w : World)
    (message : Value) (t field : string) (h : Opcode) :
  sockets w !! ws = Some s -> readyState s = OPEN ->
  prop message "type" = VStr t ->
  messageHandlers_get (VStr t) = Some h ->
  first_field h = Some field ->
  prop message "payload" = VUndefined ->
  exists w' envelope,
    handleMessage ws (Json message) w = (Returned tt, w')
    /\ sent w' = sent w ++ [(ws, envelope)]
    /\ prop envelope "type" = VStr "ERROR"
    /\ prop envelope "success" = VBool false
    /\ prop envelope "error"
       = VStr ("Cannot destructure property '" +:+ field
               +:+ "' of 'payload' as it is undefined.")
    /\ (forall r, json_image (prop message "requestId") = Some r ->
                  prop envelope "requestId" = r)
    /\ browser w' = browser w /\ reactNative w' = reactNative w
    /\ nodejs w' = nodejs w /\ sockets w' = sockets w
    /\ activeConnections w' = activeConnections w.
Proof.
  intros Hs Ho Ht Hh Hf Hp.
  apply (handleMessage_refused ws s w message h t
           (TypeError ("Cannot destructure property '" +:+ field
                       +:+ "' of 'payload' as it is undefined."))); try done.
  rewrite Hp.
  assert (Hd : exists n, depth message = S n).
  { destruct (handler_requires_object message h) as [ps ->]; [by rewrite Ht|].
    by eexists. }
  destruct Hd as [n ->].
  destruct h; try discriminate Hf; injection Hf as <-; reflexivity.
Qed.

Lemma request_without_payload_witness :
  exists w' envelope,
    handleMessage 1 (Json (VObj [("type", VStr "SET"); ("requestId", VNum 3)]))
      Scenario.one_session = (Returned tt, w')
    /\ sent w' = sent Scenario.one_session ++ [(1%nat, envelope)]
    /\ prop envelope "type" = VStr "ERROR"
    /\ prop envelope "success" = VBool false
    /\ prop envelope "error"
       = VStr ("Cannot destructure property '" +:+ "collection"
               +:+ "' of 'payload' as it is undefined.")
    /\ (forall r,
          json_image (prop (VObj [("type", VStr "SET"); ("requestId", VNum 3)])
                        "requestId") = Some r ->
          prop envelope "requestId" = r)
    /\ browser w' = browser Scenario.one_session
    /\ reactNative w' = reactNative Scenario.one_session
    /\ nodejs w' = nodejs Scenario.one_session
    /\ sockets w' = sockets Scenario.one_session
    /\ activeConnections w' = activeConnections Scenario.one_session.
Proof.
  apply (request_without_payload 1 (mkSocket "browser" "client_1" ∅ true OPEN)
           Scenario.one_session (VObj [("type", VStr "SET"); ("requestId", VNum 3)])
           "SET" "collection" SET); reflexivity.
Defined.

(** X13: a session whose platform is none of the three the broker has an
    adapter for gets an [ERROR] for every request that reaches the storage:
    the adapter is [undefined].  Nothing is stored and nothing is
    announced. *)
Theorem request_of_unknown_platform (ws : nat) (s : Socket) (w : World)
    (message : Value) (t method : string) (h : Opcode) :
  sockets w !! ws = Some s -> readyState s = OPEN ->
  storageAdapters_get (platform s) = None ->
  prop message "type" = VStr t ->
  messageHandlers_get (VStr t) = Some h ->
  adapter_method h = Some method ->
  prop message "payload" <> VUndefined -> prop message "payload" <> VNull ->
  exists w' envelope,
    handleMessage ws (Json message) w = (Returned tt, w')
    /\ sent w' = sent w ++ [(ws, envelope)]
    /\ prop envelope "type" = VStr "ERROR"
    /\ prop envelope "success" = VBool false
    /\ prop envelope "error"
       = VStr ("Cannot read properties of undefined (reading '" +:+ method +:+ "')")
    /\ (forall r, json_image (prop message "requestId") = Some r ->
                  prop envelope "requestId" = r)
    /\ browser w' = browser w /\ reactNative w' = reactNative w
    /\ nodejs w' = nodejs w /\ sockets w' = sockets w
    /\ activeConnections w' = activeConnections w.
Proof.
  intros Hs Ho Ha Ht Hh Hm Hpu Hpn.
  apply (handleMessage_refused ws s w message h t (cannot_read "undefined" method));
    try done.
  rewrite Ha.
  destruct h; try discriminate Hm; injection Hm as <-;
    [rewrite handler_get; unfold handleGet
    |rewrite handler_set; unfold handleSet
    |rewrite handler_delete; unfold handleDelete
    |rewrite handler_query; unfold handleQuery];
    unfold bind; rewrite (destructure_ok _ _ _ _ Hpu Hpn); reflexivity.
Qed.

Lemma request_of_unknown_platform_witness :
  let w := Scenario.after (connection 1 "127.0.0.1" [("x-platform", "android")] "client_1")
             Scenario.started in
  let message := VObj [ ("type", VStr "GET"); ("requestId", VNum 1);
                        ("payload", VObj [("collection", VStr "user");
                                          ("key", VStr "country")]) ] in
  exists w' envelope,
    handleMessage 1 (Json message) w = (Returned tt, w')
    /\ sent w' = sent w ++ [(1%nat, envelope)]
    /\ prop envelope "type" = VStr "ERROR"
    /\ prop envelope "success" = VBool false
    /\ prop envelope "error"
       = VStr ("Cannot read properties of undefined (reading '" +:+ "get" +:+ "')")
    /\ (forall r, json_image (prop message "requestId") = Some r ->
                  prop envelope "requestId" = r)
    /\ browser w' = browser w /\ reactNative w' = reactNative w
    /\ nodejs w' = nodejs w /\ sockets w' = sockets w
    /\ activeConnections w' = activeConnections w.
Proof.
  apply (request_of_unknown_platform 1 (mkSocket "android" "client_1" ∅ true OPEN)
           (Scenario.after
              (connection 1 "127.0.0.1" [("x-platform", "android")] "client_1")
              Scenario.started)
           (VObj [ ("type", VStr "GET"); ("requestId", VNum 1);
                   ("payload", VObj [("collection", VStr "user");
                                     ("key", VStr "country")]) ])
           "GET" "get" GET); try reflexivity; discriminate.
Defined.

End OneAnswerTheorem.

(** ** The stores of the other platforms *)

Section Isolation.
Import Js Adapters Server.
Context (ws : nat) (p : string) {X : Type} (f : World -> X).
Hypothesis f_sockets : forall m w, f (with_sockets m w) = f w.
Hypothesis f_sent : forall l w, f (with_sent l w) = f w.
Hypothesis f_console : forall l w, f (with_console l w) = f w.
Hypothesis f_adapter :
  forall method F w, f (call_adapter (storageAdapters_get p) method F w).2 = f w.

Lemma isolated_same {A : Type} (m : M A) :
  (forall w, sockets (m w).2 = sockets w /\ f (m w).2 = f w) -> isolated ws p f m.
Proof.
  intros H w s Hs Hp. destruct (H w) as [Hs' Hf]. rewrite Hs'. split; [by exists s|done].
Qed.

Lemma isolated_ret {A : Type} (a : A) : isolated ws p f (ret a).
Proof. by apply isolated_same. Qed.

Lemma isolated_throw {A : Type} (e : Exn) : isolated ws p f (@throw A e).
Proof. by apply isolated_same. Qed.

Lemma isolated_lift {A : Type} (x : Exn + A) : isolated ws p f (lift x).
Proof. apply isolated_same. by destruct x. Qed.

Lemma isolated_gets {A : Type} (g : World -> A) : isolated ws p f (gets g).
Proof. by apply isolated_same. Qed.

Lemma isolated_log entry : isolated ws p f (log entry).
Proof. apply isolated_same. intros w. simpl. by rewrite f_console. Qed.

Lemma isolated_Date_now : isolated ws p f Date_now.
Proof. by apply isolated_same. Qed.

Lemma isolated_destructure name v first : isolated ws p f (destructure name v first).
Proof. apply isolated_same. by destruct v. Qed.

Lemma isolated_socket x : isolated ws p f (socket x).
Proof. apply isolated_same. intros w. unfold socket. by destruct (sockets w !! x). Qed.

Lemma isolated_call_adapter method F :
  isolated ws p f (call_adapter (storageAdapters_get p) method F).
Proof.
  apply isolated_same. intros w. split; [|apply f_adapter].
  pose proof (call_adapter_frame (storageAdapters_get p) method F w) as H.
  cbv zeta in H. by destruct H as (-> & _).
Qed.

Lemma isolated_bind {A B : Type} (m : M A) (k : A -> M B) :
  isolated ws p f m -> (forall a, isolated ws p f (k a)) -> isolated ws p f (bind m k).
Proof.
  intros Hm Hk w s Hs Hp. unfold bind.
  destruct (Hm w s Hs Hp) as [(s1 & Hs1 & Hp1) Hf1].
  destruct (m w) as [[a|e|] w1]; simpl in *; [|split; [by exists s1|done]..].
  destruct (Hk a w1 s1 Hs1 Hp1) as [Hs2 Hf2]. split; [exact Hs2 | congruence].
Qed.

Lemma isolated_bind_socket {B : Type} (k : Socket -> M B) :
  (forall s, platform s = p -> isolated ws p f (k s)) ->
  isolated ws p f (bind (socket ws) k).
Proof.
  intros Hk w s Hs Hp. unfold bind, socket. rewrite Hs. by apply (Hk s Hp w s).
Qed.

Lemma isolated_try_catch {A : Type} (body : M A) (handler : Exn -> M A) :
  isolated ws p f body -> (forall e, isolated ws p f (handler e)) ->
  isolated ws p f (try_catch body handler).
Proof.
  intros Hb Hh w s Hs Hp. unfold try_catch.
  destruct (Hb w s Hs Hp) as [(s1 & Hs1 & Hp1) Hf1].
  destruct (body w) as [[a|e|] w1]; simpl in *;
    [split; [by exists s1|done]| |split; [by exists s1|done]].
  destruct (Hh e w1 s1 Hs1 Hp1) as [Hs2 Hf2]. split; [exact Hs2 | congruence].
Qed.

Lemma isolated_update_socket x g :
  (forall s, platform (g s) = platform s) -> isolated ws p f (update_socket x g).
Proof.
  intros Hg w s Hs Hp. simpl. rewrite f_sockets. split; [|done].
  destruct (decide (x = ws)) as [->|Hne].
  - exists (g s). rewrite lookup_alter_eq, Hs. by rewrite Hg.
  - exists s. by rewrite lookup_alter_ne.
Qed.

Lemma isolated_sendMessage x message : isolated ws p f (sendMessage x message).
Proof.
  apply isolated_same. intros w. unfold sendMessage, bind, socket.
  destruct (sockets w !! x) as [sx|]; simpl; [|done].
  destruct (ReadyState_eqb (readyState sx) OPEN); simpl; [|done].
  destruct (json_image message) as [doc|]; simpl; [|done].
  by rewrite f_sent.
Qed.

Lemma isolated_forEach {A : Type} (l : list A) (g : A -> M unit) :
  (forall x, isolated ws p f (g x)) -> isolated ws p f (forEach l g).
Proof.
  intros Hg. induction l as [|x l IH]; simpl; [apply isolated_ret|].
  apply isolated_bind; auto.
Qed.

Lemma isolated_notifySubscribers collection key operation value origin :
  isolated ws p f (notifySubscribers collection key operation value origin).
Proof.
  unfold notifySubscribers.
  apply isolated_bind; [apply isolated_lift|]. intros sk.
  apply isolated_bind; [apply isolated_lift|]. intros wk.
  apply isolated_bind; [apply isolated_gets|]. intros connections.
  apply isolated_forEach. intros x. unfold notify_one.
  apply isolated_bind; [apply isolated_socket|]. intros s.
  destruct (String.eqb _ _); [apply isolated_ret|].
  destruct (_ || _); [|apply isolated_ret].
  apply isolated_bind; [apply isolated_Date_now|]. intros now.
  apply isolated_sendMessage.
Qed.

Lemma isolated_for_of operations body :
  (forall operation results, isolated ws p f (body operation results)) ->
  forall results, isolated ws p f (for_of operations body results).
Proof.
  intros Hb. induction operations as [|x l IH]; intros results; simpl;
    [apply isolated_ret|].
  apply isolated_bind; auto.
Qed.

Create HintDb isolated.
#[local] Hint Resolve isolated_ret isolated_throw isolated_lift isolated_gets
  isolated_log isolated_Date_now isolated_destructure isolated_socket
  isolated_call_adapter isolated_notifySubscribers isolated_sendMessage : isolated.

Ltac isolated_steps :=
  repeat first
    [ solve [auto with isolated]
    | apply isolated_bind; [solve [auto with isolated]|]; intros ? ].

Lemma isolated_handler fuel :
  forall op payload,
    isolated ws p f (handler fuel op payload (storageAdapters_get p) ws).
Proof.
  induction fuel as [|n IH]; intros op payload; destruct op; simpl;
    try solve [unfold handleGet, handleSet, handleDelete, handleQuery, handlePing;
               isolated_steps];
    try solve [by apply isolated_same].
  all: try (unfold handleSubscribe, handleUnsubscribe;
            apply isolated_bind; [auto with isolated|]; intros ?;
            apply isolated_bind; [auto with isolated|]; intros ?;
            apply isolated_bind; [by apply isolated_update_socket|]; intros ?;
            isolated_steps).
  unfold handleBatch.
  apply isolated_bind; [auto with isolated|]. intros ?.
  apply isolated_bind; [auto with isolated|]. intros operations.
  apply isolated_bind; [|auto with isolated].
  apply isolated_for_of. intros operation results. unfold batch_operation.
  apply isolated_bind; [auto with isolated|]. intros type.
  destruct (messageHandlers_get type); [|auto with isolated].
  apply isolated_bind; [apply IH | auto with isolated].
Qed.

Lemma isolated_handleMessage data : isolated ws p f (handleMessage ws data).
Proof.
  unfold handleMessage. apply isolated_try_catch.
  - apply isolated_bind; [auto with isolated|]. intros message.
    apply isolated_bind; [auto with isolated|]. intros ?.
    apply isolated_bind; [auto with isolated|]. intros t.
    apply isolated_bind_socket. intros s Hp.
    apply isolated_bind; [auto with isolated|]. intros ?.
    destruct (messageHandlers_get _); [|auto with isolated].
    rewrite Hp. apply isolated_bind; [apply isolated_handler|]. intros result.
    isolated_steps.
  - intros e. isolated_steps.
Qed.

End Isolation.

Section IsolationTheorem.
Import Js Adapters Server.

(** X14: a frame changes no store but the one of the platform of the
    session it comes from. *)
Theorem stores_of_other_platforms (ws : nat) (s : Socket) (w : World) (data : Text) :
  sockets w !! ws = Some s ->
  let w' := (handleMessage ws data w).2 in
  (storageAdapters_get (platform s) <> Some ABrowser -> browser w' = browser w)
  /\ (storageAdapters_get (platform s) <> Some AReactNative ->
      reactNative w' = reactNative w)
  /\ (storageAdapters_get (platform s) <> Some ANodeJS -> nodejs w' = nodejs w).
Proof.
  intros Hs. cbv zeta. split; [|split]; intros Hne.
  - apply (isolated_handleMessage ws (platform s) browser) with (s := s); try done.
    intros method F w0. destruct (storageAdapters_get (platform s)) as [[]|]; done.
  - apply (isolated_handleMessage ws (platform s) reactNative) with (s := s); try done.
    intros method F w0. destruct (storageAdapters_get (platform s)) as [[]|]; done.
  - apply (isolated_handleMessage ws (platform s) nodejs) with (s := s); try done.
    intros method F w0. destruct (storageAdapters_get (platform s)) as [[]|]; done.
Qed.

Lemma stores_of_other_platforms_witness :
  let w' := (handleMessage 1 (Scenario.frame "SET" 1 (Scenario.entry "cart" "u1" (VNum 7)))
               Scenario.one_session).2 in
  reactNative w' = reactNative Scenario.one_session
  /\ nodejs w' = nodejs Scenario.one_session.
Proof.
  destruct (stores_of_other_platforms 1 (mkSocket "browser" "client_1" ∅ true OPEN)
              Scenario.one_session
              (Scenario.frame "SET" 1 (Scenario.entry "cart" "u1" (VNum 7))) eq_refl)
    as (_ & Hrn & Hnode).
  split; [apply Hrn | apply Hnode]; discriminate.
Defined.

End IsolationTheorem.

(** ** Requests that read *)

Section Reads.
Import Js Adapters Server.
Context (ws : nat).

Lemma reads_only_same {A : Type} (m : M A) :
  (forall w, browser (m w).2 = browser w /\ reactNative (m w).2 = reactNative w
             /\ nodejs (m w).2 = nodejs w /\ sockets (m w).2 = sockets w
             /\ activeConnections (m w).2 = activeConnections w
             /\ sent (m w).2 = sent w) ->
  reads_only ws m.
Proof.
  intros H w. destruct (H w) as (-> & -> & -> & -> & -> & ->).
  repeat split. exists []. by rewrite app_nil_r.
Qed.

Lemma reads_only_ret {A : Type} (a : A) : reads_only ws (ret a).
Proof. by apply reads_only_same. Qed.

Lemma reads_only_throw {A : Type} (e : Exn) : reads_only ws (@throw A e).
Proof. by apply reads_only_same. Qed.

Lemma reads_only_lift {A : Type} (x : Exn + A) : reads_only ws (lift x).
Proof. apply reads_only_same. by destruct x. Qed.

Lemma reads_only_gets {A : Type} (g : World -> A) : reads_only ws (gets g).
Proof. by apply reads_only_same. Qed.

Lemma reads_only_log entry : reads_only ws (log entry).
Proof. by apply reads_only_same. Qed.

Lemma reads_only_destructure name v first : reads_only ws (destructure name v first).
Proof. apply reads_only_same. by destruct v. Qed.

Lemma reads_only_socket x : reads_only ws (socket x).
Proof. apply reads_only_same. intros w. unfold socket. by destruct (sockets w !! x). Qed.

Lemma reads_only_bind {A B : Type} (m : M A) (k : A -> M B) :
  reads_only ws m -> (forall a, reads_only ws (k a)) -> reads_only ws (bind m k).
Proof.
  intros Hm Hk w. unfold bind.
  destruct (Hm w) as (Hb & Hr & Hn & Hs & Ha & f1 & Hf1 & Hq1).
  destruct (m w) as [[a|e|] w1]; simpl in *;
    [|repeat split; try done; by exists f1..].
  destruct (Hk a w1) as (Hb2 & Hr2 & Hn2 & Hs2 & Ha2 & f2 & Hf2 & Hq2).
  repeat split; try congruence. exists (f1 ++ f2). split.
  - by rewrite Hf2, Hf1, <- app_assoc.
  - by apply Forall_app.
Qed.

Lemma reads_only_bind_lift {A B : Type} (x : Exn + A) (k : A -> M B) :
  (forall a, x = inr a -> reads_only ws (k a)) -> reads_only ws (bind (lift x) k).
Proof.
  intros Hk. destruct x as [e|a]; [by apply reads_only_same|].
  intros w. by apply (Hk a).
Qed.

Lemma reads_only_try_catch {A : Type} (body : M A) (handler : Exn -> M A) :
  reads_only ws body -> (forall e, reads_only ws (handler e)) ->
  reads_only ws (try_catch body handler).
Proof.
  intros Hm Hk w. unfold try_catch.
  destruct (Hm w) as (Hb & Hr & Hn & Hs & Ha & f1 & Hf1 & Hq1).
  destruct (body w) as [[a|e|] w1]; simpl in *;
    [repeat split; try done; by exists f1| |repeat split; try done; by exists f1].
  destruct (Hk e w1) as (Hb2 & Hr2 & Hn2 & Hs2 & Ha2 & f2 & Hf2 & Hq2).
  repeat split; try congruence. exists (f1 ++ f2). split.
  - by rewrite Hf2, Hf1, <- app_assoc.
  - by apply Forall_app.
Qed.

Lemma reads_only_sendMessage message : reads_only ws (sendMessage ws message).
Proof.
  intros w. unfold sendMessage, bind, socket.
  destruct (sockets w !! ws) as [sx|]; simpl.
  2: { repeat split. exists []. by rewrite app_nil_r. }
  destruct (ReadyState_eqb (readyState sx) OPEN); simpl.
  2: { repeat split. exists []. by rewrite app_nil_r. }
  destruct (json_image message) as [doc|]; simpl.
  2: { repeat split. exists []. by rewrite app_nil_r. }
  repeat split. exists [(ws, doc)]. split; [done|]. by apply Forall_singleton.
Qed.

Lemma with_browser_self w : with_browser (browser w) w = w.
Proof. by destruct w. Qed.
Lemma with_reactNative_self w : with_reactNative (reactNative w) w = w.
Proof. by destruct w. Qed.
Lemma with_nodejs_self w : with_nodejs (nodejs w) w = w.
Proof. by destruct w. Qed.

(** [get] and [query] leave the adapter they are called on as it is. *)
Lemma reads_only_adapter_get storageAdapter collection key options :
  reads_only ws (call_adapter storageAdapter "get"
                   (fun S _ => adapter_get collection key options)).
Proof.
  apply reads_only_same. intros w. destruct storageAdapter as [[]|]; simpl;
    by rewrite ?with_browser_self, ?with_reactNative_self, ?with_nodejs_self.
Qed.

Lemma reads_only_adapter_query storageAdapter collection query options :
  reads_only ws (call_adapter storageAdapter "query"
                   (fun S _ => adapter_query collection query options)).
Proof.
  apply reads_only_same. intros w. destruct storageAdapter as [[]|]; simpl;
    by rewrite ?with_browser_self, ?with_reactNative_self, ?with_nodejs_self.
Qed.

Create HintDb reads.
#[local] Hint Resolve reads_only_ret reads_only_throw reads_only_lift reads_only_gets
  reads_only_log reads_only_destructure reads_only_socket reads_only_sendMessage
  reads_only_adapter_get reads_only_adapter_query : reads.

Ltac reads_steps :=
  repeat first
    [ solve [unfold Date_now; auto with reads]
    | apply reads_only_bind; [solve [unfold Date_now; auto with reads]|]; intros ? ].

(** X15: a [GET], a [QUERY] or a [PING], like a request of a type the broker
    does not know, changes no store, no socket and no connection, and makes
    the broker send to no other socket than the one it came from. *)
Theorem reads_change_nothing (message : Value) :
  (forall h, messageHandlers_get (prop message "type") = Some h ->
             h = GET \/ h = QUERY \/ h = PING) ->
  reads_only ws (handleMessage ws (Json message)).
Proof.
  intros Hh. unfold handleMessage. apply reads_only_try_catch.
  - apply reads_only_bind_lift. intros m Hm. injection Hm as <-.
    apply reads_only_bind; [auto with reads|]. intros ?.
    apply reads_only_bind; [auto with reads|]. intros t.
    apply reads_only_bind; [auto with reads|]. intros s.
    apply reads_only_bind; [auto with reads|]. intros ?.
    destruct (messageHandlers_get (prop message "type")) as [h|] eqn:E;
      [|auto with reads].
    apply reads_only_bind; [|intros result; reads_steps].
    destruct (Hh h eq_refl) as [-> | [-> | ->]].
    + rewrite handler_get. unfold handleGet. reads_steps.
    + rewrite handler_query. unfold handleQuery. reads_steps.
    + rewrite handler_ping. unfold handlePing. reads_steps.
  - intros e. reads_steps.
Qed.


End Reads.

Section ReadsWitness.
Import Js Adapters Server.

Lemma reads_change_nothing_witness :
  let w := Scenario.subscribed in
  let w' := (handleMessage 2 (Scenario.frame "GET" 5 (Scenario.pair "cart" "u1")) w).2 in
  browser w' = browser w /\ reactNative w' = reactNative w
  /\ nodejs w' = nodejs w /\ sockets w' = sockets w
  /\ activeConnections w' = activeConnections w
  /\ exists frames,
       sent w' = sent w ++ frames /\ Forall (fun f => f.1 = 2%nat) frames.
Proof.
  apply (reads_change_nothing 2
           (VObj [ ("type", VStr "GET"); ("requestId", VNum 5);
                   ("payload", Scenario.pair "cart" "u1"); ("timestamp", VNum 0) ])).
  intros h H. injection H as <-. by left.
Defined.

End ReadsWitness.

(** ** Subscriptions of a session *)

Section Subscriptions.
Import Js Adapters Server.

Lemma handleUnsubscribe_run payload storageAdapter ws s key w :
  sockets w !! ws = Some s ->
  payload <> VUndefined -> payload <> VNull ->
  subscriptionKey_of (prop payload "collection") (prop payload "pattern") = inr key ->
  handleUnsubscribe payload storageAdapter ws w
  = (Returned (VObj [("unsubscribed", VStr key)]),
     with_console
       (console w ++ [console_log ("Client " +:+ clientId s +:+ " unsubscribed from: "
                                   +:+ key)])
       (with_sockets
          (alter (fun s => mkSocket (platform s) (clientId s)
                                    (subscriptions s ∖ {[key]}) (isAlive s)
                                    (readyState s)) ws (sockets w)) w)).
Proof.
  intros Hs Hu Hn Hk. unfold handleUnsubscribe, bind, lift.
  rewrite (destructure_ok _ _ _ _ Hu Hn), Hk. simpl.
  unfold socket. simpl. rewrite lookup_alter_eq, Hs. reflexivity.
Qed.

Lemma handleSubscribe_sockets payload storageAdapter ws s key w :
  sockets w !! ws = Some s ->
  payload <> VUndefined -> payload <> VNull ->
  subscriptionKey_of (prop payload "collection") (prop payload "pattern") = inr key ->
  sockets (handleSubscribe payload storageAdapter ws w).2
  = alter (subscribe_to key) ws (sockets w).
Proof. intros Hs Hu Hn Hk. by rewrite (handleSubscribe_run _ _ _ s key w). Qed.

Lemma handleUnsubscribe_sockets payload storageAdapter ws s key w :
  sockets w !! ws = Some s ->
  payload <> VUndefined -> payload <> VNull ->
  subscriptionKey_of (prop payload "collection") (prop payload "pattern") = inr key ->
  sockets (handleUnsubscribe payload storageAdapter ws w).2
  = alter (fun s => mkSocket (platform s) (clientId s) (subscriptions s ∖ {[key]})
                             (isAlive s) (readyState s)) ws (sockets w).
Proof. intros Hs Hu Hn Hk. by rewrite (handleUnsubscribe_run _ _ _ s key w). Qed.

(** X16: subscriptions are not counted.  A [SUBSCRIBE] for a key the session
    holds changes nothing, and one [UNSUBSCRIBE] removes the key however
    often it was subscribed. *)
Theorem subscriptions_are_not_counted (payload : Value)
    (storageAdapter : option AdapterRef) (ws : nat) (s : Socket) (key : string)
    (w : World) :
  sockets w !! ws = Some s ->
  payload <> VUndefined -> payload <> VNull ->
  subscriptionKey_of (prop payload "collection") (prop payload "pattern") = inr key ->
  let w1 := (handleSubscribe payload storageAdapter ws w).2 in
  let w2 := (handleSubscribe payload storageAdapter ws w1).2 in
  let w3 := (handleUnsubscribe payload storageAdapter ws w2).2 in
  sockets w1 !! ws = Some (subscribe_to key s)
  /\ sockets w2 = sockets w1
  /\ exists s3,
       sockets w3 !! ws = Some s3
       /\ subscriptions s3 = subscriptions s ∖ {[key]}
       /\ key ∉ subscriptions s3.
Proof.
  intros Hs Hu Hn Hk. cbv zeta.
  set (w1 := (handleSubscribe payload storageAdapter ws w).2).
  set (w2 := (handleSubscribe payload storageAdapter ws w1).2).
  assert (H1 : sockets w1 = alter (subscribe_to key) ws (sockets w))
    by by apply (handleSubscribe_sockets _ _ _ s).
  assert (L1 : sockets w1 !! ws = Some (subscribe_to key s))
    by by rewrite H1, lookup_alter_eq, Hs.
  assert (H2 : sockets w2 = sockets w1).
  { subst w2. rewrite (handleSubscribe_sockets _ _ _ (subscribe_to key s) key) by done.
    rewrite H1, alter_alter_eq. apply alter_ext. intros x _. unfold subscribe_to.
    simpl. f_equal. by rewrite (assoc_L (∪)), union_idemp_L. }
  split; [exact L1|]. split; [exact H2|].
  rewrite (handleUnsubscribe_sockets _ _ _ (subscribe_to key s) key)
    by (by rewrite ?H2).
  rewrite H2, lookup_alter_eq, L1. eexists. split; [reflexivity|]. simpl.
  assert (E : ({[key]} ∪ subscriptions s) ∖ {[key]} = subscriptions s ∖ {[key]}).
  { rewrite difference_union_distr_l_L, difference_diag_L. apply (left_id_L ∅ (∪)). }
  split; [exact E|]. rewrite E. apply not_elem_of_difference. right.
  by apply elem_of_singleton.
Qed.

Lemma subscriptions_are_not_counted_witness :
  let payload := Scenario.pair "cart" "u1" in
  let w1 := (handleSubscribe payload (Some ABrowser) 1 Scenario.one_session).2 in
  let w2 := (handleSubscribe payload (Some ABrowser) 1 w1).2 in
  let w3 := (handleUnsubscribe payload (Some ABrowser) 1 w2).2 in
  sockets w1 !! 1%nat
  = Some (subscribe_to "cart:u1" (mkSocket "browser" "client_1" ∅ true OPEN))
  /\ sockets w2 = sockets w1
  /\ exists s3,
       sockets w3 !! 1%nat = Some s3
       /\ subscriptions s3
          = subscriptions (mkSocket "browser" "client_1" ∅ true OPEN) ∖ {["cart:u1"]}
       /\ "cart:u1" ∉ subscriptions s3.
Proof.
  apply (subscriptions_are_not_counted (Scenario.pair "cart" "u1") (Some ABrowser) 1
           (mkSocket "browser" "client_1" ∅ true OPEN) "cart:u1" Scenario.one_session);
    try reflexivity; discriminate.
Defined.

End Subscriptions.

(** ** Connections that end *)

Section Disconnect.
Import Js Adapters Server.

Lemma fanout_elem m sk wk origin doc connections f :
  f ∈ fanout m sk wk origin doc connections -> f.1 ∈ connections.
Proof.
  unfold fanout. induction connections as [|x l IH]; simpl.
  - intros H. by apply elem_of_nil in H.
  - rewrite elem_of_app. intros [H|H].
    + destruct (recipient m sk wk origin x); [|by apply elem_of_nil in H].
      apply list_elem_of_singleton in H as ->. by left.
    + right. by apply IH.
Qed.

Lemma handleDisconnect_run ws s w :
  sockets w !! ws = Some s ->
  handleDisconnect ws w
  = (Returned tt,
     with_activeConnections (set_delete ws (activeConnections w))
       (with_console (console w ++ [console_log ("Client disconnected: "
                                                 +:+ clientId s)]) w)).
Proof. intros Hs. unfold handleDisconnect, bind, socket. by rewrite Hs. Qed.

(** X17: once [handleDisconnect] has run for a socket, the socket is no
    connection any more, the other connections are kept, and no later [SET]
    or [DELETE] makes the broker send to it. *)
Theorem no_update_after_disconnect (ws : nat) (w : World) :
  well_formed w -> ws ∈ activeConnections w ->
  let w1 := (handleDisconnect ws w).2 in
  (ws ∉ activeConnections w1)
  /\ (forall x, x <> ws -> x ∈ activeConnections w -> x ∈ activeConnections w1)
  /\ forall (op : Opcode) (operation : string) (fuel : nat) (payload : Value)
            (storageAdapter : option AdapterRef) (origin : nat) (o : Socket)
            (w' : World) (result : Value),
       (op = SET /\ operation = "SET") \/ (op = DELETE /\ operation = "DELETE") ->
       sockets w1 !! origin = Some o ->
       handler fuel op payload storageAdapter origin w1 = (Returned result, w') ->
       exists new, sent w' = sent w1 ++ new /\ Forall (fun f => f.1 <> ws) new.
Proof.
  intros [Hnd Hw] Hin. cbv zeta. destruct (Hw ws Hin) as [s Hs].
  rewrite (handleDisconnect_run ws s w Hs). cbn [snd].
  set (w1 := with_activeConnections _ _).
  assert (Ha : activeConnections w1 = set_delete ws (activeConnections w)) by done.
  assert (Hout : ws ∉ activeConnections w1).
  { rewrite Ha. unfold set_delete. rewrite list_elem_of_filter. by intros [H _]. }
  split; [exact Hout|]. split.
  { intros x Hne Hx. rewrite Ha. unfold set_delete. by apply list_elem_of_filter. }
  intros op operation fuel payload storageAdapter origin o w' result Hop Ho Hrun.
  destruct (handler_fan_out op operation fuel payload storageAdapter origin o w1 w'
              result Hop Ho) as (sk & wk & _ & _ & _ & Hsent); [|exact Hrun|].
  { intros x Hx. apply Hw. rewrite Ha in Hx. unfold set_delete in Hx.
    by apply list_elem_of_filter in Hx as [_ Hx]. }
  eexists. split; [exact Hsent|]. apply Forall_forall. intros f Hf.
  apply fanout_elem in Hf. intros E. apply Hout. by rewrite <- E.
Qed.


Lemma well_formed_subscribed : well_formed Scenario.subscribed.
Proof.
  split.
  - apply (bool_decide_unpack _). vm_compute. reflexivity.
  - intros x Hx.
    change (activeConnections Scenario.subscribed) with [1%nat; 2%nat] in Hx.
    apply elem_of_cons in Hx as [->|Hx]; [by eexists|].
    apply list_elem_of_singleton in Hx as ->. by eexists.
Qed.

Lemma no_update_after_disconnect_witness :
  let w1 := (handleDisconnect 1 Scenario.subscribed).2 in
  (1%nat ∉ activeConnections w1)
  /\ (forall x, x <> 1%nat -> x ∈ activeConnections Scenario.subscribed ->
                x ∈ activeConnections w1)
  /\ forall (op : Opcode) (operation : string) (fuel : nat) (payload : Value)
            (storageAdapter : option AdapterRef) (origin : nat) (o : Socket)
            (w' : World) (result : Value),
       (op = SET /\ operation = "SET") \/ (op = DELETE /\ operation = "DELETE") ->
       sockets w1 !! origin = Some o ->
       handler fuel op payload storageAdapter origin w1 = (Returned result, w') ->
       exists new, sent w' = sent w1 ++ new /\ Forall (fun f => f.1 <> 1%nat) new.
Proof.
  apply (no_update_after_disconnect 1 Scenario.subscribed well_formed_subscribed).
  change (activeConnections Scenario.subscribed) with [1%nat; 2%nat]. by left.
Defined.

End Disconnect.

(** ** The keep-alive turns *)

Section KeepAlive.
Import Js Adapters Server.

Lemma keep_alive_run x s w :
  sockets w !! x = Some s ->
  (keep_alive x w).1 = Returned tt
  /\ sockets (keep_alive x w).2 = alter probed x (sockets w)
  /\ activeConnections (keep_alive x w).2 = activeConnections w.
Proof.
  intros Hs. unfold keep_alive, bind, socket. rewrite Hs.
  destruct (isAlive s) eqn:E; simpl.
  - split; [done|]. split; [|done]. apply alter_ext. intros y Hy.
    rewrite Hs in Hy. injection Hy as <-. unfold probed. by rewrite E.
  - split; [done|]. split; [|done]. apply alter_ext. intros y Hy.
    rewrite Hs in Hy. injection Hy as <-. unfold probed. by rewrite E.
Qed.

(** One turn probes each connection once. *)
Lemma forEach_keep_alive l :
  forall w,
    NoDup l -> (forall x, x ∈ l -> is_Some (sockets w !! x)) ->
    (forEach l keep_alive w).1 = Returned tt
    /\ (forall x, sockets (forEach l keep_alive w).2 !! x
                  = if bool_decide (x ∈ l) then probed <$> sockets w !! x
                    else sockets w !! x)
    /\ activeConnections (forEach l keep_alive w).2 = activeConnections w.
Proof.
  induction l as [|y l IH]; intros w Hnd Hw.
  - split; [done|]. split; [|done]. intros x.
    by rewrite bool_decide_eq_false_2 by apply not_elem_of_nil.
  - apply NoDup_cons in Hnd as [Hy Hnd].
    destruct (Hw y) as [s Hs]; [by left|].
    destruct (keep_alive_run y s w Hs) as (Hr & Hsock & Hact).
    cbn [forEach]. unfold bind.
    destruct (keep_alive y w) as [[[]|e|] w1]; simpl in Hr, Hsock, Hact; try done.
    destruct (IH w1 Hnd) as (Hr2 & Hsock2 & Hact2).
    { intros x Hx. rewrite Hsock. destruct (decide (x = y)) as [->|Hne]; [done|].
      rewrite lookup_alter_ne by done. apply Hw. by right. }
    split; [exact Hr2|]. split; [|congruence].
    intros x. rewrite Hsock2, Hsock. destruct (decide (x = y)) as [->|Hne].
    + rewrite (bool_decide_eq_false_2 (y ∈ l)) by done.
      rewrite (bool_decide_eq_true_2 (y ∈ y :: l)) by (by left).
      by rewrite lookup_alter_eq.
    + rewrite lookup_alter_ne by done.
      assert (Hb : bool_decide (x ∈ y :: l) = bool_decide (x ∈ l)).
      { apply bool_decide_ext. rewrite elem_of_cons. split; [intros [?|?]; done | by right]. }
      by rewrite Hb.
Qed.

Lemma keep_alive_sweep_run w :
  well_formed w ->
  (keep_alive_sweep w).1 = Returned tt
  /\ (forall x, sockets (keep_alive_sweep w).2 !! x
                = if bool_decide (x ∈ activeConnections w)
                  then probed <$> sockets w !! x else sockets w !! x)
  /\ activeConnections (keep_alive_sweep w).2 = activeConnections w
  /\ well_formed (keep_alive_sweep w).2.
Proof.
  intros [Hnd Hw]. unfold keep_alive_sweep, bind, gets.
  destruct (forEach_keep_alive (activeConnections w) w Hnd Hw) as (Hr & Hs & Ha).
  split; [exact Hr|]. split; [exact Hs|]. split; [exact Ha|].
  split; [by rewrite Ha|]. intros x Hx. rewrite Ha in Hx. rewrite Hs.
  rewrite bool_decide_eq_true_2 by done. destruct (Hw x Hx) as [s ->]. by eexists.
Qed.

Lemma pong_run x w :
  pong x w
  = (Returned tt,
     with_sockets
       (alter (fun s => mkSocket (platform s) (clientId s) (subscriptions s) true
                                 (readyState s)) x (sockets w)) w).
Proof. reflexivity. Qed.

(** X18: the keep-alive.  A turn marks each connection; a connection that is
    still marked at the next turn is terminated, so two turns without a pong
    end it, while a connection that answers each turn with a pong is never
    terminated and keeps its subscriptions. *)
Theorem keep_alive_turns (ws : nat) (s : Socket) (w : World) :
  well_formed w -> ws ∈ activeConnections w -> sockets w !! ws = Some s ->
  sockets (keep_alive_sweep w).2 !! ws = Some (probed s)
  /\ (exists s2,
        sockets (keep_alive_sweep (keep_alive_sweep w).2).2 !! ws = Some s2
        /\ readyState s2 = CLOSING)
  /\ (isAlive s = true ->
      forall n, exists sn,
        sockets (answered_turns n ws w).2 !! ws = Some sn
        /\ readyState sn = readyState s /\ isAlive sn = true
        /\ subscriptions sn = subscriptions s).
Proof.
  intros Hwf Hin Hs.
  destruct (keep_alive_sweep_run w Hwf) as (_ & Hs1 & Ha1 & Hwf1).
  assert (H1 : sockets (keep_alive_sweep w).2 !! ws = Some (probed s)).
  { rewrite Hs1, bool_decide_eq_true_2 by done. by rewrite Hs. }
  split; [exact H1|]. split.
  - destruct (keep_alive_sweep_run _ Hwf1) as (_ & Hs2 & _).
    exists (probed (probed s)). split.
    + rewrite Hs2, bool_decide_eq_true_2 by (by rewrite Ha1). by rewrite H1.
    + unfold probed. by destruct (isAlive s).
  - intros Halive n. clear Hs1 Ha1 Hwf1 H1. revert w s Hwf Hin Hs Halive.
    induction n as [|n IH]; intros w s Hwf Hin Hs Halive.
    + exists s. split; [exact Hs | done].
    + cbn [answered_turns]. unfold bind at 1.
      destruct (keep_alive_sweep_run w Hwf) as (Hr1 & Hs1 & Ha1 & Hwf1).
      destruct (keep_alive_sweep w) as [[[]|e|] w1]; simpl in Hr1, Hs1, Ha1, Hwf1;
        try done.
      unfold bind at 1. rewrite pong_run.
      set (w2 := with_sockets _ w1).
      assert (Hs2 : sockets w2 !! ws = Some s).
      { subst w2. simpl. rewrite lookup_alter_eq, Hs1, bool_decide_eq_true_2 by done.
        rewrite Hs. simpl. unfold probed. rewrite Halive. simpl.
        destruct s; simpl in *; by subst. }
      destruct Hwf1 as [Hnd1 Hw1].
      destruct (IH w2 s) as (sn & Hsn & Hr & Hal & Hsub); try done.
      * split; [exact Hnd1|]. intros x Hx. subst w2. simpl in *.
        destruct (decide (x = ws)) as [->|Hne].
        -- rewrite lookup_alter_eq. destruct (Hw1 ws Hx) as [y ->]. by eexists.
        -- rewrite lookup_alter_ne by done. by apply Hw1.
      * subst w2. simpl. by rewrite Ha1.
      * by exists sn.
Qed.


Lemma keep_alive_turns_witness :
  let s := mkSocket "browser" "client_1" {["cart:u1"]} true OPEN in
  sockets (keep_alive_sweep Scenario.subscribed).2 !! 1%nat = Some (probed s)
  /\ (exists s2,
        sockets (keep_alive_sweep (keep_alive_sweep Scenario.subscribed).2).2 !! 1%nat
        = Some s2
        /\ readyState s2 = CLOSING)
  /\ (isAlive s = true ->
      forall n, exists sn,
        sockets (answered_turns n 1 Scenario.subscribed).2 !! 1%nat = Some sn
        /\ readyState sn = readyState s /\ isAlive sn = true
        /\ subscriptions sn = subscriptions s).
Proof.
  apply (keep_alive_turns 1 (mkSocket "browser" "client_1" {["cart:u1"]} true OPEN)
           Scenario.subscribed well_formed_subscribed).
  - change (activeConnections Scenario.subscribed) with [1%nat; 2%nat]. by left.
  - vm_compute. reflexivity.
Defined.

End KeepAlive.

(** ** The platform of a session *)

Section Platform.
Import Js Adapters Server.

(** X19: without an [x-platform] header the platform the broker detects is
    one of its three, whatever the user agent, so that the session has a
    storage adapter; with the header the platform is what the header says. *)
Theorem detected_platform (userAgent : string) (headers : list (string * string)) :
  (forall hint, header "x-platform" headers = Some hint -> hint <> "" ->
                detectPlatform userAgent headers = hint)
  /\ (default "" (header "x-platform" headers) = "" ->
      is_Some (storageAdapters_get (detectPlatform userAgent headers))
      /\ (includes "React Native" userAgent = true ->
          detectPlatform userAgent headers = "react-native")).
Proof.
  unfold detectPlatform. split.
  - intros hint -> Hne. simpl. apply String.eqb_neq in Hne. by rewrite Hne.
  - intros ->. simpl. destruct (includes "React Native" userAgent); [by split; eexists|].
    split; [|done].
    destruct (includes "Mozilla" userAgent || includes "Chrome" userAgent); by eexists.
Qed.

End Platform.

(** ** The request table of the client *)

Section RequestTable.
Import Js Adapters.

Lemma core_emit event data c : Library.core (Library.emit event data c) = Library.core c.
Proof. unfold Library.emit. by destruct (map_get _ _ _). Qed.

Lemma subscriptions_emit event data c :
  Library.subscriptions (Library.emit event data c) = Library.subscriptions c.
Proof. unfold Library.emit. by destruct (map_get _ _ _). Qed.

Lemma eventListeners_emit event data c :
  Library.eventListeners (Library.emit event data c) = Library.eventListeners c.
Proof. unfold Library.emit. by destruct (map_get _ _ _). Qed.

Lemma platform_emit event data c :
  Library.platform (Library.emit event data c) = Library.platform c.
Proof. unfold Library.emit. by destruct (map_get _ _ _). Qed.

Lemma emit_all events :
  forall c,
    let c' := fold_left
                (fun c e => Library.emit (Library.announce (Library.platform c) e).1
                                         (Library.announce (Library.platform c) e).2 c)
                events c in
    Library.core c' = Library.core c
    /\ Library.subscriptions c' = Library.subscriptions c
    /\ Library.eventListeners c' = Library.eventListeners c
    /\ Library.platform c' = Library.platform c.
Proof.
  induction events as [|e l IH]; intros c; [done|]. cbn [fold_left].
  destruct (IH (Library.emit (Library.announce (Library.platform c) e).1
                             (Library.announce (Library.platform c) e).2 c))
    as (-> & -> & -> & ->).
  by rewrite core_emit, subscriptions_emit, eventListeners_emit, platform_emit.
Qed.

(** A lifted method does to the request table what the method does, and
    leaves the subscriptions and the listeners. *)
Lemma lifted_spec f c :
  Library.core (Library.lifted f c) = f (Library.core c)
  /\ Library.subscriptions (Library.lifted f c) = Library.subscriptions c
  /\ Library.eventListeners (Library.lifted f c) = Library.eventListeners c
  /\ Library.platform (Library.lifted f c) = Library.platform c.
Proof.
  unfold Library.lifted.
  match goal with |- context [fold_left ?g ?events ?c0] =>
    destruct (emit_all events c0) as (H1 & H2 & H3 & H4) end.
  cbv zeta in H1, H2, H3, H4. by rewrite H1, H2, H3, H4.
Qed.

Lemma settles_once_frame k k' :
  Client.pendingRequests k' = Client.pendingRequests k ->
  Client.settled k' = Client.settled k ->
  Client.requestId k' = Client.requestId k ->
  settles_once k -> settles_once k'.
Proof. unfold settles_once. by intros -> -> ->. Qed.

Lemma settles_once_drop id k :
  settles_once k ->
  settles_once (Client.with_pending (Client.pendingRequests k ∖ {[id]}) k).
Proof.
  intros (H1 & H2 & H3). split; [|split]; simpl.
  - intros x Hx. apply H1. by apply elem_of_difference in Hx as [Hx _].
  - intros x r Hx. destruct (H2 x r Hx) as [Hle Hnot]. split; [done|].
    intros Hin. apply Hnot. by apply elem_of_difference in Hin as [Hin _].
  - done.
Qed.

Lemma settles_once_settle id r k :
  id ∈ Client.pendingRequests k -> settles_once k ->
  settles_once (Client.settle id r
                  (Client.with_pending (Client.pendingRequests k ∖ {[id]}) k)).
Proof.
  intros Hid (H1 & H2 & H3). split; [|split]; simpl.
  - intros x Hx. apply H1. by apply elem_of_difference in Hx as [Hx _].
  - intros x r' Hx. apply elem_of_app in Hx as [Hx|Hx].
    + destruct (H2 x r' Hx) as [Hle Hnot]. split; [done|].
      intros Hin. apply Hnot. by apply elem_of_difference in Hin as [Hin _].
    + apply list_elem_of_singleton in Hx. injection Hx as -> ->.
      split; [by apply H1|]. intros Hin. apply elem_of_difference in Hin as [_ Hin].
      apply Hin. by apply elem_of_singleton.
  - rewrite fmap_app. apply NoDup_app. split; [done|]. split.
    + intros x Hx. apply list_elem_of_fmap in Hx as ([y r'] & -> & Hy).
      simpl. intros Heq. apply list_elem_of_singleton in Heq as ->.
      by destruct (H2 id r' Hy).
    + simpl. apply NoDup_singleton.
Qed.

Lemma settles_once_sendMessage type payload k :
  settles_once k -> settles_once (Client.sendMessage type payload k).2.
Proof.
  intros Hk. unfold Client.sendMessage.
  destruct (negb (Client.isConnected k)); [done|].
  set (id := S (Client.requestId k)).
  set (k1 := Client.arm _ _).
  assert (Hk1 : settles_once k1).
  { destruct Hk as (H1 & H2 & H3). split; [|split]; simpl.
    - intros x Hx. apply elem_of_union in Hx as [Hx|Hx].
      + apply elem_of_singleton in Hx as ->. done.
      + specialize (H1 x Hx). subst id. lia.
    - intros x r Hx. destruct (H2 x r Hx) as [Hle Hnot]. split; [subst id; lia|].
      intros Hin. apply elem_of_union in Hin as [Hin|Hin]; [|done].
      apply elem_of_singleton in Hin. subst id. lia.
    - done. }
  assert (Hid : id ∈ Client.pendingRequests k1).
  { simpl. apply elem_of_union_l. by apply elem_of_singleton. }
  destruct (Client.ws k1) as [[]|];
    try match goal with |- context [json_image ?v] => destruct (json_image v) end;
    cbn [snd];
    try (by apply settles_once_settle);
    by eapply settles_once_frame; [| | |exact Hk1].
Qed.

Lemma settles_once_request_timeout id k :
  settles_once k -> settles_once (Client.request_timeout id k).
Proof.
  intros Hk. unfold Client.request_timeout. case_bool_decide; [|done].
  by apply settles_once_settle.
Qed.

Lemma settles_once_handleError requestId err k :
  settles_once k -> settles_once (Client.handleError requestId err k).
Proof.
  intros Hk. unfold Client.handleError.
  destruct (Client.request_id_of requestId) as [id|].
  - case_bool_decide.
    + destruct (Client.error_message err);
        [by apply settles_once_drop | by apply settles_once_settle].
    + destruct (Client.error_message err); [done|].
      by eapply settles_once_frame; [| | |exact Hk].
  - destruct (Client.error_message err); [done|].
    by eapply settles_once_frame; [| | |exact Hk].
Qed.

Lemma settles_once_handleResponse message k :
  settles_once k -> settles_once (Client.handleResponse message k).
Proof.
  intros Hk. unfold Client.handleResponse.
  destruct (Client.request_id_of _) as [id|]; [|done].
  case_bool_decide; [|done].
  destruct (truthy _); [by apply settles_once_settle|].
  destruct (Client.error_message _);
    [by apply settles_once_drop | by apply settles_once_settle].
Qed.

Lemma settles_once_lifted f c :
  (settles_once (Library.core c) -> settles_once (f (Library.core c))) ->
  settles_once (Library.core c) -> settles_once (Library.core (Library.lifted f c)).
Proof. intros Hf Hc. destruct (lifted_spec f c) as (-> & _). by apply Hf. Qed.

Lemma core_sendMessage type payload c :
  Library.core (Library.sendMessage type payload c).2
  = (Client.sendMessage type payload (Library.core c)).2.
Proof. reflexivity. Qed.

(** X20: in every client an application can reach, no request has been
    settled twice, a settled request is not pending any more, and no request
    number is used again. *)
Theorem requests_settle_once (c : Library.t) :
  client_reachable c -> settles_once (Library.core c).
Proof.
  induction 1 as [platform now|c _ IH|c _ IH|c code reason _ IH|c _ IH
                  |c event listener _ IH|c event listener _ IH
                  |c type payload _ IH|c collection pattern callback _ IH
                  |c key r _ IH|c collection pattern _ IH|c key r _ IH
                  |c data _ IH|c id _ IH].
  - split; [|split]; simpl.
    + intros id Hid. by apply not_elem_of_empty in Hid.
    + intros id r Hid. by apply elem_of_nil in Hid.
    + constructor.
  - apply settles_once_lifted; [|done]. by apply settles_once_frame.
  - apply settles_once_lifted; [|done]. by apply settles_once_frame.
  - apply settles_once_lifted; [|done].
    destruct (onclose_keeps code reason (Library.core c)) as (Hp & Hs & _ & Hr & _).
    by apply settles_once_frame.
  - unfold Library.disconnect. destruct (Client.ws (Library.core c)); [|done].
    by eapply settles_once_frame; [| | |exact IH].
  - done.
  - unfold Library.off. by destruct (map_get _ _ _).
  - rewrite core_sendMessage. by apply settles_once_sendMessage.
  - unfold Library.subscribe.
    destruct (Server.subscriptionKey_of collection pattern) as [e|key]; [done|].
    destruct (map_has _ _ _); [done|].
    match goal with |- context [Library.sendMessage ?t ?p ?c1] =>
      pose proof (core_sendMessage t p c1) as Hcore;
      pose proof (settles_once_sendMessage t p (Library.core c1) IH) as Hs;
      destruct (Library.sendMessage t p c1) as [[id|e] c2] end;
      simpl in *; by rewrite Hcore.
  - unfold Library.subscribe_settled. by destruct r.
  - unfold Library.unsubscribe.
    destruct (Server.subscriptionKey_of collection pattern) as [e|key]; [done|].
    destruct (negb _); [done|].
    match goal with |- context [Library.sendMessage ?t ?p ?c1] =>
      pose proof (core_sendMessage t p c1) as Hcore;
      pose proof (settles_once_sendMessage t p (Library.core c1) IH) as Hs;
      destruct (Library.sendMessage t p c1) as [[id|e] c2] end;
      simpl in *; by rewrite Hcore.
  - unfold Library.unsubscribe_settled. by destruct r.
  - unfold Library.handleMessage.
    destruct (JSON_parse data) as [e|message]; [done|].
    assert (Hrest :
      settles_once
        (Library.core
           (if strict_equals (Server.prop message "type") (VStr "CONNECTION_ESTABLISHED")
            then Library.handleConnectionEstablished message c
            else if strict_equals (Server.prop message "type")
                                  (VStr "SUBSCRIPTION_UPDATE")
            then (Library.handleSubscriptionUpdate message c).2
            else if strict_equals (Server.prop message "type") (VStr "ERROR")
            then Library.handleError (Server.prop message "requestId")
                                     (Server.prop message "error") c
            else Library.lifted (Client.handleResponse message) c))).
    { destruct (strict_equals _ (VStr "CONNECTION_ESTABLISHED")).
      { unfold Library.handleConnectionEstablished. simpl.
        apply settles_once_lifted; [|done]. by apply settles_once_frame. }
      destruct (strict_equals _ (VStr "SUBSCRIPTION_UPDATE")).
      { unfold Library.handleSubscriptionUpdate, Library.notify.
        destruct (Server.subscriptionKey_of _ _); [done|].
        destruct (Server.subscriptionKey_of _ _); [done|].
        repeat (destruct (map_get _ _ _); simpl);
          repeat (destruct (Library.call _ _); simpl);
          by rewrite ?core_emit. }
      destruct (strict_equals _ (VStr "ERROR")).
      { apply settles_once_lifted; [|done]. apply settles_once_handleError. }
      apply settles_once_lifted; [|done]. apply settles_once_handleResponse. }
    by destruct message.
  - apply settles_once_lifted; [|done]. apply settles_once_request_timeout.
Qed.


Lemma requests_settle_once_witness :
  settles_once (Library.core one_request_answered)
  /\ Client.settled (Library.core one_request_answered) = [(1%nat, Client.Resolved (VNum 7))].
Proof.
  split; [|reflexivity].
  apply (requests_settle_once one_request_answered).
  apply client_handleMessage, client_sendMessage, client_onopen, client_connect,
    client_new.
Defined.

(** X21: the close handler emits one event, [disconnected], and arms a
    reconnection timer exactly when the code is not 1000 and attempts are
    left.  It never emits [maxReconnectAttemptsReached]: when the attempts
    are used up it arms nothing and says nothing more. *)
Theorem close_event (code : Z) (reason : string) (k : Client.t) :
  let again := negb (code =? 1000)
               && (Client.reconnectAttempts k <? Client.maxReconnectAttempts k)%nat in
  Client.emitted (Client.onclose code reason k)
  = Client.emitted k ++ [Client.disconnected code reason]
  /\ Client.timers (Client.onclose code reason k)
     = Client.timers k
       ++ (if again
           then [Client.ReconnectTimer
                   (Client.reconnect_delay (Client.reconnectInterval k)
                      (S (Client.reconnectAttempts k)))]
           else [])
  /\ Client.reconnectAttempts (Client.onclose code reason k)
     = (if again then S (Client.reconnectAttempts k) else Client.reconnectAttempts k).
Proof.
  cbv zeta. unfold Client.onclose. simpl.
  destruct (negb (code =? 1000)); simpl; [|by rewrite app_nil_r].
  destruct (Nat.ltb_spec (Client.reconnectAttempts k) (Client.maxReconnectAttempts k))
    as [Hlt|Hge]; simpl; [|by rewrite app_nil_r].
  unfold Client.attemptReconnect. simpl.
  destruct (Nat.leb_spec (Client.maxReconnectAttempts k) (Client.reconnectAttempts k));
    [lia|done].
Qed.

End RequestTable.

(** ** Listeners *)

Section Listeners.
Import Js Adapters.

Lemma map_get_replace_same {V : Type} k (v : V) m x :
  map_get String.eqb k m = Some x ->
  map_get String.eqb k (map_replace String.eqb k v m) = Some v.
Proof.
  intros H. apply map_get_replace. unfold map_has. by rewrite H.
Qed.

Lemma splice_first_app listener l rest :
  Library.same_function listener listener = true ->
  (forall f, f ∈ l -> Library.same_function f listener = false) ->
  Library.splice_first listener (l ++ listener :: rest) = l ++ rest.
Proof.
  intros Hself Hl. induction l as [|f l IH]; simpl; [by rewrite Hself|].
  rewrite (Hl f) by (by left). f_equal. apply IH. intros g Hg. apply Hl. by right.
Qed.

Lemma listeners_on event listener c :
  listeners event (Library.on event listener c) = listeners event c ++ [listener].
Proof.
  unfold listeners, Library.on. simpl.
  by rewrite map_get_set by apply String.eqb_refl.
Qed.

Lemma listeners_on_other event event' listener c :
  event' <> event ->
  listeners event' (Library.on event listener c) = listeners event' c.
Proof.
  intros Hne. unfold listeners, Library.on. simpl. apply String.eqb_neq in Hne.
  rewrite map_get_set_ne; [done | apply String.eqb_eq | done].
Qed.

Lemma calls_emit event data c :
  Library.calls (Library.emit event data c)
  = Library.calls c ++ map (fun l => (l, data)) (listeners event c).
Proof.
  unfold Library.emit, listeners. destruct (map_get _ _ _); simpl; [done|].
  by rewrite app_nil_r.
Qed.

(** X22: [off] undoes [on].  After a listener that was not registered for an
    event is registered and removed, the event has the listeners it had, in
    their order, and an [emit] calls the same functions; the listeners of the
    other events are not touched.  Registered twice and removed once, the
    listener stays registered once. *)
Theorem off_after_on (event : string) (listener : Library.Function) (c : Library.t) :
  Library.same_function listener listener = true ->
  (forall f, f ∈ listeners event c -> Library.same_function f listener = false) ->
  let c1 := Library.off event listener (Library.on event listener c) in
  let c2 := Library.off event listener
              (Library.on event listener (Library.on event listener c)) in
  listeners event c1 = listeners event c
  /\ (forall data,
        Library.calls (Library.emit event data c1)
        = Library.calls (Library.emit event data c))
  /\ (forall event', event' <> event -> listeners event' c1 = listeners event' c)
  /\ listeners event c2 = listeners event c ++ [listener].
Proof.
  intros Hself Hnew. cbv zeta.
  assert (Hoff : forall c0 l rest,
             listeners event c0 = l ++ listener :: rest ->
             (forall f, f ∈ l -> Library.same_function f listener = false) ->
             listeners event (Library.off event listener c0) = l ++ rest
             /\ Library.calls (Library.off event listener c0) = Library.calls c0
             /\ forall event', event' <> event ->
                  listeners event' (Library.off event listener c0) = listeners event' c0).
  { intros c0 l rest Hl Hf. unfold listeners, Library.off in *.
    destruct (map_get String.eqb event (Library.eventListeners c0)) as [ls|] eqn:E.
    - simpl in *. subst ls. rewrite (map_get_replace_same _ _ _ _ E). simpl.
      split; [by apply splice_first_app|]. split; [done|].
      intros event' Hne. apply String.eqb_neq in Hne.
      rewrite map_get_replace_ne; [done | apply String.eqb_eq | done].
    - simpl in Hl. by destruct l. }
  destruct (Hoff (Library.on event listener c) (listeners event c) []
              (listeners_on _ _ _) Hnew) as (H1 & H2 & H3).
  rewrite app_nil_r in H1.
  split; [exact H1|]. split.
  { intros data. by rewrite !calls_emit, H1, H2. }
  split.
  { intros event' Hne. rewrite H3 by done. by apply listeners_on_other. }
  destruct (Hoff (Library.on event listener (Library.on event listener c))
              (listeners event c) [listener]) as (H4 & _); [|done|exact H4].
  by rewrite !listeners_on, <- app_assoc.
Qed.

End Listeners.

(** ** Subscriptions of the client *)

Section ClientSubscriptions.
Import Js Adapters.

Lemma off_after_on_witness :
  let listener := Library.Fn 1 (fun _ => None) in
  let c := Library.on "ready" (Library.Fn 2 (fun _ => None)) (Library.new "browser" 0) in
  listeners "ready" (Library.off "ready" listener (Library.on "ready" listener c))
  = listeners "ready" c
  /\ listeners "ready"
       (Library.off "ready" listener
          (Library.on "ready" listener (Library.on "ready" listener c)))
     = listeners "ready" c ++ [listener].
Proof.
  destruct (off_after_on "ready" (Library.Fn 1 (fun _ => None))
              (Library.on "ready" (Library.Fn 2 (fun _ => None))
                 (Library.new "browser" 0)) eq_refl) as (H1 & _ & _ & H2).
  - intros f Hf. apply list_elem_of_singleton in Hf as ->. reflexivity.
  - split; [exact H1 | exact H2].
Defined.

Lemma notify_some k argument c callback :
  map_get String.eqb k (Library.subscriptions c) = Some callback ->
  Library.notify k argument c
  = (Library.call callback (Library.Data argument),
     Library.with_calls (Library.calls c ++ [(callback, Library.Data argument)]) c).
Proof. intros H. unfold Library.notify. by rewrite H. Qed.

Lemma notify_none k argument c :
  map_get String.eqb k (Library.subscriptions c) = None ->
  Library.notify k argument c = (None, c).
Proof. intros H. unfold Library.notify. by rewrite H. Qed.

(** X23: an update runs the callback of its key, then the callback of the
    wildcard key of its collection, then the listeners of [dataUpdate].  A
    callback that throws ends it there: what would have been called after it
    is not called, and the exception stays inside [handleMessage]. *)
Theorem update_runs_the_callbacks (message : Value) (c : Library.t)
    (subscriptionKey wildcardKey : string) (f : Library.Function) :
  Server.prop message "type" = VStr "SUBSCRIPTION_UPDATE" ->
  Server.subscriptionKey_of (Server.prop message "collection")
                            (Server.prop message "key") = inr subscriptionKey ->
  Server.subscriptionKey_of (Server.prop message "collection") (VStr "*")
  = inr wildcardKey ->
  map_get String.eqb subscriptionKey (Library.subscriptions c) = Some f ->
  let collection := Server.prop message "collection" in
  let key := Server.prop message "key" in
  let operation := Server.prop message "operation" in
  let value := Server.prop message "value" in
  let specific := Library.Data (Library.update collection key operation value "specific") in
  let wildcard := Library.Data (Library.update collection key operation value "wildcard") in
  let announced :=
    Library.Data (VObj [ ("collection", collection); ("key", key);
                         ("operation", operation); ("value", value) ]) in
  (forall e, Library.call f specific = Some e ->
     Library.handleMessage (Json message) c
     = Library.with_calls (Library.calls c ++ [(f, specific)]) c)
  /\ (Library.call f specific = None ->
      map_get String.eqb wildcardKey (Library.subscriptions c) = None ->
      Library.handleMessage (Json message) c
      = Library.emit "dataUpdate" announced
          (Library.with_calls (Library.calls c ++ [(f, specific)]) c))
  /\ (forall g, Library.call f specific = None ->
        map_get String.eqb wildcardKey (Library.subscriptions c) = Some g ->
        (forall e, Library.call g wildcard = Some e ->
           Library.handleMessage (Json message) c
           = Library.with_calls (Library.calls c ++ [(f, specific); (g, wildcard)]) c)
        /\ (Library.call g wildcard = None ->
            Library.handleMessage (Json message) c
            = Library.emit "dataUpdate" announced
                (Library.with_calls
                   (Library.calls c ++ [(f, specific); (g, wildcard)]) c))).
Proof.
  intros Ht Hsk Hwk Hf. cbv zeta.
  assert (Hm : Library.handleMessage (Json message) c
               = (Library.handleSubscriptionUpdate message c).2).
  { unfold Library.handleMessage. simpl. rewrite Ht. simpl.
    destruct message; try reflexivity; discriminate Ht. }
  rewrite Hm. unfold Library.handleSubscriptionUpdate. rewrite Hsk, Hwk.
  rewrite (notify_some _ _ _ _ Hf).
  split; [|split].
  - intros e ->. reflexivity.
  - intros -> Hg. rewrite notify_none by done. reflexivity.
  - intros g -> Hg. rewrite (notify_some _ _ _ g) by done. split.
    + intros e ->. simpl. by rewrite <- app_assoc.
    + intros ->. simpl. by rewrite <- app_assoc.
Qed.

Lemma update_runs_the_callbacks_witness :
  let message := VObj [ ("type", VStr "SUBSCRIPTION_UPDATE"); ("collection", VStr "cart");
                        ("key", VStr "u1"); ("operation", VStr "SET");
                        ("value", VNum 7); ("timestamp", VNum 0) ] in
  let failing := Library.Fn 1 (fun _ => Some (Error "callback failed")) in
  let c := Library.on "dataUpdate" (Library.Fn 2 (fun _ => None))
             (Library.with_subscriptions [("cart:u1", failing)]
                (Library.new "browser" 0)) in
  Library.handleMessage (Json message) c
  = Library.with_calls
      [(failing, Library.Data (Library.update (VStr "cart") (VStr "u1") (VStr "SET")
                                 (VNum 7) "specific"))] c.
Proof.
  refine (proj1 (update_runs_the_callbacks
                   (VObj [ ("type", VStr "SUBSCRIPTION_UPDATE");
                           ("collection", VStr "cart"); ("key", VStr "u1");
                           ("operation", VStr "SET"); ("value", VNum 7);
                           ("timestamp", VNum 0) ])
                   (Library.on "dataUpdate" (Library.Fn 2 (fun _ => None))
                      (Library.with_subscriptions
                         [("cart:u1", Library.Fn 1 (fun _ => Some (Error "callback failed")))]
                         (Library.new "browser" 0)))
                   "cart:u1" "cart:*"
                   (Library.Fn 1 (fun _ => Some (Error "callback failed")))
                   eq_refl eq_refl eq_refl eq_refl)
                (Error "callback failed") eq_refl).
Defined.

Lemma sendMessage_not_connected type payload c :
  Client.isConnected (Library.core c) = false ->
  Library.sendMessage type payload c
  = (Client.Failed (Error "WebSocket not connected"), c).
Proof.
  intros H. unfold Library.sendMessage.
  rewrite (sendMessage_disconnected _ _ _ H). simpl. by destruct c.
Qed.

(** X24: an [unsubscribe] that fails leaves the key subscribed to a function
    that does nothing: the callback the application had registered is gone,
    and a new one cannot be registered under the key, since [subscribe]
    refuses a key that is held.  So it is for the client that is not
    connected, and for a request that is rejected later. *)
Theorem failed_unsubscribe_drops_the_callback (collection pattern : Value)
    (subscriptionKey : string) (f : Library.Function) (c : Library.t) :
  Server.subscriptionKey_of collection pattern = inr subscriptionKey ->
  map_get String.eqb subscriptionKey (Library.subscriptions c) = Some f ->
  (Client.isConnected (Library.core c) = false ->
   let r := Library.unsubscribe collection pattern c in
   r.1 = inl (Error "WebSocket not connected")
   /\ Library.core r.2 = Library.core c
   /\ map_get String.eqb subscriptionKey (Library.subscriptions r.2)
      = Some Library.Noop
   /\ forall g,
        Library.subscribe collection pattern g r.2
        = (inl (Error ("Already subscribed to " +:+ subscriptionKey)), r.2))
  /\ (forall e c',
        let r := Library.unsubscribe_settled subscriptionKey (Client.Rejected e) c' in
        r.1 = inl e
        /\ map_get String.eqb subscriptionKey (Library.subscriptions r.2)
           = Some Library.Noop).
Proof.
  intros Hk Hf. split.
  - intros Hc. cbv zeta. unfold Library.unsubscribe. rewrite Hk.
    unfold map_has. rewrite Hf. cbn [negb].
    rewrite sendMessage_not_connected by done. cbn [fst snd].
    split; [done|]. split; [done|].
    assert (Hn : map_get String.eqb subscriptionKey
                   (map_set String.eqb subscriptionKey Library.Noop
                      (map_delete String.eqb subscriptionKey (Library.subscriptions c)))
                 = Some Library.Noop)
      by (by rewrite map_get_set by apply String.eqb_refl).
    split; [exact Hn|].
    intros g. unfold Library.subscribe. rewrite Hk. unfold map_has. cbn [Library.subscriptions Library.with_subscriptions].
    by rewrite Hn.
  - intros e c'. cbv zeta. simpl. split; [done|].
    by rewrite map_get_set by apply String.eqb_refl.
Qed.


Lemma failed_unsubscribe_drops_the_callback_witness :
  let f := Library.Fn 1 (fun _ => None) in
  let c := Library.with_subscriptions [("cart:u1", f)] (Library.new "browser" 0) in
  let r := Library.unsubscribe (VStr "cart") (VStr "u1") c in
  r.1 = inl (Error "WebSocket not connected")
  /\ Library.core r.2 = Library.core c
  /\ map_get String.eqb "cart:u1" (Library.subscriptions r.2) = Some Library.Noop
  /\ forall g,
       Library.subscribe (VStr "cart") (VStr "u1") g r.2
       = (inl (Error ("Already subscribed to " +:+ "cart:u1")), r.2).
Proof.
  exact (proj1 (failed_unsubscribe_drops_the_callback (VStr "cart") (VStr "u1") "cart:u1"
                  (Library.Fn 1 (fun _ => None))
                  (Library.with_subscriptions
                     [("cart:u1", Library.Fn 1 (fun _ => None))]
                     (Library.new "browser" 0)) eq_refl eq_refl) eq_refl).
Defined.

End ClientSubscriptions.

(** ** The envelopes of the broker, as the client reads them *)

Section Wire.
Import Js Adapters.

Lemma drop_all {A : Type} (l : list A) : drop (length l) l = [].
Proof. induction l; [done | simpl; done]. Qed.

(** A method that emits nothing calls no listener. *)
Lemma lifted_silent f c :
  Client.emitted (f (Library.core c)) = Client.emitted (Library.core c) ->
  Library.lifted f c = Library.with_core (f (Library.core c)) c.
Proof. intros H. unfold Library.lifted. by rewrite H, drop_all. Qed.

Lemma request_id_of_nat id :
  (0 < id)%nat -> Client.request_id_of (VNum (Z.of_nat id)) = Some id.
Proof.
  intros H. unfold Client.request_id_of.
  destruct (Z.ltb_spec 0 (Z.of_nat id)); [|lia]. by rewrite Nat2Z.id.
Qed.

Lemma handled_types t h :
  Server.messageHandlers_get (VStr t) = Some h ->
  t ∈ ["GET"; "SET"; "DELETE"; "QUERY"; "BATCH"; "PING"; "SUBSCRIBE"; "UNSUBSCRIBE"].
Proof.
  unfold Server.messageHandlers_get, Server.messageHandlers. cbn [map_get].
  repeat match goal with
         | |- context [String.eqb t ?x] =>
             destruct (String.eqb_spec t x) as [->|?];
             [intros _; repeat (first [by left | right]) |]
         end.
  discriminate.
Qed.

(** [handleMessage] on a frame that holds an object or a primitive. *)
Lemma handleMessage_value message c :
  message <> VUndefined -> message <> VNull ->
  Library.handleMessage (Json message) c
  = if strict_equals (Server.prop message "type") (VStr "CONNECTION_ESTABLISHED")
    then Library.handleConnectionEstablished message c
    else if strict_equals (Server.prop message "type") (VStr "SUBSCRIPTION_UPDATE")
    then (Library.handleSubscriptionUpdate message c).2
    else if strict_equals (Server.prop message "type") (VStr "ERROR")
    then Library.handleError (Server.prop message "requestId")
                             (Server.prop message "error") c
    else Library.lifted (Client.handleResponse message) c.
Proof. intros Hu Hn. by destruct message. Qed.

(** X25: the client reads the envelopes of the broker as the broker means
    them.  The response envelope of a handled request resolves the pending
    request whose number it carries with the result of the handler, as JSON
    carries it; the [ERROR] envelope rejects it with the message of the
    error.  Either way the request is pending no more. *)
Theorem answers_settle_requests (id : nat) (c : Library.t) :
  (0 < id)%nat -> id ∈ Client.pendingRequests (Library.core c) ->
  let settled_with r :=
    Library.with_core
      (Client.settle id r
         (Client.with_pending (Client.pendingRequests (Library.core c) ∖ {[id]})
                              (Library.core c))) c in
  (forall t h result now doc,
     Server.messageHandlers_get (VStr t) = Some h ->
     json_image (Server.response t (VNum (Z.of_nat id)) result now) = Some doc ->
     Library.handleMessage (Json doc) c
     = settled_with (Client.Resolved (default VUndefined (json_image result))))
  /\ (forall message now doc,
        json_image (Server.error_envelope (VNum (Z.of_nat id)) message now) = Some doc ->
        Library.handleMessage (Json doc) c
        = settled_with (Client.Rejected (Error message))).
Proof.
  intros Hpos Hid. cbv zeta. split.
  - intros t h result now doc Hh.
    rewrite json_image_response. intros [= <-].
    assert (Ht : t ∈ ["GET"; "SET"; "DELETE"; "QUERY"; "BATCH"; "PING"; "SUBSCRIBE";
                      "UNSUBSCRIBE"]) by by eapply handled_types.
    set (doc := VObj _).
    assert (Hfields : Server.prop doc "type" = VStr (t +:+ "_RESPONSE")
                      /\ Server.prop doc "requestId" = VNum (Z.of_nat id)
                      /\ Server.prop doc "success" = VBool true
                      /\ Server.prop doc "data" = default VUndefined (json_image result))
      by (subst doc; by destruct (json_image result)).
    destruct Hfields as (Htype & Hrid & Hsuccess & Hdata).
    assert (Hother : strict_equals (VStr (t +:+ "_RESPONSE")) (VStr "CONNECTION_ESTABLISHED")
                     = false
                     /\ strict_equals (VStr (t +:+ "_RESPONSE")) (VStr "SUBSCRIPTION_UPDATE")
                        = false
                     /\ strict_equals (VStr (t +:+ "_RESPONSE")) (VStr "ERROR") = false).
    { repeat (apply elem_of_cons in Ht as [->|Ht]; [done|]). by apply elem_of_nil in Ht. }
    destruct Hother as (H1 & H2 & H3).
    rewrite handleMessage_value by done. rewrite Htype, H1, H2, H3.
    assert (Hr : Client.handleResponse doc (Library.core c)
                 = Client.settle id
                     (Client.Resolved (default VUndefined (json_image result)))
                     (Client.with_pending
                        (Client.pendingRequests (Library.core c) ∖ {[id]})
                        (Library.core c))).
    { unfold Client.handleResponse. rewrite Hrid, Hsuccess, Hdata.
      rewrite request_id_of_nat by done.
      by rewrite bool_decide_eq_true_2 by done. }
    rewrite lifted_silent; by rewrite Hr.
  - intros message now doc. rewrite json_image_error_envelope. intros [= <-].
    set (doc := VObj _).
    assert (Hfields : Server.prop doc "type" = VStr "ERROR"
                      /\ Server.prop doc "requestId" = VNum (Z.of_nat id)
                      /\ Server.prop doc "error" = VStr message) by done.
    destruct Hfields as (Htype & Hrid & Herror).
    rewrite handleMessage_value by done. rewrite Htype, Hrid, Herror.
    cbn [strict_equals]. unfold Library.handleError.
    assert (Hr : Client.handleError (VNum (Z.of_nat id)) (VStr message) (Library.core c)
                 = Client.settle id (Client.Rejected (Error message))
                     (Client.with_pending
                        (Client.pendingRequests (Library.core c) ∖ {[id]})
                        (Library.core c))).
    { unfold Client.handleError. rewrite request_id_of_nat by done.
      by rewrite bool_decide_eq_true_2 by done. }
    rewrite lifted_silent; by rewrite Hr.
Qed.

End Wire.

Section WireWitness.
Import Js Adapters.

Lemma answers_settle_requests_witness :
  let c := (Library.get (VStr "cart") (VStr "u1") VUndefined
              (Library.onopen (Library.connect (Library.new "browser" 0)))).2 in
  Library.handleMessage
    (Json (VObj [ ("type", VStr "ERROR"); ("requestId", VNum (Z.of_nat 1));
                  ("success", VBool false);
                  ("error", VStr "Storage adapter not found for platform: tv");
                  ("timestamp", VNum 5) ])) c
  = Library.with_core
      (Client.settle 1
         (Client.Rejected (Error "Storage adapter not found for platform: tv"))
         (Client.with_pending (Client.pendingRequests (Library.core c) ∖ {[1%nat]})
                              (Library.core c))) c.
Proof.
  cbv zeta.
  apply (proj2 (answers_settle_requests 1
                  (Library.get (VStr "cart") (VStr "u1") VUndefined
                     (Library.onopen (Library.connect (Library.new "browser" 0)))).2
                  ltac:(lia)
                  ltac:(apply elem_of_union_l; by apply elem_of_singleton))
               "Storage adapter not found for platform: tv" 5
               (VObj [ ("type", VStr "ERROR"); ("requestId", VNum (Z.of_nat 1));
                       ("success", VBool false);
                       ("error", VStr "Storage adapter not found for platform: tv");
                       ("timestamp", VNum 5) ])).
  reflexivity.
Defined.

End WireWitness.

(** ** Updates of the broker, as the client reads them *)

Section Updates.
Import Js Adapters.

(** X26: the client finds the callback of an update under the key the broker
    found the subscription under.  When the broker announces a mutation of
    [collection] and [key], both strings, the client that holds a callback
    for [collection:key] calls it once, with the collection, the key, the
    operation and the value as JSON carries it, and then tells the listeners
    of [dataUpdate]. *)
Theorem update_of_the_broker_reaches_the_callback (collection key operation : string)
    (value : Value) (now : Z) (f : Library.Function) (c : Library.t) :
  map_get String.eqb (collection +:+ ":" +:+ key) (Library.subscriptions c) = Some f ->
  map_get String.eqb (collection +:+ ":" +:+ "*") (Library.subscriptions c) = None ->
  let carried := default VUndefined (json_image value) in
  let argument :=
    Library.Data (Library.update (VStr collection) (VStr key) (VStr operation) carried
                                 "specific") in
  Library.call f argument = None ->
  Library.handleMessage
    (Json (update_document (VStr collection) (VStr key) operation value now)) c
  = Library.emit "dataUpdate"
      (Library.Data (VObj [ ("collection", VStr collection); ("key", VStr key);
                            ("operation", VStr operation); ("value", carried) ]))
      (Library.with_calls (Library.calls c ++ [(f, argument)]) c).
Proof.
  intros Hf Hw. cbv zeta. intros Hcall.
  unfold update_document, Server.subscription_update.
  set (doc := default VNull _).
  assert (Hdoc : doc <> VUndefined /\ doc <> VNull
                 /\ Server.prop doc "type" = VStr "SUBSCRIPTION_UPDATE"
                 /\ Server.prop doc "collection" = VStr collection
                 /\ Server.prop doc "key" = VStr key
                 /\ Server.prop doc "operation" = VStr operation
                 /\ Server.prop doc "value" = default VUndefined (json_image value)).
  { subst doc. cbn [json_image]. by destruct (json_image value). }
  destruct Hdoc as (Hu & Hn & Htype & Hcollection & Hkey & Hoperation & Hvalue).
  rewrite handleMessage_value by done. rewrite Htype. cbn [strict_equals].
  unfold Library.handleSubscriptionUpdate.
  rewrite Hcollection, Hkey, Hoperation, Hvalue.
  assert (Hsk : Server.subscriptionKey_of (VStr collection) (VStr key)
                = inr (collection +:+ ":" +:+ key)) by done.
  assert (Hwk : Server.subscriptionKey_of (VStr collection) (VStr "*")
                = inr (collection +:+ ":" +:+ "*")) by done.
  rewrite Hsk, Hwk. rewrite (notify_some _ _ _ _ Hf). rewrite Hcall.
  by rewrite notify_none by done.
Qed.

Lemma update_of_the_broker_reaches_the_callback_witness :
  let f := Library.Fn 1 (fun _ => None) in
  let c := Library.with_subscriptions [("cart:u1", f)] (Library.new "browser" 0) in
  Library.calls
    (Library.handleMessage
       (Json (update_document (VStr "cart") (VStr "u1") "DELETE" VNull 5)) c)
  = [(f, Library.Data (Library.update (VStr "cart") (VStr "u1") (VStr "DELETE") VNull
                                      "specific"))].
Proof.
  cbv zeta.
  rewrite (update_of_the_broker_reaches_the_callback "cart" "u1" "DELETE" VNull 5
             (Library.Fn 1 (fun _ => None))
             (Library.with_subscriptions [("cart:u1", Library.Fn 1 (fun _ => None))]
                (Library.new "browser" 0)) eq_refl eq_refl eq_refl).
  reflexivity.
Defined.

End Updates.

(** ** Reconnection *)

Section Reconnection.
Import Js Adapters Server.

Lemma connection_run ws remoteAddress headers id w :
  let platform := detectPlatform (default "" (header "user-agent" headers)) headers in
  let w1 := (connection ws remoteAddress headers id w).2 in
  sockets w1 = <[ws := mkSocket platform id ∅ true OPEN]> (sockets w)
  /\ activeConnections w1 = set_add ws (activeConnections w).
Proof.
  cbv zeta. unfold connection, bind, log, modify, sendMessage, socket, bind, gets. simpl.
  rewrite lookup_insert_eq. simpl.
  done.
Qed.

Lemma fanout_recipient m sk wk origin doc connections f :
  f ∈ fanout m sk wk origin doc connections -> recipient m sk wk origin f.1 = true.
Proof.
  unfold fanout. induction connections as [|x l IH]; simpl.
  - intros H. by apply elem_of_nil in H.
  - rewrite elem_of_app. intros [H|H]; [|by apply IH].
    destruct (recipient m sk wk origin x) eqn:E; [|by apply elem_of_nil in H].
    by apply list_elem_of_singleton in H as ->.
Qed.

(** X27: subscriptions do not survive a reconnection.  After the transport
    has closed and the client has connected again it still holds its
    callbacks, and [subscribe] refuses their keys as subscribed already; the
    socket the broker made for the new connection holds no subscription, and
    no [SET] or [DELETE] makes the broker send an update to it. *)
Theorem subscriptions_after_reconnection (collection pattern : Value)
    (subscriptionKey : string) (f : Library.Function) (c : Library.t)
    (code : Z) (reason : string)
    (ws : nat) (remoteAddress : string) (headers : list (string * string))
    (id : string) (w : World) :
  subscriptionKey_of collection pattern = inr subscriptionKey ->
  map_get String.eqb subscriptionKey (Library.subscriptions c) = Some f ->
  well_formed w ->
  let c1 := Library.onopen (Library.connect (Library.onclose code reason c)) in
  let w1 := (connection ws remoteAddress headers id w).2 in
  map_get String.eqb subscriptionKey (Library.subscriptions c1) = Some f
  /\ (forall g,
        Library.subscribe collection pattern g c1
        = (inl (Error ("Already subscribed to " +:+ subscriptionKey)), c1))
  /\ (exists s, sockets w1 !! ws = Some s /\ subscriptions s = ∅)
  /\ forall (op : Opcode) (operation : string) (fuel : nat) (payload : Value)
            (storageAdapter : option AdapterRef) (origin : nat) (o : Socket)
            (w' : World) (result : Value),
       (op = SET /\ operation = "SET") \/ (op = DELETE /\ operation = "DELETE") ->
       sockets w1 !! origin = Some o ->
       handler fuel op payload storageAdapter origin w1 = (Returned result, w') ->
       exists new, sent w' = sent w1 ++ new /\ Forall (fun m => m.1 <> ws) new.
Proof.
  intros Hk Hf [Hnd Hw]. cbv zeta.
  assert (Hsubs : Library.subscriptions
                    (Library.onopen (Library.connect (Library.onclose code reason c)))
                  = Library.subscriptions c).
  { unfold Library.onopen, Library.connect, Library.onclose.
    destruct (lifted_spec Client.onopen
                (Library.lifted Client.connect
                   (Library.lifted (Client.onclose code reason) c))) as (_ & -> & _).
    destruct (lifted_spec Client.connect
                (Library.lifted (Client.onclose code reason) c)) as (_ & -> & _).
    by destruct (lifted_spec (Client.onclose code reason) c) as (_ & -> & _). }
  split; [by rewrite Hsubs|]. split.
  { intros g. unfold Library.subscribe. rewrite Hk. unfold map_has.
    by rewrite Hsubs, Hf. }
  destruct (connection_run ws remoteAddress headers id w) as [Hs Ha].
  cbv zeta in Hs, Ha. split.
  { eexists. rewrite Hs, lookup_insert_eq. by split. }
  intros op operation fuel payload storageAdapter origin o w' result Hop Ho Hrun.
  destruct (handler_fan_out op operation fuel payload storageAdapter origin o _ w'
              result Hop Ho) as (sk & wk & _ & _ & _ & Hsent); [|exact Hrun|].
  { intros x Hx. rewrite Ha in Hx. rewrite Hs. apply set_add_spec in Hx as [->|Hx].
    - rewrite lookup_insert_eq. by eexists.
    - destruct (decide (x = ws)) as [->|Hne].
      + rewrite lookup_insert_eq. by eexists.
      + rewrite lookup_insert_ne by done. by apply Hw. }
  eexists. split; [exact Hsent|]. apply Forall_forall. intros m Hm E.
  apply fanout_recipient in Hm. rewrite E in Hm. unfold recipient in Hm.
  rewrite Hs, lookup_insert_eq in Hm. cbn in Hm. unfold has in Hm.
  rewrite !bool_decide_eq_false_2 in Hm by apply not_elem_of_empty.
  by rewrite andb_false_r in Hm.
Qed.

End Reconnection.

Section ReconnectionWitness.
Import Js Adapters Server.

Lemma subscriptions_after_reconnection_witness :
  let f := Library.Fn 1 (fun _ => None) in
  let c := Library.with_subscriptions [("cart:u1", f)]
             (Library.onopen (Library.connect (Library.new "browser" 0))) in
  let c1 := Library.onopen (Library.connect (Library.onclose 1006 "" c)) in
  let w1 := (connection 3 "::1" [("x-platform", "browser")] "client_3"
               Scenario.subscribed).2 in
  map_get String.eqb "cart:u1" (Library.subscriptions c1) = Some f
  /\ (forall g,
        Library.subscribe (VStr "cart") (VStr "u1") g c1
        = (inl (Error ("Already subscribed to " +:+ "cart:u1")), c1))
  /\ (exists s, sockets w1 !! 3%nat = Some s /\ subscriptions s = ∅)
  /\ forall (op : Opcode) (operation : string) (fuel : nat) (payload : Value)
            (storageAdapter : option AdapterRef) (origin : nat) (o : Socket)
            (w' : World) (result : Value),
       (op = SET /\ operation = "SET") \/ (op = DELETE /\ operation = "DELETE") ->
       sockets w1 !! origin = Some o ->
       handler fuel op payload storageAdapter origin w1 = (Returned result, w') ->
       exists new, sent w' = sent w1 ++ new /\ Forall (fun m => m.1 <> 3%nat) new.
Proof.
  exact (subscriptions_after_reconnection (VStr "cart") (VStr "u1") "cart:u1"
           (Library.Fn 1 (fun _ => None))
           (Library.with_subscriptions [("cart:u1", Library.Fn 1 (fun _ => None))]
              (Library.onopen (Library.connect (Library.new "browser" 0))))
           1006 "" 3 "::1" [("x-platform", "browser")] "client_3"
           Scenario.subscribed eq_refl eq_refl well_formed_subscribed).
Defined.

End ReconnectionWitness.
